(** * ALX Polly: vote submission and tallying

    Two pieces of the repository decide how votes are stored and counted:

    - [SchemaSql]: the tables of schema.sql and its PL/pgSQL functions
      [record_vote], [get_poll_with_options] and [get_user_polls];
    - [PollActions]: the server action [submitVote] of the poll actions
      file, which talks through the Supabase client to the tables of the
      README (one vote per user and poll, options stored as an array on the
      poll).

    [PollManagement] adds the other actions of that file, [createPoll],
    [getUserPolls], [getPollById], [deletePoll] and [updatePoll], over the
    same tables and the same client.

    Tables are lists of rows in insertion order, SQL's NULL is [None], and a
    statement or function call that raises leaves the database as it was
    (it runs as one transaction). Which rows of polls a session reads is
    decided by the SELECT policies in force, of which the README creates
    none; the database of the actions carries that test, and the properties
    say where they need a row to be read. The facts come after the models, the
    properties of the vote protocol after them, and the properties of the
    other actions and queries last. *)

From Stdlib Require Import ZArith List String Ascii Bool Lia Permutation Sorted.
From stdpp Require Import gmap strings.
Import ListNotations.

Local Open Scope string_scope.
Local Open Scope list_scope.
Local Open Scope Z_scope.

(** Primary and foreign keys are UUIDs; the model keeps them as text. *)
Definition UUID := string.
Definition timestamptz := Z.

Module SchemaSql.

(** schema.sql writes every apostrophe three times ('''active''',
    user'''s polls). Inside a string constant a doubled apostrophe stands
    for one, so the constant '''x''' holds the text of x between two
    apostrophes ([string_constant]). For the labels of poll_status, written
    the same way where the type is created and where they are compared,
    for the keys of json_build_object and for the messages of RAISE this
    changes the text only, and the constructors, fields and messages below
    name them without the apostrophes. For the constant cast to json on
    line 202 it decides whether the cast goes through, and the model reads
    it as it is written.

    Columns are nullable unless declared NOT NULL or PRIMARY KEY. The
    created_at and updated_at columns that no function of the file reads
    are left out of the rows. *)

Inductive poll_status := active | closed | draft.

Definition poll_status_eqb (a b : poll_status) : bool :=
  match a, b with
  | active, active | closed, closed | draft, draft => true
  | _, _ => false
  end.

Module Profiles.
Record row := {
  id : UUID;
  email : string;
  full_name : option string;
  avatar_url : option string }.
End Profiles.

Module Polls.
Record row := {
  id : UUID;
  creator_id : UUID;
  question : string;
  description : option string;
  status : option poll_status;
  is_public : option bool;
  allow_multiple_votes : option bool;
  expires_at : option timestamptz;
  created_at : option timestamptz }.
End Polls.

Module PollOptions.
Record row := {
  id : UUID;
  poll_id : UUID;
  option_text : string;
  display_order : Z }.
End PollOptions.

(** [id] stands for the value of gen_random_uuid(): the database hands out
    a fresh one per inserted row, here the next value of a counter.
    [created_at] (DEFAULT NOW()) is read by no statement of the file and is
    left out. *)
Module Votes.
Record row := {
  id : N;
  poll_id : UUID;
  option_id : UUID;
  voter_id : UUID }.
End Votes.

Record DB := {
  profiles : list Profiles.row;
  polls : list Polls.row;
  poll_options : list PollOptions.row;
  votes : list Votes.row;
  next_vote_id : N }.

Definition with_votes (db : DB) (vs : list Votes.row) (next : N) : DB :=
  {| profiles := profiles db; polls := polls db;
     poll_options := poll_options db; votes := vs; next_vote_id := next |}.

(** ** Three-valued conditions *)

(** [a != b] is NULL when [a] is NULL. *)
Definition sql_ne_status (a : option poll_status) (b : poll_status) : option bool :=
  match a with
  | Some x => Some (negb (poll_status_eqb x b))
  | None => None
  end.

(** IF takes its THEN branch only when the condition is true; NULL counts as
    not true. *)
Definition sql_is_true (c : option bool) : bool :=
  match c with Some true => true | _ => false end.

(** ** Statements on [public.votes] *)

Inductive sql_error :=
| raise_exception (message : string)
| foreign_key_violation (column : string)
| unique_violation (columns : string)
| ambiguous_column (name : string)
| syntax_error (near : string)
| invalid_text_representation (type : string).

Definition same_key (poll_uuid option_uuid voter_uuid : UUID) (v : Votes.row) : bool :=
  String.eqb (Votes.poll_id v) poll_uuid
  && String.eqb (Votes.voter_id v) voter_uuid
  && String.eqb (Votes.option_id v) option_uuid.

Definition of_voter_on_poll (poll_uuid voter_uuid : UUID) (v : Votes.row) : bool :=
  String.eqb (Votes.poll_id v) poll_uuid && String.eqb (Votes.voter_id v) voter_uuid.

(** The REFERENCES clauses of the three foreign keys of [votes]. *)
Definition check_foreign_keys (db : DB) (poll_uuid option_uuid voter_uuid : UUID)
  : option sql_error :=
  if negb (existsb (fun p => String.eqb (Polls.id p) poll_uuid) (polls db))
  then Some (foreign_key_violation "poll_id")
  else if negb (existsb (fun o => String.eqb (PollOptions.id o) option_uuid) (poll_options db))
  then Some (foreign_key_violation "option_id")
  else if negb (existsb (fun u => String.eqb (Profiles.id u) voter_uuid) (profiles db))
  then Some (foreign_key_violation "voter_id")
  else None.

Definition append_vote (db : DB) (poll_uuid option_uuid voter_uuid : UUID) : DB :=
  with_votes db
    (votes db ++ [{| Votes.id := next_vote_id db; Votes.poll_id := poll_uuid;
                     Votes.option_id := option_uuid; Votes.voter_id := voter_uuid |}])
    (N.succ (next_vote_id db)).

(** INSERT INTO public.votes (poll_id, option_id, voter_id) VALUES (...):
    UNIQUE(poll_id, voter_id, option_id), then the foreign keys. *)
Definition insert_vote (db : DB) (poll_uuid option_uuid voter_uuid : UUID)
  : DB + sql_error :=
  if existsb (same_key poll_uuid option_uuid voter_uuid) (votes db)
  then inr (unique_violation "poll_id, voter_id, option_id")
  else match check_foreign_keys db poll_uuid option_uuid voter_uuid with
       | Some e => inr e
       | None => inl (append_vote db poll_uuid option_uuid voter_uuid)
       end.

(** The same INSERT with ON CONFLICT (poll_id, voter_id, option_id) DO NOTHING. *)
Definition insert_vote_on_conflict_do_nothing
    (db : DB) (poll_uuid option_uuid voter_uuid : UUID) : DB + sql_error :=
  if existsb (same_key poll_uuid option_uuid voter_uuid) (votes db)
  then inl db
  else match check_foreign_keys db poll_uuid option_uuid voter_uuid with
       | Some e => inr e
       | None => inl (append_vote db poll_uuid option_uuid voter_uuid)
       end.

(** DELETE FROM public.votes WHERE poll_id = poll_uuid AND voter_id = voter_uuid *)
Definition delete_votes (db : DB) (poll_uuid voter_uuid : UUID) : DB :=
  with_votes db
    (List.filter (fun v => negb (of_voter_on_poll poll_uuid voter_uuid v)) (votes db))
    (next_vote_id db).

(** ** record_vote *)

(** What a call of the function gives back: the BOOLEAN it returns, or the
    error it raised. *)
Inductive outcome :=
| returned (b : bool)
| raised (e : sql_error).

Definition option_of_poll (poll_uuid option_uuid : UUID) (o : PollOptions.row) : bool :=
  String.eqb (PollOptions.id o) option_uuid && String.eqb (PollOptions.poll_id o) poll_uuid.

Definition record_vote (db : DB) (poll_uuid option_uuid voter_uuid : UUID)
  : outcome * DB :=
  match List.find (fun p => String.eqb (Polls.id p) poll_uuid) (polls db) with
  | None => (raised (raise_exception "Poll not found"), db)
  | Some poll_record =>
    if sql_is_true (sql_ne_status (Polls.status poll_record) active)
    then (raised (raise_exception "Poll is not active"), db)
    else if negb (existsb (option_of_poll poll_uuid option_uuid) (poll_options db))
    then (raised (raise_exception "Invalid option for this poll"), db)
    else if sql_is_true (Polls.allow_multiple_votes poll_record)
    then match insert_vote_on_conflict_do_nothing db poll_uuid option_uuid voter_uuid with
         | inl db' => (returned true, db')
         | inr e => (raised e, db)
         end
    else match insert_vote (delete_votes db poll_uuid voter_uuid)
                 poll_uuid option_uuid voter_uuid with
         | inl db' => (returned true, db')
         | inr e => (raised e, db)
         end
  end.

(** ** get_poll_with_options *)

Module OptionJson.
Record row := {
  id : UUID;
  option_text : string;
  display_order : Z;
  vote_count : Z }.
End OptionJson.

(** ** String constants and json *)

Definition apostrophe : ascii := "'"%char.

(** What follows the opening apostrophe of a string constant: the text up
    to the closing apostrophe, a doubled apostrophe standing for one. *)
Fixpoint string_constant_body (s : string) : option string :=
  match s with
  | EmptyString => None
  | String c rest =>
    if Ascii.eqb c apostrophe
    then match rest with
         | EmptyString => Some EmptyString
         | String c' rest' =>
           if Ascii.eqb c' apostrophe
           then option_map (String apostrophe) (string_constant_body rest')
           else None
         end
    else option_map (String c) (string_constant_body rest)
  end.

(** The text a string constant holds, from the constant as it is written. *)
Definition string_constant (written : string) : option string :=
  match written with
  | String c rest => if Ascii.eqb c apostrophe then string_constant_body rest else None
  | EmptyString => None
  end.

(** A value of type json: an array of the objects json_build_object makes
    for the options, or any other value, kept as its text. *)
Inductive json :=
| json_array (items : list OptionJson.row)
| json_value (text : string).

Definition json_whitespace (c : ascii) : bool :=
  existsb (Ascii.eqb c) [" "%char; ascii_of_nat 9; ascii_of_nat 10; ascii_of_nat 13].

Fixpoint skip_whitespace (s : string) : string :=
  match s with
  | String c rest => if json_whitespace c then skip_whitespace rest else s
  | EmptyString => EmptyString
  end.

(** The characters a JSON value can start with: a bracket, a brace, a
    double quote, a minus sign, a digit, or the first letter of true,
    false and null. *)
Definition starts_json_value (c : ascii) : bool :=
  existsb (Ascii.eqb c) ["["%char; "{"%char; ascii_of_nat 34; "-"%char; "t"%char; "f"%char;
                         "n"%char]
  || ((48 <=? nat_of_ascii c)%nat && (nat_of_ascii c <=? 57)%nat).

(** text::json, the input function of the type as far as the model follows
    it: a text that is empty or whose first character cannot start a value
    is refused; [] is the empty array; any other text is kept unread. *)
Definition json_in (text : string) : json + sql_error :=
  match skip_whitespace text with
  | EmptyString => inr (invalid_text_representation "json")
  | String c _ as value =>
    if negb (starts_json_value c) then inr (invalid_text_representation "json")
    else if String.eqb value "[]" then inl (json_array [])
    else inl (json_value value)
  end.

Module PollWithOptions.
Record row := {
  poll_id : UUID;
  question : string;
  description : option string;
  status : option poll_status;
  is_public : option bool;
  allow_multiple_votes : option bool;
  expires_at : option timestamptz;
  created_at : option timestamptz;
  creator_id : UUID;
  options : json;
  total_votes : Z }.
End PollWithOptions.

(** COUNT( * ) over the rows that pass a WHERE clause. *)
Definition count_where {A : Type} (cond : A -> bool) (rows : list A) : Z :=
  Z.of_nat (length (List.filter cond rows)).

(** SELECT option_id, COUNT( * ) as vote_count FROM public.votes
    WHERE poll_id = p.id GROUP BY option_id
    with poll_id read as the column of [votes]: one row per distinct
    option_id among the votes of the poll. *)
Definition vote_counts (db : DB) (p_id : UUID) : list (UUID * Z) :=
  let of_poll := List.filter (fun v => String.eqb (Votes.poll_id v) p_id) (votes db) in
  map (fun o => (o, count_where (fun v => String.eqb (Votes.option_id v) o) of_poll))
      (nodup string_dec (map Votes.option_id of_poll)).

(** LEFT JOIN ... ON po.id = vote_counts.option_id with
    COALESCE(vote_counts.vote_count, 0): the group of the option when there
    is one, else 0. *)
Definition joined_vote_count (counts : list (UUID * Z)) (po : PollOptions.row) : Z :=
  match List.find (fun g => String.eqb (PollOptions.id po) (fst g)) counts with
  | Some g => snd g
  | None => 0
  end.

(** ORDER BY po.display_order, as an insertion sort that keeps rows of equal
    display_order in table order (PostgreSQL leaves their order open). *)
Fixpoint insert_by_display_order (x : PollOptions.row) (l : list PollOptions.row)
  : list PollOptions.row :=
  match l with
  | [] => [x]
  | y :: l' =>
    if PollOptions.display_order x <=? PollOptions.display_order y
    then x :: l
    else y :: insert_by_display_order x l'
  end.

Definition order_by_display_order (l : list PollOptions.row) : list PollOptions.row :=
  fold_right insert_by_display_order [] l.

(** The sub-select with json_agg(json_build_object(...) ORDER BY
    po.display_order) over the options of poll [p_id]: NULL when the poll
    has no option, as an aggregate over no row is. *)
Definition options_agg (db : DB) (p_id : UUID) : option (list OptionJson.row) :=
  let counts := vote_counts db p_id in
  match order_by_display_order
          (List.filter (fun po => String.eqb (PollOptions.poll_id po) p_id) (poll_options db))
  with
  | [] => None
  | rows =>
    Some (map (fun po => {| OptionJson.id := PollOptions.id po;
                            OptionJson.option_text := PollOptions.option_text po;
                            OptionJson.display_order := PollOptions.display_order po;
                            OptionJson.vote_count := joined_vote_count counts po |})
              rows)
  end.

(** The second argument of the COALESCE of line 202, as it is written. *)
Definition empty_options_constant : string := "'''[]'''".

(** '''[]'''::json. The cast of a constant is carried out when the
    statement is analysed, before a row is read. *)
Definition empty_options : json + sql_error :=
  match string_constant empty_options_constant with
  | Some text => json_in text
  | None => inr (syntax_error empty_options_constant)
  end.

(** The SELECT after RETURN QUERY, with the poll_id of its two sub-selects
    over public.votes read as the column of [votes]: the error of the cast
    when the constant is refused, else one row for each poll of that id. *)
Definition poll_with_options_query (db : DB) (poll_uuid : UUID)
  : list PollWithOptions.row + sql_error :=
  match empty_options with
  | inr e => inr e
  | inl empty =>
    inl (map (fun p =>
                {| PollWithOptions.poll_id := Polls.id p;
                   PollWithOptions.question := Polls.question p;
                   PollWithOptions.description := Polls.description p;
                   PollWithOptions.status := Polls.status p;
                   PollWithOptions.is_public := Polls.is_public p;
                   PollWithOptions.allow_multiple_votes := Polls.allow_multiple_votes p;
                   PollWithOptions.expires_at := Polls.expires_at p;
                   PollWithOptions.created_at := Polls.created_at p;
                   PollWithOptions.creator_id := Polls.creator_id p;
                   PollWithOptions.options :=
                     match options_agg db (Polls.id p) with
                     | Some rows => json_array rows
                     | None => empty
                     end;
                   PollWithOptions.total_votes :=
                     count_where (fun v => String.eqb (Votes.poll_id v) (Polls.id p))
                                 (votes db) |})
             (List.filter (fun p => String.eqb (Polls.id p) poll_uuid) (polls db)))
  end.

(** Names in the body. RETURNS TABLE makes every output column a variable
    of the function, next to its parameter. *)
Definition get_poll_with_options_variables : list string :=
  ["poll_uuid"; "poll_id"; "question"; "description"; "status"; "is_public";
   "allow_multiple_votes"; "expires_at"; "created_at"; "creator_id"; "options";
   "total_votes"].

Definition votes_columns : list string :=
  ["id"; "poll_id"; "option_id"; "voter_id"; "created_at"].

(** The column references the query writes without a table name, in order,
    each with the columns of the table of its FROM clause: option_id and
    poll_id in the vote_counts sub-select, option_id in its GROUP BY,
    poll_id in the sub-select of total_votes. Every other reference is
    written p.x, po.x or vote_counts.x. *)
Definition unqualified_references : list (string * list string) :=
  [("option_id", votes_columns); ("poll_id", votes_columns);
   ("option_id", votes_columns); ("poll_id", votes_columns)].

(** PL/pgSQL under its default variable_conflict = error: a name that is a
    column in scope and also a variable of the function is refused as
    ambiguous when the statement is first run. *)
Definition name_conflict (variables : list string) (references : list (string * list string))
  : option sql_error :=
  match List.find (fun r => existsb (String.eqb (fst r)) (snd r)
                            && existsb (String.eqb (fst r)) variables) references with
  | Some r => Some (ambiguous_column (fst r))
  | None => None
  end.

(** The function: its query, once the names of the body resolve. The
    names of the sub-select that is the first argument of the COALESCE are
    resolved before its second argument is cast. *)
Definition get_poll_with_options (db : DB) (poll_uuid : UUID)
  : list PollWithOptions.row + sql_error :=
  match name_conflict get_poll_with_options_variables unqualified_references with
  | Some e => inr e
  | None => poll_with_options_query db poll_uuid
  end.

(** The sum of the vote_count fields of a tally. *)
Definition sum_vote_counts (os : list OptionJson.row) : Z :=
  fold_right (fun o acc => OptionJson.vote_count o + acc) 0 os.

(** ** get_user_polls *)

Module UserPoll.
Record row := {
  poll_id : UUID;
  question : string;
  description : option string;
  status : option poll_status;
  is_public : option bool;
  allow_multiple_votes : option bool;
  expires_at : option timestamptz;
  created_at : option timestamptz;
  total_votes : Z }.
End UserPoll.

(** [a] sorts no later than [b] under ORDER BY ... DESC: larger values come
    first and NULL, which sorts as larger than every value, before them. *)
Definition desc_nulls_first (a b : option timestamptz) : bool :=
  match a, b with
  | None, _ => true
  | Some _, None => false
  | Some x, Some y => y <=? x
  end.

(** ORDER BY p.created_at DESC, as an insertion sort that keeps rows of
    equal created_at in table order (PostgreSQL leaves their order open). *)
Fixpoint insert_by_created_at_desc (x : Polls.row) (l : list Polls.row) : list Polls.row :=
  match l with
  | [] => [x]
  | y :: l' =>
    if desc_nulls_first (Polls.created_at x) (Polls.created_at y)
    then x :: l
    else y :: insert_by_created_at_desc x l'
  end.

Definition order_by_created_at_desc (l : list Polls.row) : list Polls.row :=
  fold_right insert_by_created_at_desc [] l.

(** The rows of the SELECT after RETURN QUERY, with the poll_id of its
    sub-select over public.votes read as the column of [votes]. *)
Definition user_polls_query (db : DB) (user_uuid : UUID) : list UserPoll.row :=
  map (fun p =>
         {| UserPoll.poll_id := Polls.id p;
            UserPoll.question := Polls.question p;
            UserPoll.description := Polls.description p;
            UserPoll.status := Polls.status p;
            UserPoll.is_public := Polls.is_public p;
            UserPoll.allow_multiple_votes := Polls.allow_multiple_votes p;
            UserPoll.expires_at := Polls.expires_at p;
            UserPoll.created_at := Polls.created_at p;
            UserPoll.total_votes :=
              count_where (fun v => String.eqb (Votes.poll_id v) (Polls.id p)) (votes db) |})
      (order_by_created_at_desc
         (List.filter (fun p => String.eqb (Polls.creator_id p) user_uuid) (polls db))).

(** The parameter and the output columns of RETURNS TABLE. *)
Definition get_user_polls_variables : list string :=
  ["user_uuid"; "poll_id"; "question"; "description"; "status"; "is_public";
   "allow_multiple_votes"; "expires_at"; "created_at"; "total_votes"].

(** The one column reference the query writes without a table name: poll_id
    in the sub-select of total_votes. *)
Definition get_user_polls_references : list (string * list string) :=
  [("poll_id", votes_columns)].

(** The function: its query, once the names of the body resolve. *)
Definition get_user_polls (db : DB) (user_uuid : UUID) : list UserPoll.row + sql_error :=
  match name_conflict get_user_polls_variables get_user_polls_references with
  | Some e => inr e
  | None => inl (user_polls_query db user_uuid)
  end.

(** ** Sequences of calls *)

Record call := {
  call_poll : UUID;
  call_option : UUID;
  call_voter : UUID }.

Definition step (db : DB) (c : call) : DB :=
  snd (record_vote db (call_poll c) (call_option c) (call_voter c)).

Definition run_calls (db : DB) (cs : list call) : DB := fold_left step cs db.

(** The rows a voter holds on a poll, and the options they reference. *)
Definition votes_of (db : DB) (poll_uuid voter_uuid : UUID) : list Votes.row :=
  List.filter (of_voter_on_poll poll_uuid voter_uuid) (votes db).

Definition held_options (db : DB) (poll_uuid voter_uuid : UUID) : list UUID :=
  map Votes.option_id (votes_of db poll_uuid voter_uuid).

Definition vote_key (v : Votes.row) : UUID * UUID * UUID :=
  (Votes.poll_id v, Votes.voter_id v, Votes.option_id v).

(** ** A small database to run the functions on *)

Definition mk_poll (i : UUID) (st : option poll_status) (multi : option bool)
    (expires : option timestamptz) : Polls.row :=
  {| Polls.id := i; Polls.creator_id := "alice"; Polls.question := "Tabs or spaces?";
     Polls.description := None; Polls.status := st; Polls.is_public := Some true;
     Polls.allow_multiple_votes := multi; Polls.expires_at := expires;
     Polls.created_at := Some 1000 |}.

Definition mk_option (i p : UUID) (txt : string) (ord : Z) : PollOptions.row :=
  {| PollOptions.id := i; PollOptions.poll_id := p;
     PollOptions.option_text := txt; PollOptions.display_order := ord |}.

Definition mk_profile (i : UUID) : Profiles.row :=
  {| Profiles.id := i; Profiles.email := String.append i "@example.com";
     Profiles.full_name := None; Profiles.avatar_url := None |}.

Definition sample_db : DB :=
  {| profiles := [mk_profile "alice"; mk_profile "bob"];
     polls := [ mk_poll "single" (Some active) (Some false) None;
                mk_poll "multi" (Some active) (Some true) None;
                mk_poll "shut" (Some closed) (Some false) None;
                mk_poll "expired" (Some active) (Some false) (Some 500) ];
     poll_options := [ mk_option "sA" "single" "tabs" 0; mk_option "sB" "single" "spaces" 1;
                       mk_option "mA" "multi" "red" 0; mk_option "mB" "multi" "green" 1;
                       mk_option "mC" "multi" "blue" 2;
                       mk_option "cA" "shut" "yes" 0; mk_option "cB" "shut" "no" 1;
                       mk_option "eA" "expired" "yes" 0; mk_option "eB" "expired" "no" 1 ];
     votes := [];
     next_vote_id := 0%N |}.

Definition by_voter (p o v : UUID) : call :=
  {| call_poll := p; call_option := o; call_voter := v |}.

(** ** What the properties speak of *)

(** The call is by voter [v] on poll [p]. *)
Definition addressed (p v : UUID) (c : call) : bool :=
  String.eqb (call_poll c) p && String.eqb (call_voter c) v.

(** The options voter [v] asked for on poll [p], in order, leaving out the
    ids that are not options of the poll. *)
Definition requested_options (db : DB) (p v : UUID) (cs : list call) : list UUID :=
  map call_option
      (List.filter (fun c => addressed p v c
                             && existsb (option_of_poll p (call_option c)) (poll_options db))
                   cs).

(** The poll takes votes: it exists and its status does not stop them. *)
Definition open_poll (db : DB) (p : UUID) (poll_record : Polls.row) : Prop :=
  List.find (fun r => String.eqb (Polls.id r) p) (polls db) = Some poll_record
  /\ sql_is_true (sql_ne_status (Polls.status poll_record) active) = false.

Definition has_profile (db : DB) (v : UUID) : Prop :=
  existsb (fun u => String.eqb (Profiles.id u) v) (profiles db) = true.

(** Every vote names an option of its own poll: the cross-table rule that
    [record_vote] checks before it inserts. *)
Definition references_own_poll (db : DB) : Prop :=
  Forall (fun v => existsb (option_of_poll (Votes.poll_id v) (Votes.option_id v))
                           (poll_options db) = true)
         (votes db).

(** The conditions under which [record_vote] stores or keeps a vote: the
    poll takes votes, the option is one of its options, and the voter has a
    profile or, on a poll with allow_multiple_votes, holds the option
    already. *)
Definition accepted (db : DB) (p o v : UUID) : Prop :=
  exists poll_record,
    open_poll db p poll_record
    /\ existsb (option_of_poll p o) (poll_options db) = true
    /\ (has_profile db v
        \/ (sql_is_true (Polls.allow_multiple_votes poll_record) = true
            /\ existsb (same_key p o v) (votes db) = true)).

(** The three foreign keys of [votes], and the option being one of the
    vote's own poll. *)
Definition votes_reference_rows (db : DB) : Prop :=
  Forall (fun v =>
            existsb (fun p => String.eqb (Polls.id p) (Votes.poll_id v)) (polls db) = true
            /\ existsb (option_of_poll (Votes.poll_id v) (Votes.option_id v))
                       (poll_options db) = true
            /\ has_profile db (Votes.voter_id v))
         (votes db).

(** The option of the query's json as the poll_options row and the votes
    give it. *)
Definition option_json (db : DB) (p : UUID) (po : PollOptions.row) : OptionJson.row :=
  {| OptionJson.id := PollOptions.id po;
     OptionJson.option_text := PollOptions.option_text po;
     OptionJson.display_order := PollOptions.display_order po;
     OptionJson.vote_count :=
       count_where (fun v => String.eqb (Votes.poll_id v) p
                             && String.eqb (Votes.option_id v) (PollOptions.id po))
                   (votes db) |}.

(** The poll_options rows of poll [p], in table order. *)
Definition poll_option_rows (db : DB) (p : UUID) : list PollOptions.row :=
  List.filter (fun po => String.eqb (PollOptions.poll_id po) p) (poll_options db).

(** The ids of the stored votes are ids that were given out: each lies
    below the next one. *)
Definition ids_given_out (db : DB) : Prop :=
  Forall (fun r => (Votes.id r < next_vote_id db)%N) (votes db).

End SchemaSql.

Module PollActions.

(** ** The tables of the README *)

Module Polls.
Record row := {
  id : UUID;
  user_id : UUID;
  question : string;
  options : list string;
  created_at : timestamptz }.
End Polls.

(** [id] is the fresh value of gen_random_uuid(); [created_at] is read by
    no query of the actions file and is left out. *)
Module Votes.
Record row := {
  id : N;
  poll_id : UUID;
  user_id : UUID;
  option_index : Z }.
End Votes.

(** Row level security is enabled on both tables; a session reads the rows
    of polls that some SELECT policy passes for its auth.uid() (NULL when
    the session has no user). [polls_select] is that test: the SELECT
    policies on polls that are in force. The README creates none, which is
    [no_select_policy] below. On votes the policy read_votes passes every
    row, and the model reads votes freely. *)
Record DB := {
  polls : list Polls.row;
  votes : list Votes.row;
  next_vote_id : N;
  polls_select : option UUID -> Polls.row -> bool }.

(** The README as written: no SELECT policy on polls, no row passes. *)
Definition no_select_policy : option UUID -> Polls.row -> bool := fun _ _ => false.

(** A deployment with one more policy than the README lists,
    create policy ... on public.polls for select using (true),
    the counterpart of read_votes. *)
Definition select_using_true : option UUID -> Polls.row -> bool := fun _ _ => true.

(** ** JavaScript values *)

(** A Number as [submitVote] looks at it: [Number.isInteger] accepts it and
    it has this value, or it is anything else (NaN, an infinity, a fraction;
    any other value a caller passes behaves the same way). *)
Inductive number :=
| integer (z : Z)
| not_integer.

(** A run of digits too large for a double reads as Infinity (JavaScript
    may approximate the digits after the 20th, which moves this threshold by
    a hair). Smaller values are rounded to a double; rounding moves no
    value across 0 or across an array length, the only bounds [submitVote]
    compares with. *)
Definition number_of_digits (z : Z) : number :=
  if 2 ^ 1024 - 2 ^ 970 <=? Z.abs z then not_integer else integer z.

(** Strings are sequences of code units below 256. The white space that
    parseInt skips: TAB, LF, VT, FF, CR, SP, NBSP. *)
Definition is_white_space (c : ascii) : bool :=
  let n := nat_of_ascii c in
  existsb (Nat.eqb n) [9; 10; 11; 12; 13; 32; 160]%nat.

Fixpoint trim_start (s : string) : string :=
  match s with
  | String c s' => if is_white_space c then trim_start s' else s
  | EmptyString => s
  end.

Definition digit_value (c : ascii) : option Z :=
  let n := Z.of_nat (nat_of_ascii c) in
  if (48 <=? n) && (n <=? 57) then Some (n - 48) else None.

(** The value of the longest prefix of decimal digits, [None] when the
    prefix is empty. *)
Fixpoint parse_digits (s : string) (acc : option Z) : option Z :=
  match s with
  | String c s' =>
    match digit_value c with
    | Some d => parse_digits s' (Some (10 * default 0 acc + d))
    | None => acc
    end
  | EmptyString => acc
  end.

(** parseInt(s, 10) *)
Definition parseInt (s : string) : number :=
  let trimmed := trim_start s in
  let '(sign, rest) :=
    match trimmed with
    | String "-" r => (-1, r)
    | String "+" r => (1, r)
    | _ => (1, trimmed)
    end in
  match parse_digits rest None with
  | None => not_integer
  | Some m => number_of_digits (sign * m)
  end.

(** rawOptionIndex: number | string *)
Inductive raw_option_index :=
| raw_number (n : number)
| raw_string (s : string).

(** ** /duplicate key|unique/i *)

Definition to_lower (c : ascii) : ascii :=
  let n := nat_of_ascii c in
  if (65 <=? n)%nat && (n <=? 90)%nat then ascii_of_nat (n + 32) else c.

(** [pattern] (in lower case) matches at the start of [s], letters compared
    without case. *)
Fixpoint matches_here (pattern s : string) : bool :=
  match pattern, s with
  | EmptyString, _ => true
  | String p pattern', String c s' =>
    Ascii.eqb p (to_lower c) && matches_here pattern' s'
  | String _ _, EmptyString => false
  end.

Fixpoint matches_somewhere (pattern s : string) : bool :=
  matches_here pattern s
  || match s with
     | String _ s' => matches_somewhere pattern s'
     | EmptyString => false
     end.

Definition duplicate_key_or_unique (msg : string) : bool :=
  matches_somewhere "duplicate key" msg || matches_somewhere "unique" msg.

(** ** The Supabase client, as the calls [submitVote] awaits *)

Record ErrorObject := { message : string }.

Module AuthUser.
Record t := { id : UUID }.
End AuthUser.

(** { data: { user }, error } of supabase.auth.getUser() *)
Record UserResponse := {
  user : option AuthUser.t;
  auth_error : option ErrorObject }.

(** { data, error } of a query: an error, or else the data (which
    maybeSingle() leaves null when no row matches). *)
Inductive Response (T : Type) :=
| data (d : T)
| failure (e : ErrorObject).
Arguments data {T} d.
Arguments failure {T} e.

(** The value of the options column as JavaScript receives it. *)
Inductive options_value :=
| array (items : list string)
| not_array.

(** .select("id, options") *)
Record PollSelection := {
  poll_id : UUID;
  poll_options : options_value }.

(** { error: string | null } *)
Record ActionResult := { error : option string }.

(** A server action: it returns, or awaits one call and goes on with the
    answer. *)
Inductive Action (A : Type) :=
| Return (a : A)
| auth_getUser (k : UserResponse -> Action A)
| polls_select_single (pollId : UUID) (k : Response PollSelection -> Action A)
| votes_select_maybeSingle (pollId userId : UUID) (k : Response (option N) -> Action A)
| votes_insert (pollId userId : UUID) (optionIndex : Z) (k : option ErrorObject -> Action A)
| revalidatePath (path : string) (k : Action A).
Arguments Return {A} a.
Arguments auth_getUser {A} k.
Arguments polls_select_single {A} pollId k.
Arguments votes_select_maybeSingle {A} pollId userId k.
Arguments votes_insert {A} pollId userId optionIndex k.
Arguments revalidatePath {A} path k.

Definition fail (msg : string) : Action ActionResult :=
  Return {| error := Some msg |}.

(** error.message || "Failed to submit vote" *)
Definition message_or (e : ErrorObject) (fallback : string) : string :=
  match message e with
  | EmptyString => fallback
  | m => m
  end.

(** typeof rawOptionIndex === "string" ? parseInt(rawOptionIndex, 10) : rawOptionIndex *)
Definition coerce_option_index (rawOptionIndex : raw_option_index) : number :=
  match rawOptionIndex with
  | raw_string s => parseInt s
  | raw_number n => n
  end.

Definition submitVote (pollId : UUID) (rawOptionIndex : raw_option_index)
  : Action ActionResult :=
  auth_getUser (fun r =>
  match auth_error r with
  | Some userErr => fail (message userErr)
  | None =>
  match user r with
  | None => fail "You must be logged in to vote."
  | Some user =>
  match coerce_option_index rawOptionIndex with
  | not_integer => (* !Number.isInteger(optionIndex) *) fail "Invalid option."
  | integer optionIndex =>
  polls_select_single pollId (fun r =>
  match r with
  | failure pollErr => fail (message pollErr)
  | data poll =>
  match poll_options poll with
  | not_array => fail "Invalid option."
  | array options =>
  if (optionIndex <? 0) || (optionIndex >=? Z.of_nat (length options))
  then fail "Invalid option."
  else
  votes_select_maybeSingle pollId (AuthUser.id user) (fun r =>
  match r with
  | failure checkErr => fail (message checkErr)
  | data (Some existing) => fail "You have already voted in this poll."
  | data None =>
  votes_insert pollId (AuthUser.id user) optionIndex (fun error =>
  match error with
  | Some error =>
    let msg := message_or error "Failed to submit vote" in
    if duplicate_key_or_unique msg
    then fail "You have already voted in this poll."
    else fail msg
  | None =>
    revalidatePath (String.append "/polls/" pollId) (Return {| error := None |})
  end)
  end)
  end
  end)
  end
  end
  end).

(** ** The database behind the client *)

(** What PostgreSQL or PostgREST reports; the text it comes with is theirs
    and reaches the action through a function [pg_error -> string]. *)
Inductive pg_error :=
| no_rows
| multiple_rows
| numeric_value_out_of_range
| row_level_security (policy : string)
| check_violation (constraint : string)
| unique_violation (index : string).

Definition of_user_on_poll (pollId userId : UUID) (v : Votes.row) : bool :=
  String.eqb (Votes.poll_id v) pollId && String.eqb (Votes.user_id v) userId.

Definition votes_of (db : DB) (pollId userId : UUID) : list Votes.row :=
  List.filter (of_user_on_poll pollId userId) (votes db).

Definition poll_rows (db : DB) (pollId : UUID) : list Polls.row :=
  List.filter (fun p => String.eqb (Polls.id p) pollId) (polls db).

(** The rows of polls that a statement of the session with auth.uid() =
    [uid] sees, in a query as in the sub-select of a policy. *)
Definition readable_polls (db : DB) (uid : option UUID) : list Polls.row :=
  List.filter (polls_select db uid) (polls db).

(** insert into votes (poll_id, user_id, option_index), by the session of
    [userId]: the int column, the policy insert_own_vote (its sub-select
    must find the poll among the rows the session reads), the CHECK on
    option_index, the unique index votes_unique_user_per_poll. *)
Definition insert_vote (db : DB) (pollId userId : UUID) (optionIndex : Z)
  : DB + pg_error :=
  if (optionIndex <? - 2 ^ 31) || (2 ^ 31 <=? optionIndex)
  then inr numeric_value_out_of_range
  else if negb (existsb (fun p => String.eqb (Polls.id p) pollId)
                        (readable_polls db (Some userId)))
  then inr (row_level_security "insert_own_vote")
  else if optionIndex <? 0
  then inr (check_violation "votes_option_index_nonneg")
  else if existsb (of_user_on_poll pollId userId) (votes db)
  then inr (unique_violation "votes_unique_user_per_poll")
  else inl {| polls := polls db;
              votes := votes db ++ [{| Votes.id := next_vote_id db;
                                       Votes.poll_id := pollId;
                                       Votes.user_id := userId;
                                       Votes.option_index := optionIndex |}];
              next_vote_id := N.succ (next_vote_id db);
              polls_select := polls_select db |}.

Section Client.

Variable text : pg_error -> string.

Definition pg_failure {T : Type} (e : pg_error) : Response T :=
  failure {| message := text e |}.

(** .from("polls").select("id, options").eq("id", pollId).single(), by
    the session with auth.uid() = [uid]: exactly one row among those the
    session reads, or an error. *)
Definition select_poll (db : DB) (uid : option UUID) (pollId : UUID)
  : Response PollSelection :=
  match List.filter (fun p => String.eqb (Polls.id p) pollId) (readable_polls db uid) with
  | [p] => data {| poll_id := Polls.id p; poll_options := array (Polls.options p) |}
  | [] => pg_failure no_rows
  | _ :: _ :: _ => pg_failure multiple_rows
  end.

(** .from("votes").select("id").eq("poll_id", pollId).eq("user_id", userId)
    .maybeSingle(): no row gives null, one row its id, more an error. *)
Definition select_vote (db : DB) (pollId userId : UUID) : Response (option N) :=
  match votes_of db pollId userId with
  | [] => data None
  | [v] => data (Some (Votes.id v))
  | _ :: _ :: _ => pg_failure multiple_rows
  end.

(** ** Other requests *)

(** What another request may commit while this one awaits the database:
    the insert of another [submitVote], and the statements of createPoll,
    deletePoll and updatePoll, each by the session of the user it names
    and under the same policies: an UPDATE or DELETE with a WHERE clause
    touches only rows its session reads, and update_own_poll and
    delete_own_poll pass the rows of that user. *)
Inductive statement :=
| other_insert_vote (pollId userId : UUID) (optionIndex : Z)
| other_insert_poll (p : Polls.row)
| other_delete_poll (id userId : UUID)
| other_update_poll (pollId userId : UUID) (question : string) (options : list string).

(** The rows of .eq("id", id).eq("user_id", userId) that the session of
    [userId] reads. *)
Definition own_poll (db : DB) (id userId : UUID) (p : Polls.row) : bool :=
  polls_select db (Some userId) p
  && String.eqb (Polls.id p) id && String.eqb (Polls.user_id p) userId.

Definition exec_statement (db : DB) (s : statement) : DB :=
  match s with
  | other_insert_vote pollId userId optionIndex =>
    match insert_vote db pollId userId optionIndex with
    | inl db' => db'
    | inr _ => db
    end
  | other_insert_poll p =>
    if existsb (fun q => String.eqb (Polls.id q) (Polls.id p)) (polls db)
    then db
    else {| polls := polls db ++ [p]; votes := votes db; next_vote_id := next_vote_id db;
            polls_select := polls_select db |}
  | other_delete_poll id userId =>
    let deleted p := own_poll db id userId p in
    if existsb deleted (polls db)
    then {| polls := List.filter (fun p => negb (deleted p)) (polls db);
            votes := List.filter (fun v => negb (String.eqb (Votes.poll_id v) id)) (votes db);
            next_vote_id := next_vote_id db;
            polls_select := polls_select db |}
    else db
  | other_update_poll pollId userId question options =>
    {| polls := map (fun p =>
                       if own_poll db pollId userId p
                       then {| Polls.id := Polls.id p; Polls.user_id := Polls.user_id p;
                               Polls.question := question; Polls.options := options;
                               Polls.created_at := Polls.created_at p |}
                       else p) (polls db);
       votes := votes db;
       next_vote_id := next_vote_id db;
       polls_select := polls_select db |}
  end.

Definition exec_statements (db : DB) (ss : list statement) : DB :=
  fold_left exec_statement ss db.

(** One round trip to the database: what other requests commit just before
    it is served, and whether it fails on the way (time-out, connection
    loss) with some error of its own. *)
Record tick := {
  others : list statement;
  fault : option ErrorObject }.

Definition quiet : tick := {| others := []; fault := None |}.

Definition next_tick (schedule : list tick) : tick * list tick :=
  match schedule with
  | [] => (quiet, [])
  | t :: rest => (t, rest)
  end.

(** The database and the paths handed to revalidatePath so far. *)
Record World := {
  db : DB;
  revalidated : list string }.

Definition with_db (w : World) (d : DB) : World :=
  {| db := d; revalidated := revalidated w |}.

(** auth.uid() in the statements of the session: the id of its user, NULL
    without one. *)
Definition uid (auth : UserResponse) : option UUID := option_map AuthUser.id (user auth).

(** Running an action for the session [auth] against the world, round trip
    by round trip along the schedule. *)
Fixpoint run {A : Type} (auth : UserResponse) (schedule : list tick) (w : World)
    (a : Action A) : A * World :=
  match a with
  | Return r => (r, w)
  | auth_getUser k => run auth schedule w (k auth)
  | polls_select_single pollId k =>
    let '(t, rest) := next_tick schedule in
    let d := exec_statements (db w) (others t) in
    run auth rest (with_db w d)
        (k (match fault t with
            | Some e => failure e
            | None => select_poll d (uid auth) pollId
            end))
  | votes_select_maybeSingle pollId userId k =>
    let '(t, rest) := next_tick schedule in
    let d := exec_statements (db w) (others t) in
    run auth rest (with_db w d)
        (k (match fault t with
            | Some e => failure e
            | None => select_vote d pollId userId
            end))
  | votes_insert pollId userId optionIndex k =>
    let '(t, rest) := next_tick schedule in
    let d := exec_statements (db w) (others t) in
    match fault t with
    | Some e => run auth rest (with_db w d) (k (Some e))
    | None =>
      match insert_vote d pollId userId optionIndex with
      | inl d' => run auth rest (with_db w d') (k None)
      | inr e => run auth rest (with_db w d) (k (Some {| message := text e |}))
      end
    end
  | revalidatePath path k =>
    run auth schedule {| db := db w; revalidated := revalidated w ++ [path] |} k
  end.

(** A request: who sends it, what it asks, and the schedule it meets. *)
Record request := {
  req_auth : UserResponse;
  req_poll : UUID;
  req_option : raw_option_index;
  req_schedule : list tick }.

Definition serve (w : World) (r : request) : ActionResult * World :=
  run (req_auth r) (req_schedule r) w (submitVote (req_poll r) (req_option r)).

(** Requests served one after the other. *)
Definition serve_all (w : World) (rs : list request) : World :=
  fold_left (fun w r => snd (serve w r)) rs w.

End Client.

(** ** Constraints of the README's tables *)

Definition vote_key (v : Votes.row) : UUID * UUID := (Votes.poll_id v, Votes.user_id v).

(** The primary key of polls, the unique index votes_unique_user_per_poll,
    the foreign key votes.poll_id and the CHECK on option_index. *)
Record consistent (d : DB) : Prop := {
  polls_pkey : List.NoDup (map Polls.id (polls d));
  votes_unique_user_per_poll : List.NoDup (map vote_key (votes d));
  votes_poll_id_fkey :
    Forall (fun v => existsb (fun p => String.eqb (Polls.id p) (Votes.poll_id v)) (polls d) = true)
           (votes d);
  votes_option_index_nonneg : Forall (fun v => 0 <= Votes.option_index v) (votes d) }.

(** ** Sample data *)

Definition quote : string := String (ascii_of_nat 34) EmptyString.

(** The wording of PostgreSQL and PostgREST for the errors above. *)
Definition pg_text (e : pg_error) : string :=
  match e with
  | no_rows => "JSON object requested, multiple (or no) rows returned"
  | multiple_rows => "JSON object requested, multiple (or no) rows returned"
  | numeric_value_out_of_range => "integer out of range"
  | row_level_security policy =>
    String.append "new row violates row-level security policy for table "
                  (String.append quote (String.append "votes" quote))
  | check_violation c =>
    String.append "new row for relation " (String.append quote (String.append "votes"
      (String.append quote (String.append " violates check constraint "
        (String.append quote (String.append c quote))))))
  | unique_violation i =>
    String.append "duplicate key value violates unique constraint "
                  (String.append quote (String.append i quote))
  end.

Definition session (u : UUID) : UserResponse :=
  {| user := Some {| AuthUser.id := u |}; auth_error := None |}.

Definition no_session : UserResponse := {| user := None; auth_error := None |}.

Definition sample_poll : Polls.row :=
  {| Polls.id := "p1"; Polls.user_id := "alice"; Polls.question := "Tabs or spaces?";
     Polls.options := ["tabs"; "spaces"]; Polls.created_at := 1000 |}.

(** The sample worlds are of a deployment in which every session reads
    every poll. *)
Definition sample_world : World :=
  {| db := {| polls := [sample_poll]; votes := []; next_vote_id := 0%N;
              polls_select := select_using_true |};
     revalidated := [] |}.

Definition ask (u : UUID) (pollId : UUID) (i : Z) : request :=
  {| req_auth := session u; req_poll := pollId;
     req_option := raw_number (integer i); req_schedule := [] |}.

(** A parallel request of the same user commits its own vote between this
    request's duplicate check and its insert. *)
Definition raced_request : request :=
  {| req_auth := session "bob"; req_poll := "p1"; req_option := raw_number (integer 1);
     req_schedule := [quiet; quiet;
                      {| others := [other_insert_vote "p1" "bob" 0]; fault := None |}] |}.

(** The sample poll under the policies of the README alone. *)
Definition readme_world : World :=
  {| db := {| polls := [sample_poll]; votes := []; next_vote_id := 0%N;
              polls_select := no_select_policy |};
     revalidated := [] |}.

(** The world after bob's first vote, and the row it stored. *)
Definition bob_voted : World := snd (serve pg_text sample_world (ask "bob" "p1" 0)).

(** The rows of a world under the policies of the README alone. *)
Definition unread (w : World) : World :=
  {| db := {| polls := polls (db w); votes := votes (db w);
              next_vote_id := next_vote_id (db w); polls_select := no_select_policy |};
     revalidated := revalidated w |}.

Definition bobs_vote : Votes.row :=
  {| Votes.id := 0%N; Votes.poll_id := "p1"; Votes.user_id := "bob"; Votes.option_index := 0 |}.

(** ** What the properties speak of *)

Definition already_voted : ActionResult :=
  {| error := Some "You have already voted in this poll." |}.

Definition invalid_option : ActionResult := {| error := Some "Invalid option." |}.

(** The index is an integer within the bounds of the poll's options. *)
Definition valid_index (raw : raw_option_index) (p : Polls.row) (i : Z) : Prop :=
  coerce_option_index raw = integer i /\ 0 <= i < Z.of_nat (length (Polls.options p)).

(** The triple the spec speaks of: poll, voter, option. *)
Definition vote_triple (v : Votes.row) : UUID * UUID * Z :=
  (Votes.poll_id v, Votes.user_id v, Votes.option_index v).

(** The session of user [u] reads the poll. *)
Definition readable (d : DB) (u : UUID) (p : Polls.row) : Prop :=
  polls_select d (Some u) p = true.

(** The session with auth.uid() = [uid] reads no stored poll. *)
Definition hidden (d : DB) (uid : option UUID) : Prop :=
  forall p, In p (polls d) -> polls_select d uid p = false.

(** No SELECT policy passes any row of polls, for any session: the state
    of a database that has the policies of the README and no other. *)
Definition nothing_readable (d : DB) : Prop :=
  forall uid p, polls_select d uid p = false.

(** What the other requests commit during the first [k] round trips. *)
Definition committed (schedule : list tick) (k : nat) : list statement :=
  concat (map others (firstn k schedule)).

(** No other request commits anything during the schedule; round trips may
    still fail. *)
Definition undisturbed (schedule : list tick) : Prop :=
  Forall (fun t => others t = []) schedule.

(** Nothing happens to the first [k] round trips: no other request commits
    before them and none of them fails. *)
Definition quiet_start (k : nat) (schedule : list tick) : Prop :=
  Forall (fun t => t = quiet) (firstn k schedule).

End PollActions.

(** * The other poll actions *)

Module PollManagement.
Import PollActions.

(** ** FormData *)

(** The entries of a form, in order. The forms of the app post text fields
    only; an entry is a name and a string. *)
Definition FormData := list (string * string).

(** formData.get(name): the first value under the name, or null. *)
Definition formData_get (formData : FormData) (name : string) : option string :=
  option_map snd (List.find (fun e => String.eqb (fst e) name) formData).

(** formData.getAll(name): every value under the name, in order. *)
Definition formData_getAll (formData : FormData) (name : string) : list string :=
  map snd (List.filter (fun e => String.eqb (fst e) name) formData).

(** .filter(Boolean) on strings: the empty string is the one falsy string. *)
Definition filter_Boolean (values : list string) : list string :=
  List.filter (fun s => negb (String.eqb s "")) values.

(** ** Results *)

(** { polls, error } of getUserPolls *)
Module UserPolls.
Record t := {
  polls : list Polls.row;
  error : option string }.
End UserPolls.

(** { poll, error } of getPollById *)
Module PollById.
Record t := {
  poll : option Polls.row;
  error : option string }.
End PollById.

(** ** The actions *)

(** A poll action: it returns, or awaits one call of the Supabase client
    (or of next/cache) and goes on with the answer. *)
Inductive Crud (A : Type) :=
| Done (a : A)
| getUser (k : UserResponse -> Crud A)
| polls_insert (user_id : UUID) (question : string) (options : list string)
               (k : option ErrorObject -> Crud A)
| polls_select_by_user (user_id : UUID) (k : Response (list Polls.row) -> Crud A)
| polls_select_by_id (id : UUID) (k : Response Polls.row -> Crud A)
| polls_delete (id user_id : UUID) (k : option ErrorObject -> Crud A)
| polls_update (pollId user_id : UUID) (question : string) (options : list string)
               (k : option ErrorObject -> Crud A)
| revalidate (path : string) (k : Crud A).
Arguments Done {A} a.
Arguments getUser {A} k.
Arguments polls_insert {A} user_id question options k.
Arguments polls_select_by_user {A} user_id k.
Arguments polls_select_by_id {A} id k.
Arguments polls_delete {A} id user_id k.
Arguments polls_update {A} pollId user_id question options k.
Arguments revalidate {A} path k.

Definition refuse (msg : string) : Crud ActionResult :=
  Done {| PollActions.error := Some msg |}.

Definition succeed : Crud ActionResult := Done {| PollActions.error := None |}.

(** The part createPoll, deletePoll and updatePoll share: the user of the
    session, or the error to answer with. *)
Definition with_user (logged_out : string) (k : AuthUser.t -> Crud ActionResult)
  : Crud ActionResult :=
  getUser (fun r =>
  match auth_error r with
  | Some userError => refuse (message userError)
  | None =>
    match user r with
    | None => refuse logged_out
    | Some user => k user
    end
  end).

(** if (!question || options.length < 2) return { error: ... }: the question
    and options that pass, or nothing. *)
Definition validated (formData : FormData) : option (string * list string) :=
  let question := formData_get formData "question" in
  let options := filter_Boolean (formData_getAll formData "options") in
  match question with
  | Some (String _ _ as question) =>
    if (length options <? 2)%nat then None else Some (question, options)
  | Some EmptyString | None => None
  end.

Definition createPoll (formData : FormData) : Crud ActionResult :=
  match validated formData with
  | None => refuse "Please provide a question and at least two options."
  | Some (question, options) =>
    with_user "You must be logged in to create a poll." (fun user =>
    polls_insert (AuthUser.id user) question options (fun error =>
    match error with
    | Some error => refuse (message error)
    | None => revalidate "/polls" succeed
    end))
  end.

Definition getUserPolls : Crud UserPolls.t :=
  getUser (fun r =>
  match user r with
  | None => Done {| UserPolls.polls := []; UserPolls.error := Some "Not authenticated" |}
  | Some user =>
    polls_select_by_user (AuthUser.id user) (fun r =>
    match r with
    | failure error => Done {| UserPolls.polls := []; UserPolls.error := Some (message error) |}
    | data rows => Done {| UserPolls.polls := rows; UserPolls.error := None |}
    end)
  end).

Definition getPollById (id : UUID) : Crud PollById.t :=
  polls_select_by_id id (fun r =>
  match r with
  | failure error => Done {| PollById.poll := None; PollById.error := Some (message error) |}
  | data row => Done {| PollById.poll := Some row; PollById.error := None |}
  end).

Definition deletePoll (id : UUID) : Crud ActionResult :=
  with_user "You must be logged in to delete a poll." (fun user =>
  polls_delete id (AuthUser.id user) (fun error =>
  match error with
  | Some error => refuse (message error)
  | None => revalidate "/polls" succeed
  end)).

Definition updatePoll (pollId : UUID) (formData : FormData) : Crud ActionResult :=
  match validated formData with
  | None => refuse "Please provide a question and at least two options."
  | Some (question, options) =>
    with_user "You must be logged in to update a poll." (fun user =>
    polls_update pollId (AuthUser.id user) question options (fun error =>
    match error with
    | Some error => refuse (message error)
    | None => succeed
    end))
  end.

(** ** The database behind the client *)

(** As for [submitVote], a session reads the polls that [polls_select]
    passes. The policies update_own_poll and delete_own_poll pass on the
    rows that the filter .eq("user_id", user.id) of the two actions
    selects, so that the statements [other_update_poll] and
    [other_delete_poll] of [PollActions] are the statements of updatePoll
    and deletePoll. The insert asks for no row back and needs no SELECT
    policy. *)

(** insert into polls: the primary key. The policy insert_own_poll holds,
    the row carrying the id of the session's user. *)
Definition insert_poll (d : DB) (p : Polls.row) : DB + pg_error :=
  if existsb (fun q => String.eqb (Polls.id q) (Polls.id p)) (polls d)
  then inr (unique_violation "polls_pkey")
  else inl {| polls := polls d ++ [p]; votes := votes d; next_vote_id := next_vote_id d;
              polls_select := polls_select d |}.

(** .order("created_at", { ascending: false }), as an insertion sort that
    keeps rows of equal created_at in table order (PostgreSQL leaves their
    order open). *)
Fixpoint insert_newest_first (x : Polls.row) (l : list Polls.row) : list Polls.row :=
  match l with
  | [] => [x]
  | y :: l' =>
    if Polls.created_at y <=? Polls.created_at x
    then x :: l
    else y :: insert_newest_first x l'
  end.

Definition newest_first (l : list Polls.row) : list Polls.row :=
  fold_right insert_newest_first [] l.

Definition polls_of_user (d : DB) (uid : option UUID) (user_id : UUID) : list Polls.row :=
  List.filter (fun p => String.eqb (Polls.user_id p) user_id) (readable_polls d uid).

(** What the database fills in for an inserted poll: the value of
    gen_random_uuid() and of now(). *)
Record defaults := {
  gen_random_uuid : UUID;
  now : timestamptz }.

(** One round trip of a poll action: the tick of [PollActions] and, for a
    round trip that fails, whether the fault struck before the statement
    ran or after it committed, the reply being lost on the way back. *)
Record trip := {
  tick_of : tick;
  reply_lost : bool }.

Definition calm : trip := {| tick_of := quiet; reply_lost := false |}.

Definition next_trip (schedule : list trip) : trip * list trip :=
  match schedule with
  | [] => (calm, [])
  | t :: rest => (t, rest)
  end.

Definition ticks (schedule : list trip) : list tick := map tick_of schedule.

(** The database after a round trip that failed. *)
Definition after_fault (t : trip) (undone done : DB) : DB :=
  if reply_lost t then done else undone.

Section Client.

Variable text : pg_error -> string.

(** .select("*").eq("id", id).single() *)
Definition select_poll_row (d : DB) (uid : option UUID) (id : UUID) : Response Polls.row :=
  match List.filter (fun p => String.eqb (Polls.id p) id) (readable_polls d uid) with
  | [p] => data p
  | [] => failure {| message := text no_rows |}
  | _ :: _ :: _ => failure {| message := text multiple_rows |}
  end.

(** Running a poll action for the session [auth], round trip by round trip
    along the schedule, as [PollActions.run] does for [submitVote]. *)
Fixpoint run_crud {A : Type} (new : defaults) (auth : UserResponse) (schedule : list trip)
    (w : World) (a : Crud A) : A * World :=
  match a with
  | Done r => (r, w)
  | getUser k => run_crud new auth schedule w (k auth)
  | polls_insert user_id question options k =>
    let '(t, rest) := next_trip schedule in
    let d := exec_statements (db w) (others (tick_of t)) in
    let stored :=
      insert_poll d {| Polls.id := gen_random_uuid new; Polls.user_id := user_id;
                       Polls.question := question; Polls.options := options;
                       Polls.created_at := now new |} in
    match fault (tick_of t) with
    | Some e =>
      run_crud new auth rest
               (with_db w (after_fault t d (match stored with inl d' => d' | inr _ => d end)))
               (k (Some e))
    | None =>
      match stored with
      | inl d' => run_crud new auth rest (with_db w d') (k None)
      | inr e => run_crud new auth rest (with_db w d) (k (Some {| message := text e |}))
      end
    end
  | polls_select_by_user user_id k =>
    let '(t, rest) := next_trip schedule in
    let d := exec_statements (db w) (others (tick_of t)) in
    run_crud new auth rest (with_db w d)
             (k (match fault (tick_of t) with
                 | Some e => failure e
                 | None => data (newest_first (polls_of_user d (uid auth) user_id))
                 end))
  | polls_select_by_id id k =>
    let '(t, rest) := next_trip schedule in
    let d := exec_statements (db w) (others (tick_of t)) in
    run_crud new auth rest (with_db w d)
             (k (match fault (tick_of t) with
                 | Some e => failure e
                 | None => select_poll_row d (uid auth) id
                 end))
  | polls_delete id user_id k =>
    let '(t, rest) := next_trip schedule in
    let d := exec_statements (db w) (others (tick_of t)) in
    let d' := exec_statement d (other_delete_poll id user_id) in
    match fault (tick_of t) with
    | Some e => run_crud new auth rest (with_db w (after_fault t d d')) (k (Some e))
    | None => run_crud new auth rest (with_db w d') (k None)
    end
  | polls_update pollId user_id question options k =>
    let '(t, rest) := next_trip schedule in
    let d := exec_statements (db w) (others (tick_of t)) in
    let d' := exec_statement d (other_update_poll pollId user_id question options) in
    match fault (tick_of t) with
    | Some e => run_crud new auth rest (with_db w (after_fault t d d')) (k (Some e))
    | None => run_crud new auth rest (with_db w d') (k None)
    end
  | revalidate path k =>
    run_crud new auth schedule {| db := db w; revalidated := revalidated w ++ [path] |} k
  end.

End Client.

(** ** What the properties speak of *)

(** What createPoll and updatePoll let through: a question that is not
    empty and at least two options, none of them empty. *)
Definition well_formed (p : Polls.row) : Prop :=
  Polls.question p <> ""
  /\ (2 <= length (Polls.options p))%nat
  /\ Forall (fun o => o <> "") (Polls.options p).

Definition incomplete_form : ActionResult :=
  {| PollActions.error := Some "Please provide a question and at least two options." |}.

(** The row createPoll sends for a form, with what the database fills in. *)
Definition new_poll (new : defaults) (u : UUID) (question : string) (formData : FormData)
  : Polls.row :=
  {| Polls.id := gen_random_uuid new; Polls.user_id := u; Polls.question := question;
     Polls.options := filter_Boolean (formData_getAll formData "options");
     Polls.created_at := now new |}.

Definition with_poll (w : World) (p : Polls.row) : World :=
  {| db := {| polls := polls (db w) ++ [p]; votes := votes (db w);
              next_vote_id := next_vote_id (db w); polls_select := polls_select (db w) |};
     revalidated := revalidated w ++ ["/polls"] |}.

(** The database without a poll and, by the cascade of votes.poll_id, without
    its votes. *)
Definition without_poll (d : DB) (id : UUID) : DB :=
  {| polls := List.filter (fun p => negb (String.eqb (Polls.id p) id)) (polls d);
     votes := List.filter (fun v => negb (String.eqb (Votes.poll_id v) id)) (votes d);
     next_vote_id := next_vote_id d;
     polls_select := polls_select d |}.

(** A poll with the question and options of an update. *)
Definition revised (p : Polls.row) (question : string) (options : list string) : Polls.row :=
  {| Polls.id := Polls.id p; Polls.user_id := Polls.user_id p;
     Polls.question := question; Polls.options := options;
     Polls.created_at := Polls.created_at p |}.

(** The database with one poll revised. *)
Definition with_revised (d : DB) (p : Polls.row) (question : string) (options : list string)
  : DB :=
  {| polls := map (fun q => if String.eqb (Polls.id q) (Polls.id p)
                            then revised q question options else q) (polls d);
     votes := votes d;
     next_vote_id := next_vote_id d;
     polls_select := polls_select d |}.

(** No poll with the id belongs to the user. *)
Definition not_owner (d : DB) (id u : UUID) : Prop :=
  forall p, In p (polls d) -> Polls.id p = id -> Polls.user_id p <> u.

(** The order of getUserPolls: created later, listed earlier. *)
Definition newer (x y : Polls.row) : bool := Polls.created_at y <=? Polls.created_at x.

(** A statement that stores of a poll only what createPoll and updatePoll
    let through. *)
Definition tidy_statement (s : statement) : Prop :=
  match s with
  | other_insert_poll p => well_formed p
  | other_update_poll _ _ question options =>
    question <> "" /\ (2 <= length options)%nat /\ Forall (fun o => o <> "") options
  | other_insert_vote _ _ _ | other_delete_poll _ _ => True
  end.

(** The other requests of a schedule commit tidy statements only. *)
Definition tidy (schedule : list trip) : Prop :=
  Forall (fun t => Forall tidy_statement (others (tick_of t))) schedule.

(** No reply of the schedule is lost: a round trip that fails has not run
    its statement. *)
Definition replies_arrive (schedule : list trip) : Prop :=
  Forall (fun t => reply_lost t = false) schedule.

(** ** Sample data *)

Definition sample_form : FormData :=
  [("question", "Lunch?"); ("options", "soup"); ("options", "");
   ("options", "salad"); ("question", "ignored")].

Definition sample_defaults : defaults :=
  {| gen_random_uuid := "p2"; now := 2000 |}.

End PollManagement.

(** * Lists as tables *)

Module ListFacts.

Lemma filter_none {A : Type} (f : A -> bool) (l : list A) :
  existsb f l = false -> List.filter f l = [].
Proof.
  induction l as [|x l IH]; simpl; [reflexivity|].
  destruct (f x); simpl; [discriminate|exact IH].
Qed.

Lemma filter_negb_filter {A : Type} (f : A -> bool) (l : list A) :
  List.filter f (List.filter (fun x => negb (f x)) l) = [].
Proof.
  induction l as [|x l IH]; simpl; [reflexivity|].
  destruct (f x) eqn:E; simpl; [exact IH|]. rewrite E. exact IH.
Qed.

Lemma filter_filter_other {A : Type} (f g : A -> bool) (l : list A) :
  (forall x, f x = true -> g x = false) ->
  List.filter f (List.filter (fun x => negb (g x)) l) = List.filter f l.
Proof.
  intros H. induction l as [|x l IH]; simpl; [reflexivity|].
  destruct (g x) eqn:G; simpl.
  - destruct (f x) eqn:F; [|exact IH]. rewrite (H x F) in G. discriminate.
  - destruct (f x); [f_equal|]; exact IH.
Qed.

Lemma existsb_false_forall {A : Type} (f : A -> bool) (l : list A) :
  existsb f l = false -> forall x, In x l -> f x = false.
Proof.
  induction l as [|y l IH]; simpl; intros H x Hx; [contradiction|].
  apply orb_false_iff in H. destruct H as [Hy Hl].
  destruct Hx as [->|Hx]; [exact Hy|exact (IH Hl x Hx)].
Qed.

Lemma NoDup_snoc {A : Type} (l : list A) (x : A) :
  List.NoDup l -> ~ In x l -> List.NoDup (l ++ [x]).
Proof.
  induction l as [|y l IH]; simpl; intros Hl Hx.
  - constructor; [intros []|constructor].
  - inversion Hl as [|? ? Hy Hl']; subst. constructor.
    + rewrite in_app_iff. simpl. intros [H|[H|[]]]; [now apply Hy|]. subst. apply Hx. now left.
    + apply IH; [exact Hl'|]. intros H. apply Hx. now right.
Qed.

Lemma NoDup_map_filter {A B : Type} (f : A -> B) (g : A -> bool) (l : list A) :
  List.NoDup (map f l) -> List.NoDup (map f (List.filter g l)).
Proof.
  induction l as [|x l IH]; simpl; intros H; [constructor|].
  inversion H as [|? ? Hx Hl]; subst.
  destruct (g x); simpl; [|now apply IH].
  constructor; [|now apply IH].
  intros Hin. apply Hx. apply in_map_iff in Hin. destruct Hin as (y & Hy & Hin).
  apply in_map_iff. exists y. split; [exact Hy|]. apply filter_In in Hin. tauto.
Qed.

Lemma find_existsb {A : Type} (f : A -> bool) (l : list A) (x : A) :
  List.find f l = Some x -> existsb f l = true.
Proof.
  induction l as [|y l IH]; simpl; [discriminate|].
  destruct (f y); [reflexivity|exact IH].
Qed.

(** A key that identifies its row selects at most that row. *)
Lemma filter_singleton {A B : Type} (key : A -> B) (g : A -> bool) (l : list A) (x : A) :
  List.NoDup (map key l) -> In x l -> g x = true ->
  (forall y, g y = true -> key y = key x) ->
  List.filter g l = [x].
Proof.
  intros Hnd Hin Hx Hkey. induction l as [|y l IH]; [contradiction|].
  inversion Hnd as [|? ? Hy Hl]; subst. simpl.
  destruct Hin as [->|Hin].
  - rewrite Hx. f_equal. apply filter_none. apply not_true_iff_false. intros H.
    apply existsb_exists in H. destruct H as (z & Hz & Hgz).
    apply Hy. rewrite <- (Hkey z Hgz). now apply in_map.
  - destruct (g y) eqn:Hgy; [|now apply IH].
    exfalso. apply Hy. rewrite (Hkey y Hgy). now apply in_map.
Qed.

Lemma filter_filter_and {A : Type} (f g : A -> bool) (l : list A) :
  List.filter f (List.filter g l) = List.filter (fun x => g x && f x) l.
Proof.
  induction l as [|x l IH]; simpl; [reflexivity|].
  destruct (g x); simpl; [destruct (f x); now rewrite IH|exact IH].
Qed.

(** Sums over the rows of a table. *)
Definition sum_of {A : Type} (f : A -> Z) (l : list A) : Z :=
  fold_right (fun x acc => f x + acc) 0 l.

Lemma sum_of_plus {A : Type} (f g : A -> Z) (l : list A) :
  sum_of (fun x => f x + g x) l = sum_of f l + sum_of g l.
Proof. induction l as [|x l IH]; simpl; [reflexivity|]. rewrite IH. lia. Qed.

Lemma sum_of_ext {A : Type} (f g : A -> Z) (l : list A) :
  (forall x, In x l -> f x = g x) -> sum_of f l = sum_of g l.
Proof.
  induction l as [|x l IH]; simpl; intros H; [reflexivity|].
  rewrite (H x (or_introl eq_refl)), IH; [reflexivity|]. intros y Hy. apply H. now right.
Qed.

Lemma sum_of_zero {A : Type} (f : A -> Z) (l : list A) :
  (forall x, In x l -> f x = 0) -> sum_of f l = 0.
Proof.
  induction l as [|x l IH]; simpl; intros H; [reflexivity|].
  rewrite (H x (or_introl eq_refl)), IH; [reflexivity|]. intros y Hy. apply H. now right.
Qed.

(** Among rows with distinct keys exactly one carries a key that occurs. *)
Lemma sum_of_indicator {A : Type} (key : A -> string) (k : string) (l : list A) :
  List.NoDup (map key l) -> In k (map key l) ->
  sum_of (fun x => if String.eqb k (key x) then 1 else 0) l = 1.
Proof.
  induction l as [|x l IH]; simpl; intros Hnd Hin; [contradiction|].
  inversion Hnd as [|? ? Hx Hl]; subst.
  destruct (String.eqb_spec k (key x)) as [->|Hne].
  - rewrite sum_of_zero; [reflexivity|]. intros y Hy.
    destruct (String.eqb_spec (key x) (key y)) as [E|_]; [|reflexivity].
    exfalso. apply Hx. rewrite E. now apply in_map.
  - destruct Hin as [E|Hin]; [now subst|]. now rewrite IH.
Qed.

Lemma filter_at_most_one {A B : Type} (key : A -> B) (k : B) (g : A -> bool) (l : list A) :
  List.NoDup (map key l) -> (forall y, g y = true -> key y = k) ->
  (length (List.filter g l) <= 1)%nat.
Proof.
  intros Hnd Hkey. induction l as [|x l IH]; simpl; [lia|].
  inversion Hnd as [|? ? Hx Hl]; subst.
  destruct (g x) eqn:Hgx; [|now apply IH].
  rewrite filter_none; [simpl; lia|].
  apply not_true_iff_false. intros H. apply existsb_exists in H.
  destruct H as (y & Hy & Hgy). apply Hx.
  rewrite (Hkey x Hgx), <- (Hkey y Hgy). now apply in_map.
Qed.

(** Rows told apart by a key are told apart by any finer one. *)
Lemma NoDup_map_finer {A B C : Type} (f : A -> B) (g : A -> C) (l : list A) :
  (forall x y, g x = g y -> f x = f y) ->
  List.NoDup (map f l) -> List.NoDup (map g l).
Proof.
  intros Hfg. induction l as [|x l IH]; simpl; intros H; [constructor|].
  inversion H as [|? ? Hx Hl]; subst. constructor; [|now apply IH].
  intros Hin. apply Hx. apply in_map_iff in Hin. destruct Hin as (y & Hy & Hin).
  apply in_map_iff. exists y. split; [now apply Hfg|exact Hin].
Qed.

(** Rows with distinct keys are told apart by their key. *)
Lemma existsb_filter {A : Type} (f g : A -> bool) (l : list A) :
  existsb f (List.filter g l) = true -> existsb f l = true.
Proof.
  intros H. apply existsb_exists in H. destruct H as (x & Hx & Hf).
  apply filter_In in Hx. apply existsb_exists. exists x. now split.
Qed.

Lemma key_identifies {A B : Type} (key : A -> B) (l : list A) (x y : A) :
  List.NoDup (map key l) -> In x l -> In y l -> key x = key y -> x = y.
Proof.
  induction l as [|z l IH]; simpl; intros Hnd Hx Hy E; [contradiction|].
  inversion Hnd as [|? ? Hz Hl]; subst.
  destruct Hx as [->|Hx], Hy as [->|Hy]; [reflexivity| | |now apply IH].
  - elim Hz. rewrite E. now apply in_map.
  - elim Hz. rewrite <- E. now apply in_map.
Qed.

Lemma filter_ext_In {A : Type} (f g : A -> bool) (l : list A) :
  (forall x, In x l -> f x = g x) -> List.filter f l = List.filter g l.
Proof.
  induction l as [|x l IH]; simpl; intros H; [reflexivity|].
  rewrite (H x (or_introl eq_refl)), IH; [reflexivity|]. intros y Hy. apply H. now right.
Qed.

(** ** Insertion sorts *)

(** The sorts of the models below are instances of this one: [x] goes in
    front of the first row it may stand before. *)
Fixpoint insert_by {A : Type} (before : A -> A -> bool) (x : A) (l : list A) : list A :=
  match l with
  | [] => [x]
  | y :: l' => if before x y then x :: l else y :: insert_by before x l'
  end.

Definition sort_by {A : Type} (before : A -> A -> bool) (l : list A) : list A :=
  fold_right (insert_by before) [] l.

Lemma insert_by_perm {A : Type} (before : A -> A -> bool) x l :
  Permutation (insert_by before x l) (x :: l).
Proof.
  induction l as [|y l IH]; simpl; [reflexivity|].
  destruct (before x y); [reflexivity|].
  rewrite IH. apply perm_swap.
Qed.

Lemma sort_by_perm {A : Type} (before : A -> A -> bool) l :
  Permutation (sort_by before l) l.
Proof.
  induction l as [|x l IH]; simpl; [reflexivity|].
  rewrite insert_by_perm. now constructor.
Qed.

Section Sorting.

Context {A : Type} (before : A -> A -> bool).
Hypothesis before_total : forall x y, before x y = true \/ before y x = true.
Hypothesis before_trans :
  forall x y z, before x y = true -> before y z = true -> before x z = true.

Lemma insert_by_sorted x l :
  StronglySorted (fun a b => before a b = true) l ->
  StronglySorted (fun a b => before a b = true) (insert_by before x l).
Proof.
  induction l as [|y l IH]; simpl; intros H.
  - constructor; constructor.
  - inversion H as [|? ? Hl Hy]; subst.
    destruct (before x y) eqn:E.
    + constructor; [exact H|]. constructor; [exact E|].
      eapply List.Forall_impl; [|exact Hy]. intros z Hz. now apply (before_trans x y z).
    + constructor; [now apply IH|].
      assert (Hyx : before y x = true) by (destruct (before_total x y); congruence).
      apply List.Forall_forall. intros z Hz.
      apply (Permutation_in _ (insert_by_perm before x l)) in Hz.
      destruct Hz as [<-|Hz]; [exact Hyx|].
      rewrite List.Forall_forall in Hy. now apply Hy.
Qed.

Lemma sort_by_sorted l : StronglySorted (fun a b => before a b = true) (sort_by before l).
Proof.
  induction l as [|x l IH]; simpl; [constructor|]. now apply insert_by_sorted.
Qed.

End Sorting.

End ListFacts.

(** * Facts about schema.sql *)

Module SchemaSqlFacts.
Import ListFacts SchemaSql.

(** ** What a call can do to the tables *)

Lemma insert_conflict_tables db p o v db' :
  insert_vote_on_conflict_do_nothing db p o v = inl db' ->
  db' = db \/
  (existsb (same_key p o v) (votes db) = false /\ db' = append_vote db p o v).
Proof.
  unfold insert_vote_on_conflict_do_nothing.
  destruct (existsb (same_key p o v) (votes db)) eqn:E.
  - intros [= <-]. now left.
  - destruct (check_foreign_keys db p o v); [discriminate|].
    intros [= <-]. now right.
Qed.

Lemma insert_vote_tables db p o v db' :
  insert_vote db p o v = inl db' ->
  existsb (same_key p o v) (votes db) = false /\ db' = append_vote db p o v.
Proof.
  unfold insert_vote.
  destruct (existsb (same_key p o v) (votes db)) eqn:E; [discriminate|].
  destruct (check_foreign_keys db p o v); [discriminate|].
  intros [= <-]. now split.
Qed.

(** The three things [record_vote] can do: nothing, add the row, or replace
    the voter's rows on the poll by the row. *)
Lemma record_vote_cases db p o v :
  let db' := snd (record_vote db p o v) in
  db' = db
  \/ (existsb (same_key p o v) (votes db) = false /\ db' = append_vote db p o v)
  \/ db' = append_vote (delete_votes db p v) p o v.
Proof.
  unfold record_vote.
  destruct (List.find _ (polls db)) as [poll_record|]; [|now left].
  destruct (sql_is_true (sql_ne_status _ _)); [now left|].
  destruct (negb _); [now left|].
  destruct (sql_is_true (Polls.allow_multiple_votes poll_record)).
  - destruct (insert_vote_on_conflict_do_nothing db p o v) as [db'|e] eqn:E; [|now left].
    apply insert_conflict_tables in E. simpl. destruct E as [->|[E ->]]; [now left|].
    right. left. now split.
  - destruct (insert_vote _ p o v) as [db'|e] eqn:E; [|now left].
    apply insert_vote_tables in E. destruct E as [_ ->]. right. now right.
Qed.

(** A call that raises leaves every table as it was. *)
Lemma record_vote_raised db p o v e db' :
  record_vote db p o v = (raised e, db') -> db' = db.
Proof.
  unfold record_vote.
  destruct (List.find _ (polls db)) as [poll_record|]; [|now intros [= _ <-]].
  destruct (sql_is_true (sql_ne_status _ _)); [now intros [= _ <-]|].
  destruct (negb _); [now intros [= _ <-]|].
  destruct (sql_is_true (Polls.allow_multiple_votes poll_record)).
  - destruct (insert_vote_on_conflict_do_nothing db p o v); [discriminate|now intros [= _ <-]].
  - destruct (insert_vote _ p o v); [discriminate|now intros [= _ <-]].
Qed.

(** Only [votes] and the id counter ever change. *)
Lemma step_other_tables db c :
  profiles (step db c) = profiles db
  /\ polls (step db c) = polls db
  /\ poll_options (step db c) = poll_options db.
Proof.
  unfold step.
  destruct (record_vote_cases db (call_poll c) (call_option c) (call_voter c))
    as [->|[[_ ->]| ->]]; now simpl.
Qed.

Lemma run_calls_app db cs c : run_calls db (cs ++ [c]) = step (run_calls db cs) c.
Proof. unfold run_calls. now rewrite fold_left_app. Qed.

Lemma run_calls_other_tables db cs :
  profiles (run_calls db cs) = profiles db
  /\ polls (run_calls db cs) = polls db
  /\ poll_options (run_calls db cs) = poll_options db.
Proof.
  induction cs as [|c cs IH] using rev_ind; [now simpl|].
  rewrite run_calls_app.
  destruct (step_other_tables (run_calls db cs) c) as (-> & -> & ->). exact IH.
Qed.

(** ** The UNIQUE constraint of [votes] *)

Lemma same_key_iff p o v r : same_key p o v r = true <-> vote_key r = (p, v, o).
Proof.
  unfold same_key, vote_key. rewrite !andb_true_iff, !String.eqb_eq.
  split; [intros [[-> ->] ->]; reflexivity|intros [= -> -> ->]; auto].
Qed.

Lemma no_same_key_not_in p o v vs :
  existsb (same_key p o v) vs = false -> ~ In (p, v, o) (map vote_key vs).
Proof.
  intros H Hin. apply in_map_iff in Hin. destruct Hin as (r & Hr & Hin).
  apply same_key_iff in Hr.
  rewrite (existsb_false_forall _ _ H r Hin) in Hr. discriminate.
Qed.

Lemma deleted_no_same_key db p o v :
  existsb (same_key p o v) (votes (delete_votes db p v)) = false.
Proof.
  simpl. apply not_true_iff_false. intros H. apply existsb_exists in H.
  destruct H as (r & Hin & Hr). apply filter_In in Hin. destruct Hin as [_ Hn].
  unfold same_key in Hr. unfold of_voter_on_poll in Hn.
  apply andb_true_iff in Hr. destruct Hr as [Hr _]. rewrite Hr in Hn. discriminate.
Qed.

Lemma step_keeps_unique db c :
  List.NoDup (map vote_key (votes db)) -> List.NoDup (map vote_key (votes (step db c))).
Proof.
  intros H. unfold step.
  destruct (record_vote_cases db (call_poll c) (call_option c) (call_voter c))
    as [->|[[E ->]| ->]]; [exact H| |]; simpl; rewrite map_app; simpl.
  - apply NoDup_snoc; [exact H|]. now apply no_same_key_not_in.
  - apply NoDup_snoc; [now apply NoDup_map_filter|].
    apply (no_same_key_not_in _ _ _ (votes (delete_votes db (call_poll c) (call_voter c)))).
    apply deleted_no_same_key.
Qed.

Lemma run_calls_keep_unique db cs :
  List.NoDup (map vote_key (votes db)) -> List.NoDup (map vote_key (votes (run_calls db cs))).
Proof.
  intros H. induction cs as [|c cs IH] using rev_ind; [exact H|].
  rewrite run_calls_app. now apply step_keeps_unique.
Qed.

(** ** One voter on one poll *)

Lemma votes_of_append db p o v p' v' :
  votes_of (append_vote db p o v) p' v' =
  votes_of db p' v' ++
  (if String.eqb p p' && String.eqb v v'
   then [{| Votes.id := next_vote_id db; Votes.poll_id := p;
            Votes.option_id := o; Votes.voter_id := v |}]
   else []).
Proof.
  unfold votes_of, append_vote. simpl. rewrite List.filter_app. simpl.
  unfold of_voter_on_poll at 2. simpl. now destruct (String.eqb p p' && String.eqb v v').
Qed.

Lemma votes_of_delete_same db p v : votes_of (delete_votes db p v) p v = [].
Proof. unfold votes_of, delete_votes. simpl. apply filter_negb_filter. Qed.

Lemma votes_of_delete_other db p v p' v' :
  String.eqb p p' && String.eqb v v' = false ->
  votes_of (delete_votes db p v) p' v' = votes_of db p' v'.
Proof.
  intros H. unfold votes_of, delete_votes. simpl. apply filter_filter_other.
  intros r Hr. unfold of_voter_on_poll in *. apply andb_true_iff in Hr.
  destruct Hr as [Hp Hv]. apply String.eqb_eq in Hp, Hv. rewrite Hp, Hv.
  rewrite (String.eqb_sym p' p), (String.eqb_sym v' v). exact H.
Qed.

Lemma step_not_addressed db p v c :
  addressed p v c = false -> votes_of (step db c) p v = votes_of db p v.
Proof.
  unfold addressed, step. intros H.
  destruct (record_vote_cases db (call_poll c) (call_option c) (call_voter c))
    as [->|[[_ ->]| ->]]; [reflexivity| |].
  - rewrite votes_of_append, H. apply app_nil_r.
  - rewrite votes_of_append, H, app_nil_r. now apply votes_of_delete_other.
Qed.

Lemma option_of_poll_exists db p o :
  existsb (option_of_poll p o) (poll_options db) = true ->
  existsb (fun x => String.eqb (PollOptions.id x) o) (poll_options db) = true.
Proof.
  intros H. apply existsb_exists in H. destruct H as (x & Hin & Hx).
  apply existsb_exists. exists x. split; [exact Hin|].
  unfold option_of_poll in Hx. apply andb_true_iff in Hx. tauto.
Qed.

Lemma foreign_keys_hold db p poll_record o v :
  open_poll db p poll_record ->
  existsb (option_of_poll p o) (poll_options db) = true ->
  has_profile db v ->
  forall vs n, check_foreign_keys (with_votes db vs n) p o v = None.
Proof.
  intros [Hf _] Ho Hv vs n. unfold check_foreign_keys. simpl.
  rewrite (find_existsb _ _ _ Hf). simpl.
  rewrite (option_of_poll_exists _ _ _ Ho). simpl.
  unfold has_profile in Hv. now rewrite Hv.
Qed.

Lemma with_votes_same db : with_votes db (votes db) (next_vote_id db) = db.
Proof. now destruct db. Qed.

(** An accepted call on a poll with allow_multiple_votes. *)
Lemma record_vote_multiple db p poll_record o v :
  open_poll db p poll_record ->
  sql_is_true (Polls.allow_multiple_votes poll_record) = true ->
  existsb (option_of_poll p o) (poll_options db) = true ->
  has_profile db v ->
  record_vote db p o v =
  (returned true,
   if existsb (same_key p o v) (votes db) then db else append_vote db p o v).
Proof.
  intros Hp Hm Ho Hv. pose proof (foreign_keys_hold _ _ _ _ _ Hp Ho Hv) as Hfk.
  destruct Hp as [Hf Hs]. unfold record_vote. rewrite Hf, Hs, Ho, Hm. simpl.
  unfold insert_vote_on_conflict_do_nothing.
  destruct (existsb (same_key p o v) (votes db)); [reflexivity|].
  specialize (Hfk (votes db) (next_vote_id db)). rewrite with_votes_same in Hfk.
  now rewrite Hfk.
Qed.

(** An accepted call on a single-choice poll. *)
Lemma record_vote_single db p poll_record o v :
  open_poll db p poll_record ->
  sql_is_true (Polls.allow_multiple_votes poll_record) = false ->
  existsb (option_of_poll p o) (poll_options db) = true ->
  has_profile db v ->
  record_vote db p o v = (returned true, append_vote (delete_votes db p v) p o v).
Proof.
  intros Hp Hm Ho Hv. pose proof (foreign_keys_hold _ _ _ _ _ Hp Ho Hv) as Hfk.
  destruct Hp as [Hf Hs]. unfold record_vote. rewrite Hf, Hs, Ho, Hm. simpl.
  unfold insert_vote. rewrite deleted_no_same_key.
  unfold delete_votes at 1. now rewrite Hfk.
Qed.

(** A call for an id that is not an option of the poll changes nothing. *)
Lemma record_vote_not_an_option db p o v :
  existsb (option_of_poll p o) (poll_options db) = false ->
  snd (record_vote db p o v) = db.
Proof.
  intros Ho. unfold record_vote.
  destruct (List.find _ (polls db)); [|reflexivity].
  destruct (sql_is_true (sql_ne_status _ _)); [reflexivity|]. now rewrite Ho.
Qed.

Lemma open_poll_run db cs p poll_record :
  open_poll db p poll_record -> open_poll (run_calls db cs) p poll_record.
Proof.
  unfold open_poll. destruct (run_calls_other_tables db cs) as (_ & -> & _). tauto.
Qed.

Lemma has_profile_run db cs v : has_profile db v -> has_profile (run_calls db cs) v.
Proof.
  unfold has_profile. destruct (run_calls_other_tables db cs) as (-> & _ & _). tauto.
Qed.

Lemma requested_options_app db p v cs c :
  requested_options db p v (cs ++ [c]) =
  requested_options db p v cs ++
  (if addressed p v c && existsb (option_of_poll p (call_option c)) (poll_options db)
   then [call_option c] else []).
Proof.
  unfold requested_options. rewrite List.filter_app, map_app. simpl.
  now destruct (addressed p v c && _).
Qed.

Lemma addressed_eq p v c : addressed p v c = true -> call_poll c = p /\ call_voter c = v.
Proof. unfold addressed. rewrite andb_true_iff, !String.eqb_eq. tauto. Qed.

Lemma held_option_iff db p o v :
  existsb (same_key p o v) (votes db) = true <-> In o (held_options db p v).
Proof.
  unfold held_options, votes_of. rewrite existsb_exists, in_map_iff.
  split.
  - intros (r & Hin & Hr). exists r. unfold same_key in Hr.
    rewrite !andb_true_iff in Hr. destruct Hr as [Hpv Ho].
    apply String.eqb_eq in Ho. split; [exact Ho|].
    apply filter_In. split; [exact Hin|]. unfold of_voter_on_poll.
    now apply andb_true_iff.
  - intros (r & Ho & Hin). apply filter_In in Hin. destruct Hin as [Hin Hpv].
    exists r. split; [exact Hin|]. unfold same_key. unfold of_voter_on_poll in Hpv.
    rewrite Hpv. simpl. now apply String.eqb_eq.
Qed.

Lemma held_options_append db p o v :
  held_options (append_vote db p o v) p v = held_options db p v ++ [o].
Proof.
  unfold held_options. rewrite votes_of_append, !String.eqb_refl. simpl.
  now rewrite map_app.
Qed.

(** One more call on a poll with allow_multiple_votes: the held options grow
    by the requested one when it is an option of the poll and new. *)
Lemma step_multiple db p poll_record v c :
  open_poll db p poll_record ->
  sql_is_true (Polls.allow_multiple_votes poll_record) = true ->
  has_profile db v ->
  held_options (step db c) p v =
  held_options db p v ++
  (if addressed p v c
      && existsb (option_of_poll p (call_option c)) (poll_options db)
      && negb (existsb (same_key p (call_option c) v) (votes db))
   then [call_option c] else []).
Proof.
  intros Hp Hm Hv. destruct (addressed p v c) eqn:Ha; simpl.
  - apply addressed_eq in Ha. destruct Ha as [Hcp Hcv]. unfold step. rewrite Hcp, Hcv.
    destruct (existsb (option_of_poll p (call_option c)) (poll_options db)) eqn:Ho; simpl.
    + rewrite (record_vote_multiple _ _ _ _ _ Hp Hm Ho Hv). simpl.
      destruct (existsb (same_key p (call_option c) v) (votes db)); simpl.
      * now rewrite app_nil_r.
      * apply held_options_append.
    + rewrite (record_vote_not_an_option _ _ _ _ Ho). now rewrite app_nil_r.
  - unfold held_options. rewrite (step_not_addressed _ _ _ _ Ha). now rewrite app_nil_r.
Qed.

(** One more call on a single-choice poll: an accepted request replaces what
    the voter held. *)
Lemma step_single db p poll_record v c :
  open_poll db p poll_record ->
  sql_is_true (Polls.allow_multiple_votes poll_record) = false ->
  has_profile db v ->
  votes_of (step db c) p v =
  if addressed p v c && existsb (option_of_poll p (call_option c)) (poll_options db)
  then [{| Votes.id := next_vote_id db; Votes.poll_id := p;
           Votes.option_id := call_option c; Votes.voter_id := v |}]
  else votes_of db p v.
Proof.
  intros Hp Hm Hv. destruct (addressed p v c) eqn:Ha; simpl.
  - apply addressed_eq in Ha. destruct Ha as [Hcp Hcv]. unfold step. rewrite Hcp, Hcv.
    destruct (existsb (option_of_poll p (call_option c)) (poll_options db)) eqn:Ho; simpl.
    + rewrite (record_vote_single _ _ _ _ _ Hp Hm Ho Hv). simpl.
      rewrite votes_of_append, votes_of_delete_same, !String.eqb_refl. reflexivity.
    + now rewrite (record_vote_not_an_option _ _ _ _ Ho).
  - apply (step_not_addressed _ _ _ _ Ha).
Qed.

(** The invariant behind the multiple-choice claim. *)
Lemma multiple_choice_invariant db cs p poll_record v :
  open_poll db p poll_record ->
  sql_is_true (Polls.allow_multiple_votes poll_record) = true ->
  has_profile db v ->
  votes_of db p v = [] ->
  (forall o, In o (held_options (run_calls db cs) p v) <-> In o (requested_options db p v cs))
  /\ List.NoDup (held_options (run_calls db cs) p v).
Proof.
  intros Hp Hm Hv H0. induction cs as [|c cs [IHin IHnd]] using rev_ind.
  - unfold held_options. simpl. rewrite H0. simpl. split; [tauto|constructor].
  - rewrite run_calls_app, requested_options_app.
    rewrite (step_multiple _ p poll_record v c (open_poll_run _ cs _ _ Hp) Hm
               (has_profile_run _ cs _ Hv)).
    destruct (run_calls_other_tables db cs) as (_ & _ & ->).
    destruct (addressed p v c
              && existsb (option_of_poll p (call_option c)) (poll_options db)) eqn:Hreq;
      simpl.
    + destruct (existsb (same_key p (call_option c) v) (votes (run_calls db cs))) eqn:Hheld;
        simpl.
      * rewrite app_nil_r. split; [|exact IHnd]. intros o. rewrite in_app_iff, IHin. simpl.
        apply held_option_iff in Hheld. apply IHin in Hheld.
        split; [tauto|]. intros [H|[<-|[]]]; [exact H|exact Hheld].
      * split.
        -- intros o. rewrite !in_app_iff, IHin. tauto.
        -- apply NoDup_snoc; [exact IHnd|]. intros Hin. apply held_option_iff in Hin.
           rewrite Hin in Hheld. discriminate.
    + rewrite !app_nil_r. now split.
Qed.

(** The invariant behind the single-choice claim. *)
Lemma single_choice_invariant db cs p poll_record v :
  open_poll db p poll_record ->
  sql_is_true (Polls.allow_multiple_votes poll_record) = false ->
  has_profile db v ->
  match rev (requested_options db p v cs) with
  | o :: _ => exists r, votes_of (run_calls db cs) p v = [r] /\ Votes.option_id r = o
  | [] => votes_of (run_calls db cs) p v = votes_of db p v
  end.
Proof.
  intros Hp Hm Hv. induction cs as [|c cs IH] using rev_ind; [reflexivity|].
  rewrite run_calls_app, requested_options_app, rev_app_distr.
  rewrite (step_single _ p poll_record v c (open_poll_run _ cs _ _ Hp) Hm
             (has_profile_run _ cs _ Hv)).
  destruct (run_calls_other_tables db cs) as (_ & _ & ->).
  destruct (addressed p v c
            && existsb (option_of_poll p (call_option c)) (poll_options db)); simpl.
  - eexists. split; reflexivity.
  - exact IH.
Qed.

(** ** The tally *)

Lemma step_keeps_references db c :
  references_own_poll db -> references_own_poll (step db c).
Proof.
  unfold references_own_poll, step. intros H.
  destruct (existsb (option_of_poll (call_poll c) (call_option c)) (poll_options db)) eqn:Ho.
  - destruct (record_vote_cases db (call_poll c) (call_option c) (call_voter c))
      as [->|[[_ ->]| ->]]; [exact H| |]; simpl; apply Forall_app; split.
    + exact H.
    + constructor; [exact Ho|constructor].
    + apply List.Forall_forall. intros r Hr. apply filter_In in Hr.
      rewrite List.Forall_forall in H. now apply H.
    + constructor; [exact Ho|constructor].
  - now rewrite (record_vote_not_an_option _ _ _ _ Ho).
Qed.

Lemma run_calls_keep_references db cs :
  references_own_poll db -> references_own_poll (run_calls db cs).
Proof.
  intros H. induction cs as [|c cs IH] using rev_ind; [exact H|].
  rewrite run_calls_app. now apply step_keeps_references.
Qed.

Lemma count_where_cons {A : Type} (f : A -> bool) (x : A) (l : list A) :
  count_where f (x :: l) = (if f x then 1 else 0) + count_where f l.
Proof.
  unfold count_where. simpl. destruct (f x); simpl length; lia.
Qed.

Lemma find_group (cnt : UUID -> Z) (x : UUID) (l : list UUID) :
  List.find (fun g : UUID * Z => String.eqb x (fst g)) (map (fun o => (o, cnt o)) l) =
  if existsb (String.eqb x) l then Some (x, cnt x) else None.
Proof.
  induction l as [|a l IH]; simpl; [reflexivity|].
  destruct (String.eqb_spec x a) as [->|_]; [reflexivity|exact IH].
Qed.

(** What the LEFT JOIN puts next to an option: the number of votes of the
    poll that name it. *)
Lemma joined_vote_count_spec db p po :
  joined_vote_count (vote_counts db p) po =
  count_where (fun v => String.eqb (Votes.poll_id v) p
                        && String.eqb (Votes.option_id v) (PollOptions.id po))
              (votes db).
Proof.
  unfold joined_vote_count, vote_counts. rewrite find_group.
  destruct (existsb _ (nodup string_dec _)) eqn:E; simpl.
  - unfold count_where. rewrite filter_filter_and. reflexivity.
  - unfold count_where. rewrite filter_none; [reflexivity|].
    apply not_true_iff_false. intros H. apply existsb_exists in H.
    destruct H as (v & Hin & Hv). apply andb_true_iff in Hv. destruct Hv as [Hp Ho].
    apply String.eqb_eq in Ho.
    assert (Hx : existsb (String.eqb (PollOptions.id po))
                   (nodup string_dec
                      (map Votes.option_id
                         (List.filter (fun v => String.eqb (Votes.poll_id v) p) (votes db))))
                 = true).
    { apply existsb_exists. exists (PollOptions.id po). split; [|apply String.eqb_refl].
      apply nodup_In. rewrite <- Ho. apply in_map. apply filter_In. now split. }
    rewrite Hx in E. discriminate.
Qed.

(** Votes that each name one of the options, counted option by option, add
    up to the votes of the poll. *)
Lemma per_option_counts_add_up (opts : list PollOptions.row) (p : UUID) (vs : list Votes.row) :
  List.NoDup (map PollOptions.id opts) ->
  Forall (fun v => Votes.poll_id v = p -> In (Votes.option_id v) (map PollOptions.id opts)) vs ->
  sum_of (fun po => count_where (fun v => String.eqb (Votes.poll_id v) p
                                          && String.eqb (Votes.option_id v) (PollOptions.id po))
                                vs) opts
  = count_where (fun v => String.eqb (Votes.poll_id v) p) vs.
Proof.
  intros Hnd Hvs. induction vs as [|v vs IH].
  - apply sum_of_zero. reflexivity.
  - inversion Hvs as [|? ? Hv Hrest]; subst.
    rewrite count_where_cons, <- (IH Hrest).
    rewrite (sum_of_ext _ (fun po =>
               (if String.eqb (Votes.poll_id v) p
                   && String.eqb (Votes.option_id v) (PollOptions.id po) then 1 else 0)
               + count_where (fun v => String.eqb (Votes.poll_id v) p
                                       && String.eqb (Votes.option_id v) (PollOptions.id po))
                             vs))
      by (intros; now rewrite count_where_cons).
    rewrite sum_of_plus. f_equal.
    destruct (String.eqb_spec (Votes.poll_id v) p) as [E|_]; simpl.
    + now apply sum_of_indicator; [|apply Hv].
    + apply sum_of_zero. reflexivity.
Qed.

Lemma sum_vote_counts_option_json db p l :
  sum_vote_counts (map (option_json db p) l)
  = sum_of (fun po => count_where (fun v => String.eqb (Votes.poll_id v) p
                                            && String.eqb (Votes.option_id v)
                                                          (PollOptions.id po))
                                  (votes db)) l.
Proof. induction l as [|x l IH]; simpl; [reflexivity|]. now rewrite IH. Qed.

Lemma tally_adds_up db p :
  List.NoDup (map PollOptions.id (poll_options db)) ->
  references_own_poll db ->
  sum_vote_counts (map (option_json db p) (poll_option_rows db p))
  = count_where (fun v => String.eqb (Votes.poll_id v) p) (votes db).
Proof.
  intros Hpk Href. rewrite sum_vote_counts_option_json. unfold poll_option_rows.
  apply per_option_counts_add_up; [now apply NoDup_map_filter|].
  unfold references_own_poll in Href. rewrite List.Forall_forall in *.
  intros v Hin Hp. specialize (Href v Hin). apply existsb_exists in Href.
  destruct Href as (po & Hpo & Hmatch). unfold option_of_poll in Hmatch.
  apply andb_true_iff in Hmatch. destruct Hmatch as [Hid Hpoll].
  apply String.eqb_eq in Hid. rewrite <- Hid. apply in_map. apply filter_In.
  split; [exact Hpo|]. now rewrite <- Hp.
Qed.

End SchemaSqlFacts.

(** * Facts about the server action *)

Module PollActionsFacts.
Import ListFacts PollActions.

(** ** The coercions at work *)

Example parseInt_reads_a_digit_prefix :
  map parseInt ["1"; " 12px"; "+3"; "-7"; "0x10"; "1.9"; "-0"]
  = map integer [1; 12; 3; -7; 0; 1; 0].
Proof. reflexivity. Qed.

Example parseInt_without_digits_is_NaN :
  map parseInt [""; "abc"; "+"; "- 1"; ".5"] = repeat not_integer 5.
Proof. reflexivity. Qed.

Example duplicate_key_or_unique_ignores_case :
  map duplicate_key_or_unique
      ["duplicate key value violates unique constraint"; "Duplicate Key"; "UNIQUE";
       "duplicate  key"; "uniq"; ""]
  = [true; true; true; false; false; false].
Proof. reflexivity. Qed.

Example pg_text_of_unique_violation_matches :
  duplicate_key_or_unique (pg_text (unique_violation "votes_unique_user_per_poll")) = true.
Proof. reflexivity. Qed.

(** ** The constraints hold whatever is committed *)

Lemma of_user_on_poll_iff pollId userId r :
  of_user_on_poll pollId userId r = true <-> vote_key r = (pollId, userId).
Proof.
  unfold of_user_on_poll, vote_key. rewrite andb_true_iff, !String.eqb_eq.
  split; [intros [-> ->]; reflexivity|intros [= -> ->]; auto].
Qed.

Lemma insert_vote_consistent d pollId userId optionIndex d' :
  consistent d -> insert_vote d pollId userId optionIndex = inl d' -> consistent d'.
Proof.
  intros [Hpk Hu Hfk Hck]. unfold insert_vote.
  destruct (_ || _); [discriminate|].
  destruct (existsb _ (readable_polls d (Some userId))) eqn:Hpoll; simpl; [|discriminate].
  apply existsb_filter in Hpoll.
  destruct (optionIndex <? 0) eqn:Hneg; [discriminate|].
  destruct (existsb _ (votes d)) eqn:Hdup; [discriminate|].
  intros [= <-]. constructor; simpl.
  - exact Hpk.
  - rewrite map_app. simpl. apply NoDup_snoc; [exact Hu|].
    intros Hin. apply in_map_iff in Hin. destruct Hin as (r & Hr & Hin).
    change (vote_key r = (pollId, userId)) in Hr. apply of_user_on_poll_iff in Hr.
    rewrite (existsb_false_forall _ _ Hdup r Hin) in Hr. discriminate.
  - apply Forall_app. split; [exact Hfk|]. constructor; [exact Hpoll|constructor].
  - apply Forall_app. split; [exact Hck|]. constructor; [|constructor].
    simpl. apply Z.ltb_ge in Hneg. exact Hneg.
Qed.

(** What insert_vote checked when it stored a row. *)
Lemma insert_vote_stored d pollId userId i d' :
  insert_vote d pollId userId i = inl d' ->
  0 <= i < 2 ^ 31
  /\ existsb (fun p => String.eqb (Polls.id p) pollId) (readable_polls d (Some userId)) = true
  /\ votes_of d pollId userId = []
  /\ d' = {| polls := polls d;
             votes := votes d ++ [{| Votes.id := next_vote_id d; Votes.poll_id := pollId;
                                     Votes.user_id := userId; Votes.option_index := i |}];
             next_vote_id := N.succ (next_vote_id d);
             polls_select := polls_select d |}.
Proof.
  unfold insert_vote.
  destruct (_ || _) eqn:Hr; [discriminate|].
  destruct (existsb _ (readable_polls d (Some userId))) eqn:Hp; simpl; [|discriminate].
  destruct (i <? 0) eqn:Hn; [discriminate|].
  destruct (existsb _ (votes d)) eqn:Hv; [discriminate|].
  intros [= <-]. apply orb_false_iff in Hr. destruct Hr as [_ Hr].
  apply Z.leb_gt in Hr. apply Z.ltb_ge in Hn.
  repeat split; try assumption. now apply filter_none.
Qed.

Lemma insert_vote_accepts d pollId userId i :
  0 <= i < 2 ^ 31 ->
  existsb (fun p => String.eqb (Polls.id p) pollId) (readable_polls d (Some userId)) = true ->
  votes_of d pollId userId = [] ->
  insert_vote d pollId userId i
  = inl {| polls := polls d;
           votes := votes d ++ [{| Votes.id := next_vote_id d; Votes.poll_id := pollId;
                                   Votes.user_id := userId; Votes.option_index := i |}];
           next_vote_id := N.succ (next_vote_id d);
           polls_select := polls_select d |}.
Proof.
  intros Hb Hp Hv. unfold insert_vote.
  replace ((i <? - 2 ^ 31) || (2 ^ 31 <=? i)) with false
    by (symmetry; apply orb_false_iff; split; [apply Z.ltb_ge|apply Z.leb_gt]; lia).
  rewrite Hp. cbn [negb].
  replace (i <? 0) with false by (symmetry; apply Z.ltb_ge; lia).
  destruct (existsb (of_user_on_poll pollId userId) (votes d)) eqn:E; [|reflexivity].
  apply existsb_exists in E. destruct E as (r & Hr & Hk).
  assert (Hin : In r (votes_of d pollId userId)) by (apply filter_In; now split).
  rewrite Hv in Hin. destruct Hin.
Qed.

Lemma Forall_filter_keep {A : Type} (P : A -> Prop) (f : A -> bool) (l : list A) :
  Forall P l -> Forall P (List.filter f l).
Proof.
  rewrite !List.Forall_forall. intros H x Hx. apply filter_In in Hx. now apply H.
Qed.

Lemma exec_statement_consistent d s : consistent d -> consistent (exec_statement d s).
Proof.
  intros Hc. destruct s as [pollId userId optionIndex|p|id userId|pollId userId q os]; simpl.
  - destruct (insert_vote d pollId userId optionIndex) eqn:E; [|exact Hc].
    exact (insert_vote_consistent _ _ _ _ _ Hc E).
  - destruct (existsb _ (polls d)) eqn:E; [exact Hc|].
    destruct Hc as [Hpk Hu Hfk Hck]. constructor; simpl; [|exact Hu| |exact Hck].
    + rewrite map_app. simpl. apply NoDup_snoc; [exact Hpk|].
      intros Hin. apply in_map_iff in Hin. destruct Hin as (r & Hr & Hin).
      pose proof (existsb_false_forall _ _ E r Hin) as Hne. simpl in Hne.
      rewrite Hr, String.eqb_refl in Hne. discriminate.
    + eapply List.Forall_impl; [|exact Hfk]. simpl. intros v Hv.
      rewrite existsb_app, Hv. reflexivity.
  - destruct (existsb _ (polls d)) eqn:E; [|exact Hc].
    destruct Hc as [Hpk Hu Hfk Hck]. constructor; simpl.
    + now apply NoDup_map_filter.
    + now apply NoDup_map_filter.
    + apply List.Forall_forall. intros v Hv. apply filter_In in Hv. destruct Hv as [Hv Hne].
      rewrite List.Forall_forall in Hfk. specialize (Hfk v Hv).
      apply existsb_exists in Hfk. destruct Hfk as (r & Hr & Hid).
      apply existsb_exists. exists r. split; [|exact Hid].
      apply filter_In. split; [exact Hr|]. apply String.eqb_eq in Hid.
      unfold own_poll. rewrite Hid.
      apply negb_true_iff in Hne. rewrite Hne. now destruct (polls_select _ _ _).
    + now apply Forall_filter_keep.
  - destruct Hc as [Hpk Hu Hfk Hck].
    assert (Hids : forall (c : Polls.row -> bool) (l : list Polls.row),
               map Polls.id
                 (map (fun p => if c p
                                then {| Polls.id := Polls.id p; Polls.user_id := Polls.user_id p;
                                        Polls.question := q; Polls.options := os;
                                        Polls.created_at := Polls.created_at p |}
                                else p) l) = map Polls.id l).
    { intros c l. rewrite map_map. apply map_ext. intros p. now destruct (c p). }
    constructor; cbn [polls votes]; [now rewrite Hids|exact Hu| |exact Hck].
    eapply List.Forall_impl; [|exact Hfk]. simpl. intros v Hv.
    apply existsb_exists in Hv. destruct Hv as (r & Hr & Hid).
    apply String.eqb_eq in Hid.
    assert (Hin : In (Votes.poll_id v) (map Polls.id (polls d))) by (rewrite <- Hid; now apply in_map).
    rewrite <- (Hids (own_poll d pollId userId)) in Hin.
    apply in_map_iff in Hin. destruct Hin as (r' & Hr' & Hin').
    apply existsb_exists. exists r'. split; [exact Hin'|]. now apply String.eqb_eq.
Qed.

Lemma exec_statements_consistent d ss : consistent d -> consistent (exec_statements d ss).
Proof.
  revert d. induction ss as [|s ss IH]; intros d Hc; [exact Hc|].
  simpl. apply IH. now apply exec_statement_consistent.
Qed.

Section Client.

Variable text : pg_error -> string.

(** Whatever an action does and whatever the other requests commit, the
    constraints of the tables hold afterwards. *)
Lemma run_consistent {A : Type} (a : Action A) :
  forall auth schedule w,
    consistent (db w) -> consistent (db (snd (run text auth schedule w a))).
Proof.
  induction a as [r|k IH|pollId k IH|pollId userId k IH|pollId userId optionIndex k IH|path k IH];
    intros auth schedule w Hc; simpl.
  - exact Hc.
  - now apply IH.
  - destruct (next_tick schedule) as [t rest]. apply IH. simpl.
    now apply exec_statements_consistent.
  - destruct (next_tick schedule) as [t rest]. apply IH. simpl.
    now apply exec_statements_consistent.
  - destruct (next_tick schedule) as [t rest].
    pose proof (exec_statements_consistent _ (others t) Hc) as Hc'.
    destruct (fault t); [now apply IH|].
    destruct (insert_vote _ pollId userId optionIndex) eqn:E; apply IH; simpl;
      [exact (insert_vote_consistent _ _ _ _ _ Hc' E)|exact Hc'].
  - now apply IH.
Qed.

End Client.

(** ** What the queries find *)

Section Queries.

Variable text : pg_error -> string.

Lemma with_db_same w : with_db w (db w) = w.
Proof. now destruct w. Qed.

Lemma readable_poll_rows d uid p :
  consistent d -> In p (polls d) -> polls_select d uid p = true ->
  List.filter (fun q => String.eqb (Polls.id q) (Polls.id p)) (readable_polls d uid) = [p].
Proof.
  intros Hc Hin Hr.
  apply (filter_singleton Polls.id _ (readable_polls d uid) p).
  - apply NoDup_map_filter. apply (polls_pkey d Hc).
  - apply filter_In. now split.
  - apply String.eqb_refl.
  - intros q Hq. now apply String.eqb_eq.
Qed.

Lemma select_poll_found d u p :
  consistent d -> In p (polls d) -> readable d u p ->
  select_poll text d (Some u) (Polls.id p) =
  data {| poll_id := Polls.id p; poll_options := array (Polls.options p) |}.
Proof.
  intros Hc Hin Hr. unfold select_poll.
  now rewrite (readable_poll_rows d (Some u) p Hc Hin Hr).
Qed.

(** Where no row of polls passes a SELECT policy, the read of the poll
    finds no row. *)
Lemma select_poll_hidden d uid pollId :
  hidden d uid ->
  select_poll text d uid pollId = failure {| message := text no_rows |}.
Proof.
  intros H. unfold select_poll, readable_polls.
  replace (List.filter (polls_select d uid) (polls d)) with (@nil Polls.row); [reflexivity|].
  symmetry. apply filter_none. apply not_true_iff_false. intros E.
  apply existsb_exists in E. destruct E as (p & Hp & E). now rewrite (H p Hp) in E.
Qed.

Lemma select_vote_found d v :
  consistent d -> In v (votes d) ->
  select_vote text d (Votes.poll_id v) (Votes.user_id v) = data (Some (Votes.id v)).
Proof.
  intros Hc Hin. unfold select_vote, votes_of.
  rewrite (filter_singleton vote_key _ (votes d) v (votes_unique_user_per_poll d Hc) Hin);
    [reflexivity| |].
  - unfold of_user_on_poll. now rewrite !String.eqb_refl.
  - intros r Hr. now apply of_user_on_poll_iff.
Qed.

(** ** The paths through [submitVote] *)

Lemma in_bounds i (n : nat) :
  0 <= i < Z.of_nat n -> (i <? 0) || (i >=? Z.of_nat n) = false.
Proof. intros H. rewrite Z.geb_leb. apply orb_false_iff. split; [apply Z.ltb_ge|apply Z.leb_gt]; lia. Qed.

(** A voter who holds a vote on the poll is turned away, whatever valid
    option the request names, and nothing is written. *)
Lemma holder_is_turned_away u raw p i v w :
  consistent (db w) ->
  In p (polls (db w)) -> readable (db w) u p -> valid_index raw p i ->
  In v (votes (db w)) -> Votes.poll_id v = Polls.id p -> Votes.user_id v = u ->
  forall rest,
    run text (session u) (quiet :: quiet :: rest) w (submitVote (Polls.id p) raw)
    = (already_voted, w).
Proof.
  destruct w as [d paths]. simpl. intros Hc Hp Hr [Hi Hb] Hv Hvp Hvu rest.
  unfold submitVote. simpl. rewrite Hi. cbn -[select_poll select_vote insert_vote].
  rewrite (select_poll_found _ _ _ Hc Hp Hr). cbn -[select_poll select_vote insert_vote].
  rewrite (in_bounds _ _ Hb). cbn -[select_poll select_vote insert_vote].
  rewrite <- Hvp, <- Hvu, (select_vote_found _ _ Hc Hv). reflexivity.
Qed.

Lemma quiet_start_two schedule :
  quiet_start 2 schedule ->
  forall {A : Type} auth w (a : Action A),
    run text auth schedule w a = run text auth (quiet :: quiet :: skipn 2 schedule) w a.
Proof.
  unfold quiet_start. intros H A.
  assert (Hq : forall B auth w (b : Action B), run text auth [] w b = run text auth [quiet] w b).
  { intros B auth w b. revert auth w.
    induction b as [r|k IH|pollId k IH|pollId userId k IH|pollId userId i k IH|path k IH];
      intros auth w; simpl; try reflexivity; try apply IH. }
  destruct schedule as [|t1 [|t2 rest]]; simpl in *.
  - intros auth w a. rewrite (Hq A auth w a). revert auth w.
    induction a as [r|k IH|pollId k IH|pollId userId k IH|pollId userId i k IH|path k IH];
      intros auth w; simpl; try reflexivity; try apply IH; try apply Hq.
    destruct (insert_vote _ _ _ _); apply Hq.
  - inversion H as [|? ? E _]; subst. intros auth w a. revert auth w.
    induction a as [r|k IH|pollId k IH|pollId userId k IH|pollId userId i k IH|path k IH];
      intros auth w; simpl; try reflexivity; try apply IH; try apply Hq.
    destruct (insert_vote _ _ _ _); apply Hq.
  - inversion H as [|? ? E1 H']; subst. inversion H' as [|? ? E2 _]; subst. reflexivity.
Qed.

Lemma next_tick_undisturbed schedule t rest :
  undisturbed schedule -> next_tick schedule = (t, rest) ->
  others t = [] /\ undisturbed rest.
Proof.
  unfold undisturbed. destruct schedule as [|t' rest']; simpl; intros H [= <- <-].
  - split; [reflexivity|constructor].
  - inversion H; subst. now split.
Qed.

Lemma run_polls_select {A : Type} auth schedule w pollId (k : _ -> Action A) t rest :
  next_tick schedule = (t, rest) ->
  run text auth schedule w (polls_select_single pollId k) =
  run text auth rest (with_db w (exec_statements (db w) (others t)))
      (k (match fault t with
          | Some e => failure e
          | None => select_poll text (exec_statements (db w) (others t)) (uid auth) pollId
          end)).
Proof. intros E. simpl. now rewrite E. Qed.

Lemma run_votes_select {A : Type} auth schedule w pollId userId (k : _ -> Action A) t rest :
  next_tick schedule = (t, rest) ->
  run text auth schedule w (votes_select_maybeSingle pollId userId k) =
  run text auth rest (with_db w (exec_statements (db w) (others t)))
      (k (match fault t with
          | Some e => failure e
          | None => select_vote text (exec_statements (db w) (others t)) pollId userId
          end)).
Proof. intros E. simpl. now rewrite E. Qed.

Lemma run_votes_insert {A : Type} auth schedule w pollId userId i (k : _ -> Action A) t rest :
  next_tick schedule = (t, rest) ->
  run text auth schedule w (votes_insert pollId userId i k) =
  match fault t with
  | Some e => run text auth rest (with_db w (exec_statements (db w) (others t))) (k (Some e))
  | None =>
    match insert_vote (exec_statements (db w) (others t)) pollId userId i with
    | inl d' => run text auth rest (with_db w d') (k None)
    | inr e => run text auth rest (with_db w (exec_statements (db w) (others t)))
                   (k (Some {| message := text e |}))
    end
  end.
Proof. intros E. simpl. now rewrite E. Qed.

Ltac returns_here :=
  cbn -[select_poll select_vote insert_vote next_tick];
  let H := fresh in
  intros r w' H; injection H as <- <-; intros; simpl in *;
  try reflexivity; try congruence; try assumption.

Ltac next_round Hs t rest :=
  match goal with
  | |- context [run _ _ ?s _ _] =>
    let E := fresh "E" in
    let O := fresh "O" in
    destruct (next_tick s) as [t rest] eqn:E;
    destruct (next_tick_undisturbed _ _ _ Hs E) as [O ?];
    first [ rewrite (run_polls_select _ _ _ _ _ _ _ E)
          | rewrite (run_votes_select _ _ _ _ _ _ _ _ E)
          | rewrite (run_votes_insert _ _ _ _ _ _ _ _ _ E) ];
    rewrite O; cbn -[select_poll select_vote insert_vote next_tick run]
  end.

(** Every call that reports an error has written nothing: the database and
    the revalidated paths are as before. *)
Lemma error_means_nothing_written auth schedule w pollId raw :
  undisturbed schedule ->
  forall r w',
    run text auth schedule w (submitVote pollId raw) = (r, w') ->
    error r <> None -> w' = w.
Proof.
  intros Hs. destruct w as [d paths]. unfold submitVote.
  cbn -[select_poll select_vote insert_vote next_tick].
  destruct (auth_error auth); [returns_here|].
  destruct (user auth) as [user|]; [|returns_here].
  destruct (coerce_option_index raw) as [i|]; [|returns_here].
  next_round Hs t1 s1.
  destruct (fault t1); [returns_here|].
  destruct (select_poll text d _ pollId) as [poll|e]; [|returns_here].
  destruct (poll_options poll) as [options|]; [|returns_here].
  destruct ((i <? 0) || _); [returns_here|].
  next_round H t2 s2.
  destruct (fault t2); [returns_here|].
  destruct (select_vote text d pollId (AuthUser.id user)) as [[existing|]|e];
    [returns_here| |returns_here].
  next_round H0 t3 s3.
  destruct (fault t3).
  - destruct (duplicate_key_or_unique _); returns_here.
  - destruct (insert_vote d pollId (AuthUser.id user) i) as [d'|e].
    + cbn. intros r w' [= <- <-] Hr. now elim Hr.
    + destruct (duplicate_key_or_unique _); returns_here.
Qed.

(** A request whose index is no integer is refused before any round trip. *)
Lemma not_an_integer_is_refused u raw schedule w pollId :
  coerce_option_index raw = not_integer ->
  run text (session u) schedule w (submitVote pollId raw) = (invalid_option, w).
Proof. intros H. unfold submitVote. simpl. now rewrite H. Qed.

(** A request whose index is outside the options of the poll it names is
    refused once the poll is read; the database holds what the other
    requests committed meanwhile and nothing else. *)
Lemma out_of_bounds_is_refused u raw i schedule t rest w pollId poll :
  coerce_option_index raw = integer i ->
  next_tick schedule = (t, rest) -> fault t = None ->
  select_poll text (exec_statements (db w) (others t)) (Some u) pollId = data poll ->
  match poll_options poll with
  | array options => i < 0 \/ Z.of_nat (length options) <= i
  | not_array => True
  end ->
  run text (session u) schedule w (submitVote pollId raw) =
  (invalid_option, with_db w (exec_statements (db w) (others t))).
Proof.
  intros Hi E Hf Hp Hb. unfold submitVote. simpl run at 1. rewrite Hi.
  rewrite (run_polls_select _ _ _ _ _ _ _ E), Hf. change (uid (session u)) with (Some u).
  rewrite Hp.
  destruct (poll_options poll) as [options|]; [|reflexivity].
  replace ((i <? 0) || (i >=? Z.of_nat (length options))) with true; [reflexivity|].
  symmetry. rewrite Z.geb_leb. apply orb_true_iff.
  destruct Hb; [left; apply Z.ltb_lt|right; apply Z.leb_le]; lia.
Qed.

(** The insert of a request that passed both checks fails: the request
    reports an error and the database holds what the other requests
    committed, nothing of its own. *)
Lemma failed_insert_is_reported u pollId raw i t1 t2 t3 rest w poll options e :
  let d1 := exec_statements (db w) (others t1) in
  let d2 := exec_statements d1 (others t2) in
  let d3 := exec_statements d2 (others t3) in
  coerce_option_index raw = integer i ->
  fault t1 = None -> fault t2 = None -> fault t3 = None ->
  select_poll text d1 (Some u) pollId = data poll -> poll_options poll = array options ->
  0 <= i < Z.of_nat (length options) ->
  select_vote text d2 pollId u = data None ->
  insert_vote d3 pollId u i = inr e ->
  run text (session u) (t1 :: t2 :: t3 :: rest) w (submitVote pollId raw) =
  ({| error :=
        Some (if duplicate_key_or_unique
                   (message_or {| message := text e |} "Failed to submit vote")
              then "You have already voted in this poll."
              else message_or {| message := text e |} "Failed to submit vote") |},
   with_db w d3).
Proof.
  destruct w as [d paths]. cbn -[select_poll select_vote insert_vote duplicate_key_or_unique].
  intros Hraw F1 F2 F3 Hp Ho Hb Hv Hi. unfold submitVote.
  cbn -[select_poll select_vote insert_vote duplicate_key_or_unique coerce_option_index].
  rewrite Hraw.
  cbn -[select_poll select_vote insert_vote duplicate_key_or_unique].
  rewrite F1, Hp, Ho, (in_bounds _ _ Hb).
  cbn -[select_poll select_vote insert_vote duplicate_key_or_unique].
  rewrite F2, Hv.
  cbn -[select_poll select_vote insert_vote duplicate_key_or_unique].
  rewrite F3, Hi.
  cbn -[select_poll select_vote insert_vote duplicate_key_or_unique].
  now destruct (duplicate_key_or_unique _).
Qed.

(** A first vote: the voter holds nothing on the poll, the request is
    valid (and fits the int column), nothing else happens. *)
Lemma first_vote_is_stored u raw p i w :
  consistent (db w) -> In p (polls (db w)) -> readable (db w) u p ->
  valid_index raw p i -> i < 2 ^ 31 ->
  votes_of (db w) (Polls.id p) u = [] ->
  run text (session u) [] w (submitVote (Polls.id p) raw) =
  ({| error := None |},
   {| db := {| polls := polls (db w);
               votes := votes (db w) ++ [{| Votes.id := next_vote_id (db w);
                                            Votes.poll_id := Polls.id p;
                                            Votes.user_id := u;
                                            Votes.option_index := i |}];
               next_vote_id := N.succ (next_vote_id (db w));
               polls_select := polls_select (db w) |};
      revalidated := revalidated w ++ [String.append "/polls/" (Polls.id p)] |}).
Proof.
  destruct w as [d paths]. simpl. intros Hc Hp Hread [Hi Hb] Hint Hv.
  unfold submitVote. simpl. rewrite Hi. cbn -[select_poll select_vote insert_vote].
  rewrite (select_poll_found _ _ _ Hc Hp Hread). cbn -[select_poll select_vote insert_vote].
  rewrite (in_bounds _ _ Hb). cbn -[select_poll select_vote insert_vote].
  unfold select_vote. rewrite Hv. cbn -[insert_vote].
  assert (Hins : insert_vote d (Polls.id p) u i =
                 inl {| polls := polls d;
                        votes := votes d ++ [{| Votes.id := next_vote_id d;
                                                Votes.poll_id := Polls.id p;
                                                Votes.user_id := u;
                                                Votes.option_index := i |}];
                        next_vote_id := N.succ (next_vote_id d);
                        polls_select := polls_select d |}).
  { unfold insert_vote.
    replace ((i <? - 2 ^ 31) || (2 ^ 31 <=? i)) with false
      by (symmetry; apply orb_false_iff; split; [apply Z.ltb_ge|apply Z.leb_gt]; lia).
    replace (existsb (fun q => String.eqb (Polls.id q) (Polls.id p))
                     (readable_polls d (Some u))) with true
      by (symmetry; apply existsb_exists; exists p;
          split; [apply filter_In; now split|apply String.eqb_refl]).
    replace (i <? 0) with false by (symmetry; apply Z.ltb_ge; lia).
    destruct (existsb (of_user_on_poll (Polls.id p) u) (votes d)) eqn:E; [|reflexivity].
    apply existsb_exists in E. destruct E as (r & Hr & Hk).
    unfold votes_of in Hv.
    assert (Hin : In r (List.filter (of_user_on_poll (Polls.id p) u) (votes d)))
      by (apply filter_In; now split).
    rewrite Hv in Hin. destruct Hin. }
  rewrite Hins. reflexivity.
Qed.

(** Without a user in the session the request stops at once. *)
Lemma unauthenticated_is_refused auth schedule w pollId raw :
  user auth = None ->
  exists msg,
    run text auth schedule w (submitVote pollId raw) = ({| error := Some msg |}, w)
    /\ (auth_error auth = None -> msg = "You must be logged in to vote.").
Proof.
  intros Hu. unfold submitVote. simpl. rewrite Hu.
  destruct (auth_error auth) as [e|]; eexists; (split; [reflexivity|]); [discriminate|reflexivity].
Qed.

(** A poll that cannot be read ends the request with the error of the
    query; the database holds what the other requests committed. *)
Lemma unreadable_poll_is_refused u raw i schedule t rest w pollId :
  coerce_option_index raw = integer i ->
  next_tick schedule = (t, rest) ->
  forall e,
    match fault t with
    | Some e' => failure e'
    | None => select_poll text (exec_statements (db w) (others t)) (Some u) pollId
    end = failure e ->
    run text (session u) schedule w (submitVote pollId raw) =
    ({| error := Some (message e) |}, with_db w (exec_statements (db w) (others t))).
Proof.
  intros Hi E e He. unfold submitVote. simpl run at 1. rewrite Hi.
  rewrite (run_polls_select _ _ _ _ _ _ _ E). change (uid (session u)) with (Some u).
  rewrite He. reflexivity.
Qed.

Lemma serve_all_consistent w rs :
  consistent (db w) -> consistent (db (serve_all text w rs)).
Proof.
  revert w. induction rs as [|r rs IH]; intros w Hc; [exact Hc|].
  simpl. apply IH. unfold serve. now apply run_consistent.
Qed.

Lemma at_most_one_vote d pollId userId :
  consistent d -> (length (votes_of d pollId userId) <= 1)%nat.
Proof.
  intros Hc. unfold votes_of.
  apply (filter_at_most_one vote_key (pollId, userId)); [apply (votes_unique_user_per_poll d Hc)|].
  intros r Hr. now apply of_user_on_poll_iff.
Qed.

Lemma insert_vote_keeps_rows d pollId userId i d' v :
  insert_vote d pollId userId i = inl d' -> In v (votes d) -> In v (votes d').
Proof.
  unfold insert_vote.
  destruct (_ || _); [discriminate|].
  destruct (negb _); [discriminate|].
  destruct (i <? 0); [discriminate|].
  destruct (existsb _ (votes d)); [discriminate|].
  intros [= <-] Hin. simpl. apply in_or_app. now left.
Qed.

(** While no other request commits, a request removes no vote row. *)
Lemma undisturbed_run_keeps_rows auth schedule w pollId raw v :
  undisturbed schedule ->
  In v (votes (db w)) ->
  In v (votes (db (snd (run text auth schedule w (submitVote pollId raw))))).
Proof.
  intros Hs Hin.
  destruct (run text auth schedule w (submitVote pollId raw)) as [r w'] eqn:Hrun.
  destruct (error r) as [msg|] eqn:He.
  - rewrite (error_means_nothing_written auth schedule w pollId raw Hs r w' Hrun);
      [exact Hin|]. rewrite He. discriminate.
  - simpl. revert r w' Hrun He. destruct w as [d paths]. simpl in Hin. unfold submitVote.
    cbn -[select_poll select_vote insert_vote next_tick].
    destruct (auth_error auth); [returns_here|].
    destruct (user auth) as [user|]; [|returns_here].
    destruct (coerce_option_index raw) as [i|]; [|returns_here].
    next_round Hs t1 s1.
    destruct (fault t1); [returns_here|].
    destruct (select_poll text d _ pollId) as [poll|e]; [|returns_here].
    destruct (poll_options poll) as [options|]; [|returns_here].
    destruct ((i <? 0) || _); [returns_here|].
    next_round H t2 s2.
    destruct (fault t2); [returns_here|].
    destruct (select_vote text d pollId (AuthUser.id user)) as [[existing|]|e];
      [returns_here| |returns_here].
    next_round H0 t3 s3.
    destruct (fault t3).
    + destruct (duplicate_key_or_unique _); returns_here.
    + destruct (insert_vote d pollId (AuthUser.id user) i) as [d'|e] eqn:Hins.
      * cbn. intros r w' [= <- <-] _. simpl.
        exact (insert_vote_keeps_rows _ _ _ _ _ _ Hins Hin).
      * destruct (duplicate_key_or_unique _); returns_here.
Qed.

(** The first vote stays: while no other request commits, whatever requests
    are served, a user who holds a vote row on a poll holds exactly that row
    afterwards. *)
Lemma first_vote_stays w rs v :
  consistent (db w) -> In v (votes (db w)) ->
  Forall (fun r => undisturbed (req_schedule r)) rs ->
  votes_of (db (serve_all text w rs)) (Votes.poll_id v) (Votes.user_id v) = [v].
Proof.
  intros Hc Hin Hrs.
  assert (Hin' : In v (votes (db (serve_all text w rs)))).
  { revert w Hc Hin. induction Hrs as [|r rs Hr Hrs IH]; intros w Hc Hin; [exact Hin|].
    simpl. apply IH.
    - unfold serve. now apply run_consistent.
    - unfold serve. now apply undisturbed_run_keeps_rows. }
  pose proof (serve_all_consistent w rs Hc) as Hc'.
  unfold votes_of.
  apply (filter_singleton vote_key _ _ v (votes_unique_user_per_poll _ Hc') Hin').
  - unfold of_user_on_poll. now rewrite !String.eqb_refl.
  - intros r Hr. now apply of_user_on_poll_iff.
Qed.

Lemma committed_next schedule t rest d k :
  next_tick schedule = (t, rest) ->
  exec_statements (exec_statements d (others t)) (committed rest k)
  = exec_statements d (committed schedule (S k)).
Proof.
  unfold committed, exec_statements. destruct schedule as [|t' rest']; intros [= <- <-].
  - now destruct k.
  - simpl. now rewrite fold_left_app.
Qed.

Ltac stops_after E1 E2 E3 :=
  cbn -[select_poll select_vote insert_vote next_tick];
  let H := fresh in
  intros r w' H; injection H as <- <-; intros _;
  first [ exists 0%nat; reflexivity
        | exists 1%nat; rewrite <- (committed_next _ _ _ _ 0 E1); reflexivity
        | exists 2%nat; rewrite <- (committed_next _ _ _ _ 1 E1),
                                 <- (committed_next _ _ _ _ 0 E2); reflexivity
        | exists 3%nat; rewrite <- (committed_next _ _ _ _ 2 E1),
                                 <- (committed_next _ _ _ _ 1 E2),
                                 <- (committed_next _ _ _ _ 0 E3); reflexivity ].

(** Under any schedule, a call that reports an error has written nothing of
    its own: the database is what the other requests made of it during the
    round trips the call went through, and no path was revalidated. *)
Lemma error_means_only_others_wrote auth schedule w pollId raw :
  forall r w',
    run text auth schedule w (submitVote pollId raw) = (r, w') ->
    error r <> None ->
    exists k, w' = with_db w (exec_statements (db w) (committed schedule k)).
Proof.
  destruct w as [d paths]. unfold submitVote.
  cbn -[select_poll select_vote insert_vote next_tick].
  pose proof (eq_refl : next_tick [] = (quiet, [])) as E0.
  destruct (auth_error auth); [stops_after E0 E0 E0|].
  destruct (user auth) as [user|]; [|stops_after E0 E0 E0].
  destruct (coerce_option_index raw) as [i|]; [|stops_after E0 E0 E0].
  destruct (next_tick schedule) as [t1 s1] eqn:E1.
  rewrite (run_polls_select _ _ _ _ _ _ _ E1).
  cbn -[select_poll select_vote insert_vote next_tick run exec_statements].
  set (d1 := exec_statements d (others t1)).
  destruct (fault t1); [stops_after E1 E0 E0|].
  destruct (select_poll text d1 _ pollId) as [poll|e]; [|stops_after E1 E0 E0].
  destruct (poll_options poll) as [options|]; [|stops_after E1 E0 E0].
  destruct ((i <? 0) || _); [stops_after E1 E0 E0|].
  destruct (next_tick s1) as [t2 s2] eqn:E2.
  rewrite (run_votes_select _ _ _ _ _ _ _ _ E2).
  cbn -[select_poll select_vote insert_vote next_tick run exec_statements].
  set (d2 := exec_statements d1 (others t2)).
  destruct (fault t2); [stops_after E1 E2 E0|].
  destruct (select_vote text d2 pollId (AuthUser.id user)) as [[existing|]|e];
    [stops_after E1 E2 E0| |stops_after E1 E2 E0].
  destruct (next_tick s2) as [t3 s3] eqn:E3.
  rewrite (run_votes_insert _ _ _ _ _ _ _ _ _ E3).
  cbn -[select_poll select_vote insert_vote next_tick run exec_statements].
  set (d3 := exec_statements d2 (others t3)).
  destruct (fault t3).
  - destruct (duplicate_key_or_unique _); stops_after E1 E2 E3.
  - destruct (insert_vote d3 pollId (AuthUser.id user) i) as [d'|e].
    + cbn. intros r w' [= <- <-] Hr. now elim Hr.
    + destruct (duplicate_key_or_unique _); stops_after E1 E2 E3.
Qed.

Ltac reports_error :=
  cbn -[select_poll select_vote insert_vote next_tick];
  let H := fresh in
  let H' := fresh in
  intros r w' H H'; injection H as <- <-; discriminate H'.

(** Under any schedule, a call that reports no error went all the way: the
    session has a user, the index is an integer, and what the call wrote is
    the one insert of its third round trip, after which it revalidated the
    page of the poll. *)
Lemma success_means_one_insert auth schedule w pollId raw :
  forall r w',
    run text auth schedule w (submitVote pollId raw) = (r, w') ->
    error r = None ->
    exists u i,
      user auth = Some u /\ auth_error auth = None
      /\ coerce_option_index raw = integer i
      /\ insert_vote (exec_statements (db w) (committed schedule 3)) pollId (AuthUser.id u) i
         = inl (db w')
      /\ revalidated w' = revalidated w ++ [String.append "/polls/" pollId].
Proof.
  destruct w as [d paths]. unfold submitVote.
  cbn -[select_poll select_vote insert_vote next_tick].
  destruct (auth_error auth); [reports_error|].
  destruct (user auth) as [user|]; [|reports_error].
  destruct (coerce_option_index raw) as [i|]; [|reports_error].
  destruct (next_tick schedule) as [t1 s1] eqn:E1.
  rewrite (run_polls_select _ _ _ _ _ _ _ E1).
  cbn -[select_poll select_vote insert_vote next_tick run exec_statements].
  set (d1 := exec_statements d (others t1)).
  destruct (fault t1); [reports_error|].
  destruct (select_poll text d1 _ pollId) as [poll|e]; [|reports_error].
  destruct (poll_options poll) as [options|]; [|reports_error].
  destruct ((i <? 0) || _); [reports_error|].
  destruct (next_tick s1) as [t2 s2] eqn:E2.
  rewrite (run_votes_select _ _ _ _ _ _ _ _ E2).
  cbn -[select_poll select_vote insert_vote next_tick run exec_statements].
  set (d2 := exec_statements d1 (others t2)).
  destruct (fault t2); [reports_error|].
  destruct (select_vote text d2 pollId (AuthUser.id user)) as [[existing|]|e];
    [reports_error| |reports_error].
  destruct (next_tick s2) as [t3 s3] eqn:E3.
  rewrite (run_votes_insert _ _ _ _ _ _ _ _ _ E3).
  cbn -[select_poll select_vote insert_vote next_tick run exec_statements].
  set (d3 := exec_statements d2 (others t3)).
  assert (Hd3 : d3 = exec_statements d (committed schedule 3)).
  { rewrite <- (committed_next _ _ _ _ 2 E1), <- (committed_next _ _ _ _ 1 E2),
            <- (committed_next _ _ _ _ 0 E3). reflexivity. }
  destruct (fault t3).
  - destruct (duplicate_key_or_unique _); reports_error.
  - destruct (insert_vote d3 pollId (AuthUser.id user) i) as [d'|e] eqn:Hins.
    + cbn. intros r w' [= <- <-] _. exists user, i. simpl. rewrite <- Hd3.
      repeat split; [exact Hins].
    + destruct (duplicate_key_or_unique _); reports_error.
Qed.

Lemma committed_undisturbed schedule k : undisturbed schedule -> committed schedule k = [].
Proof.
  unfold undisturbed, committed. intros H. revert k.
  induction H as [|t rest Ht _ IH]; intros [|k]; simpl; try reflexivity.
  now rewrite Ht, IH.
Qed.


(** While no other request commits, a user who holds a vote row on a poll
    gets an error for every further call on that poll, whatever the index
    and wherever a round trip fails, and nothing changes. *)
Lemma holder_gets_an_error auth u schedule w pollId raw v :
  consistent (db w) -> user auth = Some u ->
  In v (votes (db w)) -> Votes.poll_id v = pollId -> Votes.user_id v = AuthUser.id u ->
  undisturbed schedule ->
  exists msg, run text auth schedule w (submitVote pollId raw) = ({| error := Some msg |}, w).
Proof.
  intros Hc Hu Hv Hvp Hvu Hs.
  destruct (run text auth schedule w (submitVote pollId raw)) as [[[msg|]] w'] eqn:Hrun.
  - exists msg. f_equal.
    apply (error_means_nothing_written auth schedule w pollId raw Hs _ w' Hrun). discriminate.
  - exfalso.
    destruct (success_means_one_insert auth schedule w pollId raw _ w' Hrun eq_refl)
      as (u' & i & Hu' & _ & _ & Hins & _).
    rewrite Hu in Hu'. injection Hu' as <-.
    rewrite (committed_undisturbed _ 3 Hs) in Hins. simpl in Hins.
    destruct (insert_vote_stored _ _ _ _ _ Hins) as (_ & _ & Hnone & _).
    assert (Hin : In v (votes_of (db w) pollId (AuthUser.id u))).
    { apply filter_In. split; [exact Hv|]. apply of_user_on_poll_iff.
      unfold vote_key. now rewrite Hvp, Hvu. }
    rewrite Hnone in Hin. destruct Hin.
Qed.

End Queries.

End PollActionsFacts.

(** * Properties of record_vote and get_poll_with_options *)

Module RecordVoteProperties.
Import ListFacts SchemaSql SchemaSqlFacts.

(** The two scenarios of the spec, run on [record_vote], with the votes
    counted option by option. Single choice, options sA and sB: bob asks
    for sA, sB, sA; all three calls return true, and sA has one vote, sB
    none. *)
Example scenario_single_choice :
  let cs := [by_voter "single" "sA" "bob"; by_voter "single" "sB" "bob";
             by_voter "single" "sA" "bob"] in
  let db := run_calls sample_db cs in
  held_options db "single" "bob" = ["sA"]
  /\ map (fun po => OptionJson.vote_count (option_json db "single" po))
         (poll_option_rows db "single") = [1; 0]
  /\ count_where (fun v => String.eqb (Votes.poll_id v) "single") (votes db) = 1.
Proof. repeat split; reflexivity. Qed.

(** Multiple choice, options mA, mB, mC: bob asks for mA, mB, mA; he holds
    mA and mB, and the votes are mA = 1, mB = 1, mC = 0, two in all. *)
Example scenario_multiple_choice :
  let cs := [by_voter "multi" "mA" "bob"; by_voter "multi" "mB" "bob";
             by_voter "multi" "mA" "bob"] in
  let db := run_calls sample_db cs in
  held_options db "multi" "bob" = ["mA"; "mB"]
  /\ map (fun po => OptionJson.vote_count (option_json db "multi" po))
         (poll_option_rows db "multi") = [1; 1; 0]
  /\ count_where (fun v => String.eqb (Votes.poll_id v) "multi") (votes db) = 2.
Proof. repeat split; reflexivity. Qed.

(** C4, as the code has it. A call of [record_vote] on a poll whose status
    is closed or draft raises 'Poll is not active', whatever the option, the
    voter and expires_at, and leaves every table as it was. *)
Theorem inactive_poll_rejects_votes db p poll_record o v :
  List.find (fun r => String.eqb (Polls.id r) p) (polls db) = Some poll_record ->
  Polls.status poll_record = Some closed \/ Polls.status poll_record = Some draft ->
  record_vote db p o v = (raised (raise_exception "Poll is not active"), db).
Proof.
  intros Hf Hs. unfold record_vote. rewrite Hf. now destruct Hs as [-> | ->].
Qed.

Lemma inactive_poll_rejects_votes_witness :
  record_vote sample_db "shut" "cA" "bob"
  = (raised (raise_exception "Poll is not active"), sample_db).
Proof.
  apply (inactive_poll_rejects_votes sample_db "shut"
           (mk_poll "shut" (Some closed) (Some false) None) "cA" "bob").
  - reflexivity.
  - left. reflexivity.
Defined.

(** C4 as stated fails where it speaks of expiry: the poll "expired" is
    active and its expires_at (500) lies before the time of the call (2000,
    the poll itself dates from 1000); [record_vote], which takes no time
    and reads no expires_at, stores the vote. *)
Lemma expired_poll_accepts_votes :
  let now := 2000 in
  let poll_record := mk_poll "expired" (Some active) (Some false) (Some 500) in
  List.find (fun r => String.eqb (Polls.id r) "expired") (polls sample_db) = Some poll_record
  /\ (exists t, Polls.expires_at poll_record = Some t /\ t < now)
  /\ fst (record_vote sample_db "expired" "eA" "bob") = returned true
  /\ votes (snd (record_vote sample_db "expired" "eA" "bob"))
     = [{| Votes.id := 0%N; Votes.poll_id := "expired";
           Votes.option_id := "eA"; Votes.voter_id := "bob" |}].
Proof.
  split; [reflexivity|]. split; [exists 500; split; [reflexivity|reflexivity]|].
  split; reflexivity.
Qed.

(** C5. On a poll with allow_multiple_votes that takes votes, for a voter
    who starts without a vote on it: after any sequence of calls of
    [record_vote] (by anyone, on any poll) the options of the voter's rows
    on the poll are, as a set, the options of the poll the voter asked for;
    no option is held twice; and when each of the voter's requests names an
    option of the poll, that set is the set of all options requested. *)
Theorem multiple_choice_holds_requested_options db cs p poll_record v :
  open_poll db p poll_record ->
  sql_is_true (Polls.allow_multiple_votes poll_record) = true ->
  has_profile db v ->
  votes_of db p v = [] ->
  let held := held_options (run_calls db cs) p v in
  list_to_set held =@{gset UUID} list_to_set (requested_options db p v cs)
  /\ List.NoDup held
  /\ (Forall (fun c => addressed p v c = true ->
                       existsb (option_of_poll p (call_option c)) (poll_options db) = true) cs ->
      list_to_set held
      =@{gset UUID} list_to_set (map call_option (List.filter (addressed p v) cs))).
Proof.
  intros Hp Hm Hv H0 held.
  destruct (multiple_choice_invariant db cs p poll_record v Hp Hm Hv H0) as [Hin Hnd].
  assert (Hset : list_to_set held =@{gset UUID} list_to_set (requested_options db p v cs)).
  { apply set_eq. intros o. rewrite !elem_of_list_to_set, !list_elem_of_In. apply Hin. }
  split; [exact Hset|]. split; [exact Hnd|].
  intros Hall. rewrite Hset. f_equal. unfold requested_options. f_equal.
  apply filter_ext_in. intros c Hc. rewrite List.Forall_forall in Hall.
  destruct (addressed p v c) eqn:Ha; [|reflexivity]. now rewrite (Hall c Hc Ha).
Qed.

Lemma multiple_choice_holds_requested_options_witness :
  let cs := [by_voter "multi" "mA" "bob"; by_voter "multi" "mB" "bob";
             by_voter "single" "sA" "bob"; by_voter "multi" "mA" "bob"] in
  let held := held_options (run_calls sample_db cs) "multi" "bob" in
  list_to_set held =@{gset UUID} list_to_set (requested_options sample_db "multi" "bob" cs)
  /\ List.NoDup held
  /\ (Forall (fun c => addressed "multi" "bob" c = true ->
                       existsb (option_of_poll "multi" (call_option c))
                               (poll_options sample_db) = true) cs ->
      list_to_set held
      =@{gset UUID} list_to_set (map call_option (List.filter (addressed "multi" "bob") cs))).
Proof.
  apply (multiple_choice_holds_requested_options sample_db _ "multi"
           (mk_poll "multi" (Some active) (Some true) None) "bob").
  - split; reflexivity.
  - reflexivity.
  - reflexivity.
  - reflexivity.
Defined.

(** C6 fails on the function as written: its sub-selects over public.votes
    name the column poll_id without a table, poll_id is also an output
    column of the function, and every call is refused with "column
    reference poll_id is ambiguous" before a row is returned. *)
Theorem get_poll_with_options_is_refused db poll_uuid :
  get_poll_with_options db poll_uuid = inr (ambiguous_column "poll_id").
Proof. reflexivity. Qed.

End RecordVoteProperties.

(** * Properties of submitVote *)

Module SubmitVoteProperties.
Import ListFacts PollActions PollActionsFacts.



Lemma sample_consistent : consistent (db bob_voted).
Proof.
  constructor; vm_compute.
  - repeat constructor. intros [].
  - repeat constructor. intros [].
  - repeat constructor.
  - repeat constructor. discriminate.
Defined.


(** C2 as stated fails: the request passes the duplicate check, a parallel
    request of the same user commits first, the insert hits the unique
    index, and the answer is an error, not a success. *)
Lemma raced_insert_is_not_a_success :
  select_vote pg_text (db sample_world) "p1" "bob" = data None
  /\ insert_vote (exec_statements (db sample_world) [other_insert_vote "p1" "bob" 0])
                 "p1" "bob" 1
     = inr (unique_violation "votes_unique_user_per_poll")
  /\ fst (serve pg_text sample_world raced_request)
     = {| error := Some "You have already voted in this poll." |}
  /\ error (fst (serve pg_text sample_world raced_request)) <> None.
Proof. vm_compute. repeat split. congruence. Qed.

(** C2, as the code has it. When the insert of a call that passed the poll
    and duplicate checks fails on the unique index, the call answers with
    an error: "You have already voted in this poll." when the message of
    the failure contains "duplicate key" or "unique" in any letter case,
    else that message ("Failed to submit vote" when it is empty). This
    holds for every index the call is given, a number or a string, that
    line 110 turns into the integer the checks passed, and whatever the
    other requests commit before each round trip; the database then holds
    what they committed and no row of this call. The conditions say that
    the session read the poll, found the index within its options and
    found no vote of the user, in three round trips that did not fail. *)
Theorem unique_violation_is_reported_as_error
    text u pollId raw i t1 t2 t3 rest w poll options index :
  let d1 := exec_statements (db w) (others t1) in
  let d2 := exec_statements d1 (others t2) in
  let d3 := exec_statements d2 (others t3) in
  coerce_option_index raw = integer i ->
  fault t1 = None -> fault t2 = None -> fault t3 = None ->
  select_poll text d1 (Some u) pollId = data poll -> poll_options poll = array options ->
  0 <= i < Z.of_nat (length options) ->
  select_vote text d2 pollId u = data None ->
  insert_vote d3 pollId u i = inr (unique_violation index) ->
  let msg := message_or {| message := text (unique_violation index) |}
                        "Failed to submit vote" in
  run text (session u) (t1 :: t2 :: t3 :: rest) w (submitVote pollId raw)
  = ({| error := Some (if duplicate_key_or_unique msg
                       then "You have already voted in this poll."
                       else msg) |},
     with_db w d3).
Proof.
  intros d1 d2 d3 Hraw F1 F2 F3 Hp Ho Hb Hv Hi msg.
  exact (failed_insert_is_reported text u pollId raw i t1 t2 t3 rest w poll options _
           Hraw F1 F2 F3 Hp Ho Hb Hv Hi).
Qed.

Lemma unique_violation_is_reported_as_error_witness :
  run pg_text (session "bob") (req_schedule raced_request) sample_world
      (submitVote "p1" (raw_string "1st"))
  = ({| error := Some "You have already voted in this poll." |},
     with_db sample_world
             (exec_statements (db sample_world) [other_insert_vote "p1" "bob" 0])).
Proof.
  apply (unique_violation_is_reported_as_error pg_text "bob" "p1" (raw_string "1st") 1
           quiet quiet {| others := [other_insert_vote "p1" "bob" 0]; fault := None |} []
           sample_world
           {| poll_id := "p1"; poll_options := array ["tabs"; "spaces"] |}
           ["tabs"; "spaces"] "votes_unique_user_per_poll").
  - reflexivity.
  - reflexivity.
  - reflexivity.
  - reflexivity.
  - reflexivity.
  - reflexivity.
  - simpl. lia.
  - reflexivity.
  - reflexivity.
Defined.

(** C3 as stated fails for [submitVote]: bob asks for option 0 and then for
    option 1 of poll p1; the second request is turned away and the one row
    bob holds still names option 0, not the most recent request. *)
Lemma later_choice_is_not_stored :
  let w := serve_all pg_text sample_world [ask "bob" "p1" 0; ask "bob" "p1" 1] in
  map Votes.option_index (votes_of (db w) "p1" "bob") = [0]
  /\ fst (serve pg_text bob_voted (ask "bob" "p1" 1))
     = {| error := Some "You have already voted in this poll." |}.
Proof. vm_compute. split; reflexivity. Qed.

(** C10 as stated fails where it names the error of every later call: bob
    holds a vote on poll p1 and asks for index 5, which the poll does not
    have; the answer is "Invalid option.", not "You have already voted in
    this poll.". The same world under the policies the README lists, where
    no session reads a poll, answers bob's valid request with the error of
    the query that found no row. In both cases bob's row stays as it is. *)
Lemma later_call_is_answered_with_another_error :
  let hidden_world := unread bob_voted in
  votes_of (db bob_voted) "p1" "bob" = [bobs_vote]
  /\ serve pg_text bob_voted (ask "bob" "p1" 5)
     = ({| error := Some "Invalid option." |}, bob_voted)
  /\ serve pg_text hidden_world (ask "bob" "p1" 1)
     = ({| error := Some (pg_text no_rows) |}, hidden_world)
  /\ "Invalid option." <> "You have already voted in this poll."
  /\ pg_text no_rows <> "You have already voted in this poll.".
Proof. vm_compute. repeat split; congruence. Qed.

(** C10, as the code has it. Whatever calls are served and whatever other
    requests commit, a user never holds more than one vote row on a poll.
    A user who holds one gets an error for every further call on that
    poll while no other request commits, for the same or another option,
    whatever the index and whichever round trip fails, and the database is
    left as it was; the error is "You have already voted in this poll."
    when the session reads the poll, the index is within its options and
    the two reads of the call are served without a fault. And so, while no
    other request commits, the row the user holds on the poll stays the
    one row whatever is asked. *)
Theorem one_vote_per_user_and_poll text :
  (forall auth schedule w pollId raw p u,
      consistent (db w) ->
      (length (votes_of (db (snd (run text auth schedule w (submitVote pollId raw)))) p u)
       <= 1)%nat)
  /\ (forall u raw pollId v w schedule,
         consistent (db w) ->
         In v (votes (db w)) -> Votes.poll_id v = pollId -> Votes.user_id v = u ->
         undisturbed schedule ->
         exists msg,
           run text (session u) schedule w (submitVote pollId raw)
           = ({| error := Some msg |}, w))
  /\ (forall u raw p i v w schedule,
         consistent (db w) ->
         In p (polls (db w)) -> readable (db w) u p -> valid_index raw p i ->
         In v (votes (db w)) -> Votes.poll_id v = Polls.id p -> Votes.user_id v = u ->
         quiet_start 2 schedule ->
         run text (session u) schedule w (submitVote (Polls.id p) raw)
         = ({| error := Some "You have already voted in this poll." |}, w))
  /\ (forall w rs v,
         consistent (db w) -> In v (votes (db w)) ->
         Forall (fun r => undisturbed (req_schedule r)) rs ->
         votes_of (db (serve_all text w rs)) (Votes.poll_id v) (Votes.user_id v) = [v]).
Proof.
  split; [|split; [|split]].
  - intros auth schedule w pollId raw p u Hc.
    apply at_most_one_vote. now apply run_consistent.
  - intros u raw pollId v w schedule Hc Hv Hvp Hvu Hs.
    exact (holder_gets_an_error text (session u) {| AuthUser.id := u |} schedule w pollId
             raw v Hc eq_refl Hv Hvp Hvu Hs).
  - intros u raw p i v w schedule Hc Hp Hr Hi Hv Hvp Hvu Hq.
    rewrite (quiet_start_two text schedule Hq).
    exact (holder_is_turned_away text u raw p i v w Hc Hp Hr Hi Hv Hvp Hvu _).
  - intros w rs v Hc Hin Hrs. exact (first_vote_stays text w rs v Hc Hin Hrs).
Qed.

Lemma one_vote_per_user_and_poll_witness :
  run pg_text (session "bob") [] bob_voted (submitVote "p1" (raw_number (integer 1)))
  = ({| error := Some "You have already voted in this poll." |}, bob_voted)
  /\ (exists msg,
         run pg_text (session "bob") [{| others := []; fault := Some {| message := "timeout" |} |}]
             bob_voted (submitVote "p1" (raw_string "7"))
         = ({| error := Some msg |}, bob_voted))
  /\ (length (votes_of (db (snd (serve pg_text sample_world raced_request))) "p1" "bob")
      <= 1)%nat
  /\ votes_of (db (serve_all pg_text bob_voted [ask "bob" "p1" 1; ask "carol" "p1" 1]))
              "p1" "bob"
     = [bobs_vote].
Proof.
  pose proof (one_vote_per_user_and_poll pg_text) as (H1 & H2 & H3 & H4).
  split; [|split; [|split]].
  - apply (H3 "bob" (raw_number (integer 1)) sample_poll 1 bobs_vote bob_voted).
    + exact sample_consistent.
    + vm_compute. tauto.
    + reflexivity.
    + split; [reflexivity|simpl; lia].
    + vm_compute. tauto.
    + reflexivity.
    + reflexivity.
    + constructor.
  - apply (H2 "bob" (raw_string "7") "p1" bobs_vote bob_voted).
    + exact sample_consistent.
    + vm_compute. tauto.
    + reflexivity.
    + reflexivity.
    + repeat constructor.
  - apply H1. constructor; vm_compute; repeat constructor. intros [].
  - apply (H4 bob_voted _ bobs_vote).
    + exact sample_consistent.
    + vm_compute. tauto.
    + repeat constructor.
Defined.

End SubmitVoteProperties.

(** * Properties shared by both paths *)

Module VoteLedgerProperties.
Import ListFacts.

(** C3, as the code has it.
    - [record_vote]: on a single-choice poll that takes votes, after any
      sequence of calls (by anyone, on any poll) in which the voter asked at
      least once for an option of the poll, the voter holds exactly one vote
      row on the poll, and it names the option of the last such request; a
      voter who never asked for an option of the poll holds what they held
      before.
    - [submitVote], which knows no poll mode, keeps the first vote instead:
      while no other request commits, whatever requests are served, a user
      who holds a vote row on a poll holds exactly that row afterwards. *)
Theorem single_choice_vote_after_any_sequence :
  (forall db cs p poll_record v,
      SchemaSql.open_poll db p poll_record ->
      SchemaSql.sql_is_true (SchemaSql.Polls.allow_multiple_votes poll_record) = false ->
      SchemaSql.has_profile db v ->
      (forall earlier o,
          SchemaSql.requested_options db p v cs = earlier ++ [o] ->
          exists r, SchemaSql.votes_of (SchemaSql.run_calls db cs) p v = [r]
                    /\ SchemaSql.Votes.option_id r = o)
      /\ (SchemaSql.requested_options db p v cs = [] ->
          SchemaSql.votes_of (SchemaSql.run_calls db cs) p v = SchemaSql.votes_of db p v))
  /\ (forall text w rs v,
         PollActions.consistent (PollActions.db w) ->
         In v (PollActions.votes (PollActions.db w)) ->
         Forall (fun r => PollActions.undisturbed (PollActions.req_schedule r)) rs ->
         PollActions.votes_of (PollActions.db (PollActions.serve_all text w rs))
                              (PollActions.Votes.poll_id v) (PollActions.Votes.user_id v)
         = [v]).
Proof.
  split.
  - intros db cs p poll_record v Hp Hm Hv.
    pose proof (SchemaSqlFacts.single_choice_invariant db cs p poll_record v Hp Hm Hv) as H.
    split.
    + intros earlier o E. rewrite E, rev_app_distr in H. exact H.
    + intros E. rewrite E in H. exact H.
  - intros text w rs v Hc Hin Hrs.
    exact (PollActionsFacts.first_vote_stays text w rs v Hc Hin Hrs).
Qed.

Lemma single_choice_vote_after_any_sequence_witness :
  (exists r,
      SchemaSql.votes_of
        (SchemaSql.run_calls SchemaSql.sample_db
           [SchemaSql.by_voter "single" "sA" "bob"; SchemaSql.by_voter "single" "sB" "bob";
            SchemaSql.by_voter "multi" "mA" "bob"; SchemaSql.by_voter "single" "zz" "bob"])
        "single" "bob" = [r]
      /\ SchemaSql.Votes.option_id r = "sB")
  /\ PollActions.votes_of
       (PollActions.db
          (PollActions.serve_all PollActions.pg_text PollActions.bob_voted
             [PollActions.ask "bob" "p1" 1; PollActions.ask "bob" "p1" 0]))
       "p1" "bob"
     = [PollActions.bobs_vote].
Proof.
  pose proof single_choice_vote_after_any_sequence as [H1 H2].
  split.
  - refine (proj1 (H1 SchemaSql.sample_db
                      [SchemaSql.by_voter "single" "sA" "bob"; SchemaSql.by_voter "single" "sB" "bob";
                       SchemaSql.by_voter "multi" "mA" "bob"; SchemaSql.by_voter "single" "zz" "bob"]
                      "single" (SchemaSql.mk_poll "single" (Some SchemaSql.active) (Some false) None)
                      "bob" _ _ _) ["sA"] "sB" _); try reflexivity.
    split; reflexivity.
  - apply (H2 PollActions.pg_text PollActions.bob_voted _ PollActions.bobs_vote).
    + exact SubmitVoteProperties.sample_consistent.
    + vm_compute. tauto.
    + repeat constructor.
Defined.

(** C7 as stated fails on a closed poll: "zz" is no option of the poll
    "shut", and [record_vote] answers 'Poll is not active', not 'Invalid
    option for this poll'. *)
Lemma closed_poll_answers_before_option_check :
  existsb (SchemaSql.option_of_poll "shut" "zz") (SchemaSql.poll_options SchemaSql.sample_db)
  = false
  /\ SchemaSql.record_vote SchemaSql.sample_db "shut" "zz" "bob"
     = (SchemaSql.raised (SchemaSql.raise_exception "Poll is not active"), SchemaSql.sample_db).
Proof. split; reflexivity. Qed.

(** C7, as the code has it. A request for something that is no option of
    the poll is refused as an invalid option once the earlier checks have
    passed, whatever the poll's mode, and never adds a vote row:
    - [submitVote], user signed in: an index that is no integer is refused
      before any round trip; an integer index below 0 or at or beyond the
      number of options (or an options value that is no array) is refused
      once the poll has been read;
    - [record_vote]: on a poll that exists and whose status is not closed
      or draft the call raises 'Invalid option for this poll'; on any poll
      the call raises and leaves the tables as they were. *)
Theorem invalid_option_is_refused_after_earlier_checks :
  (forall text u raw schedule w pollId,
      PollActions.coerce_option_index raw = PollActions.not_integer ->
      PollActions.run text (PollActions.session u) schedule w
                      (PollActions.submitVote pollId raw)
      = ({| PollActions.error := Some "Invalid option." |}, w))
  /\ (forall text u raw i schedule t rest w pollId poll,
         PollActions.coerce_option_index raw = PollActions.integer i ->
         PollActions.next_tick schedule = (t, rest) ->
         PollActions.fault t = None ->
         PollActions.select_poll text
           (PollActions.exec_statements (PollActions.db w) (PollActions.others t))
           (Some u) pollId
         = PollActions.data poll ->
         match PollActions.poll_options poll with
         | PollActions.array options => i < 0 \/ Z.of_nat (length options) <= i
         | PollActions.not_array => True
         end ->
         PollActions.run text (PollActions.session u) schedule w
                         (PollActions.submitVote pollId raw)
         = ({| PollActions.error := Some "Invalid option." |},
            PollActions.with_db w
              (PollActions.exec_statements (PollActions.db w) (PollActions.others t))))
  /\ (forall db p poll_record o v,
         SchemaSql.open_poll db p poll_record ->
         existsb (SchemaSql.option_of_poll p o) (SchemaSql.poll_options db) = false ->
         SchemaSql.record_vote db p o v
         = (SchemaSql.raised (SchemaSql.raise_exception "Invalid option for this poll"), db))
  /\ (forall db p o v,
         existsb (SchemaSql.option_of_poll p o) (SchemaSql.poll_options db) = false ->
         exists e, SchemaSql.record_vote db p o v = (SchemaSql.raised e, db)).
Proof.
  split; [|split; [|split]].
  - intros. now apply PollActionsFacts.not_an_integer_is_refused.
  - intros text u raw i schedule t rest w pollId poll Hi E Hf Hp Hb.
    exact (PollActionsFacts.out_of_bounds_is_refused text u raw i schedule t rest w pollId poll
             Hi E Hf Hp Hb).
  - intros db p poll_record o v [Hf Hs] Ho. unfold SchemaSql.record_vote.
    now rewrite Hf, Hs, Ho.
  - intros db p o v Ho. unfold SchemaSql.record_vote.
    destruct (List.find _ (SchemaSql.polls db)); [|eexists; reflexivity].
    destruct (SchemaSql.sql_is_true _); [eexists; reflexivity|].
    rewrite Ho. eexists. reflexivity.
Qed.

Lemma invalid_option_is_refused_after_earlier_checks_witness :
  PollActions.serve PollActions.pg_text PollActions.sample_world
    {| PollActions.req_auth := PollActions.session "bob"; PollActions.req_poll := "p1";
       PollActions.req_option := PollActions.raw_string "two";
       PollActions.req_schedule := [] |}
  = ({| PollActions.error := Some "Invalid option." |}, PollActions.sample_world)
  /\ PollActions.serve PollActions.pg_text PollActions.sample_world (PollActions.ask "bob" "p1" 2)
     = ({| PollActions.error := Some "Invalid option." |}, PollActions.sample_world)
  /\ SchemaSql.record_vote SchemaSql.sample_db "single" "mA" "bob"
     = (SchemaSql.raised (SchemaSql.raise_exception "Invalid option for this poll"),
        SchemaSql.sample_db).
Proof.
  pose proof invalid_option_is_refused_after_earlier_checks as (H1 & H2 & H3 & _).
  split; [|split].
  - apply (H1 PollActions.pg_text "bob" (PollActions.raw_string "two")). reflexivity.
  - apply (H2 PollActions.pg_text "bob" _ 2 [] PollActions.quiet [] PollActions.sample_world "p1"
              {| PollActions.poll_id := "p1";
                 PollActions.poll_options := PollActions.array ["tabs"; "spaces"] |});
      try reflexivity.
    right. simpl. lia.
  - apply (H3 SchemaSql.sample_db "single"
              (SchemaSql.mk_poll "single" (Some SchemaSql.active) (Some false) None));
      [split|]; reflexivity.
Defined.

(** C8. A request that fails validation writes nothing.
    - [submitVote]: whenever the answer carries an error, no path was
      revalidated and the database is what the other requests made of it
      during the round trips of the call; with no other request committing,
      the database is as before. A session without a user is answered with
      an error ("You must be logged in to vote." when the auth call
      reported none) and a poll that cannot be read with the error of that
      query.
    - [record_vote]: a call that raises leaves every table as it was, and
      an unknown poll raises 'Poll not found'. *)
Theorem failed_validation_writes_nothing :
  (forall text auth schedule w pollId raw r w',
      PollActions.run text auth schedule w (PollActions.submitVote pollId raw) = (r, w') ->
      PollActions.error r <> None ->
      exists k,
        w' = PollActions.with_db w
               (PollActions.exec_statements (PollActions.db w)
                                            (PollActions.committed schedule k)))
  /\ (forall text auth schedule w pollId raw r w',
         PollActions.undisturbed schedule ->
         PollActions.run text auth schedule w (PollActions.submitVote pollId raw) = (r, w') ->
         PollActions.error r <> None -> w' = w)
  /\ (forall text auth schedule w pollId raw,
         PollActions.user auth = None ->
         exists msg,
           PollActions.run text auth schedule w (PollActions.submitVote pollId raw)
           = ({| PollActions.error := Some msg |}, w)
           /\ (PollActions.auth_error auth = None -> msg = "You must be logged in to vote."))
  /\ (forall text u raw i w pollId e,
         PollActions.coerce_option_index raw = PollActions.integer i ->
         PollActions.select_poll text (PollActions.db w) (Some u) pollId
         = PollActions.failure e ->
         PollActions.run text (PollActions.session u) [] w (PollActions.submitVote pollId raw)
         = ({| PollActions.error := Some (PollActions.message e) |}, w))
  /\ (forall db p o v e db',
         SchemaSql.record_vote db p o v = (SchemaSql.raised e, db') -> db' = db)
  /\ (forall db p o v,
         List.find (fun r => String.eqb (SchemaSql.Polls.id r) p) (SchemaSql.polls db) = None ->
         SchemaSql.record_vote db p o v
         = (SchemaSql.raised (SchemaSql.raise_exception "Poll not found"), db)).
Proof.
  split; [|split; [|split; [|split; [|split]]]].
  - intros text auth schedule w pollId raw r w' Hr He.
    exact (PollActionsFacts.error_means_only_others_wrote text auth schedule w pollId raw
             r w' Hr He).
  - intros text auth schedule w pollId raw r w' Hs Hr He.
    exact (PollActionsFacts.error_means_nothing_written text auth schedule w pollId raw Hs r w' Hr He).
  - intros. now apply PollActionsFacts.unauthenticated_is_refused.
  - intros text u raw i w pollId e Hi He.
    rewrite (PollActionsFacts.unreadable_poll_is_refused text u raw i [] PollActions.quiet [] w
               pollId Hi eq_refl e He).
    simpl. now rewrite PollActionsFacts.with_db_same.
  - intros db p o v e db' H. exact (SchemaSqlFacts.record_vote_raised db p o v e db' H).
  - intros db p o v Hf. unfold SchemaSql.record_vote. now rewrite Hf.
Qed.

Lemma failed_validation_writes_nothing_witness :
  PollActions.serve PollActions.pg_text PollActions.sample_world
    {| PollActions.req_auth := PollActions.no_session; PollActions.req_poll := "p1";
       PollActions.req_option := PollActions.raw_number (PollActions.integer 0);
       PollActions.req_schedule := [] |}
  = ({| PollActions.error := Some "You must be logged in to vote." |}, PollActions.sample_world)
  /\ snd (PollActions.serve PollActions.pg_text PollActions.sample_world
            (PollActions.ask "bob" "p2" 0))
     = PollActions.sample_world
  /\ SchemaSql.record_vote SchemaSql.sample_db "nowhere" "sA" "bob"
     = (SchemaSql.raised (SchemaSql.raise_exception "Poll not found"), SchemaSql.sample_db).
Proof.
  pose proof failed_validation_writes_nothing as (_ & H1 & H2 & _ & _ & H5).
  split; [|split].
  - destruct (H2 PollActions.pg_text PollActions.no_session [] PollActions.sample_world "p1"
                 (PollActions.raw_number (PollActions.integer 0)) eq_refl) as (msg & Hrun & Hmsg).
    unfold PollActions.serve. simpl PollActions.req_auth. simpl PollActions.req_schedule.
    simpl PollActions.req_poll. simpl PollActions.req_option.
    rewrite Hrun, (Hmsg eq_refl). reflexivity.
  - apply (H1 PollActions.pg_text (PollActions.session "bob") [] PollActions.sample_world "p2"
              (PollActions.raw_number (PollActions.integer 0))
              (fst (PollActions.serve PollActions.pg_text PollActions.sample_world
                      (PollActions.ask "bob" "p2" 0)))).
    + constructor.
    + reflexivity.
    + vm_compute. congruence.
  - apply (H5 SchemaSql.sample_db "nowhere"). reflexivity.
Defined.

(** C9. No two vote rows share poll, voter and option:
    - whatever calls of [record_vote] run on a [votes] table that meets its
      UNIQUE(poll_id, voter_id, option_id), the table meets it afterwards;
    - whatever requests [submitVote] serves and whatever other requests
      commit meanwhile on tables that meet the README's constraints, no two
      vote rows share (poll_id, user_id, option_index). *)
Theorem no_two_votes_share_a_key :
  (forall db cs,
      List.NoDup (map SchemaSql.vote_key (SchemaSql.votes db)) ->
      List.NoDup (map SchemaSql.vote_key (SchemaSql.votes (SchemaSql.run_calls db cs))))
  /\ (forall text w rs,
         PollActions.consistent (PollActions.db w) ->
         List.NoDup (map PollActions.vote_triple
                         (PollActions.votes (PollActions.db (PollActions.serve_all text w rs))))).
Proof.
  split.
  - intros db cs H. now apply SchemaSqlFacts.run_calls_keep_unique.
  - intros text w rs Hc.
    pose proof (PollActionsFacts.serve_all_consistent text w rs Hc) as Hc'.
    apply (NoDup_map_finer PollActions.vote_key);
      [|apply (PollActions.votes_unique_user_per_poll _ Hc')].
    unfold PollActions.vote_triple, PollActions.vote_key. intros x y [= -> -> _]. reflexivity.
Qed.

Lemma no_two_votes_share_a_key_witness :
  List.NoDup
    (map SchemaSql.vote_key
         (SchemaSql.votes
            (SchemaSql.run_calls SchemaSql.sample_db
               [SchemaSql.by_voter "multi" "mA" "bob";
                SchemaSql.by_voter "multi" "mA" "bob";
                SchemaSql.by_voter "single" "sA" "bob";
                SchemaSql.by_voter "single" "sA" "bob"])))
  /\ List.NoDup
       (map PollActions.vote_triple
            (PollActions.votes
               (PollActions.db
                  (PollActions.serve_all PollActions.pg_text PollActions.sample_world
                     [PollActions.ask "bob" "p1" 0; PollActions.ask "bob" "p1" 0;
                      PollActions.raced_request])))).
Proof.
  pose proof no_two_votes_share_a_key as [H1 H2].
  split.
  - apply H1. constructor.
  - apply H2. constructor; vm_compute; repeat constructor. intros [].
Defined.

End VoteLedgerProperties.

(** * Facts about the other poll actions *)

Module PollManagementFacts.
Import ListFacts PollActions PollActionsFacts PollManagement.

(** ** Forms *)

Lemma filter_Boolean_nonempty values : Forall (fun o => o <> "") (filter_Boolean values).
Proof.
  apply List.Forall_forall. intros o Ho. apply filter_In in Ho. destruct Ho as [_ Ho].
  apply negb_true_iff in Ho. now apply String.eqb_neq.
Qed.

(** What passes the check of createPoll and updatePoll. *)
Lemma validated_some formData question options :
  validated formData = Some (question, options) <->
  formData_get formData "question" = Some question
  /\ question <> ""
  /\ options = filter_Boolean (formData_getAll formData "options")
  /\ (2 <= length options)%nat.
Proof.
  unfold validated. destruct (formData_get formData "question") as [[|c q]|].
  - split; [discriminate|]. intros ([= <-] & H & _). now elim H.
  - destruct (length _ <? 2)%nat eqn:E.
    + split; [discriminate|]. intros ([= <-] & _ & -> & H).
      apply Nat.ltb_lt in E. lia.
    + apply Nat.ltb_ge in E. split.
      * intros [= <- <-]. repeat split; [discriminate|exact E].
      * intros ([= <-] & _ & -> & _). reflexivity.
  - split; [discriminate|]. intros (H & _). discriminate.
Qed.

Lemma validated_none formData :
  validated formData = None <->
  formData_get formData "question" = None
  \/ formData_get formData "question" = Some ""
  \/ (length (filter_Boolean (formData_getAll formData "options")) < 2)%nat.
Proof.
  unfold validated. destruct (formData_get formData "question") as [[|c q]|].
  - split; [auto|reflexivity].
  - destruct (length _ <? 2)%nat eqn:E.
    + apply Nat.ltb_lt in E. split; [auto|reflexivity].
    + apply Nat.ltb_ge in E. split; [discriminate|].
      intros [H|[H|H]]; [discriminate|discriminate|lia].
  - split; [auto|reflexivity].
Qed.

(** ** The constraints hold whatever is committed *)

Lemma insert_poll_as_statement d p d' :
  insert_poll d p = inl d' -> d' = exec_statement d (other_insert_poll p).
Proof.
  unfold insert_poll. simpl.
  destruct (existsb _ (polls d)); [discriminate|]. now intros [= <-].
Qed.

Lemma after_fault_consistent t d d' :
  consistent d -> consistent d' -> consistent (after_fault t d d').
Proof. intros H H'. unfold after_fault. now destruct (reply_lost t). Qed.

Section Client.

Variable text : pg_error -> string.

Lemma run_crud_consistent {A : Type} (a : Crud A) :
  forall new auth schedule w,
    consistent (db w) -> consistent (db (snd (run_crud text new auth schedule w a))).
Proof.
  induction a as [r|k IH|u q os k IH|u k IH|id k IH|id u k IH|id u q os k IH|path k IH];
    intros new auth schedule w Hc; simpl.
  - exact Hc.
  - now apply IH.
  - destruct (next_trip schedule) as [t rest].
    pose proof (exec_statements_consistent _ (others (tick_of t)) Hc) as Hc'.
    assert (Hin : forall d', insert_poll (exec_statements (db w) (others (tick_of t)))
                               {| Polls.id := gen_random_uuid new; Polls.user_id := u;
                                  Polls.question := q; Polls.options := os;
                                  Polls.created_at := now new |} = inl d' ->
                             consistent d').
    { intros d' E. rewrite (insert_poll_as_statement _ _ _ E).
      now apply exec_statement_consistent. }
    destruct (insert_poll _ _) as [d'|e]; destruct (fault (tick_of t)); apply IH; simpl;
      try exact Hc'; try (apply after_fault_consistent; [exact Hc'|]);
      try exact Hc'; now apply Hin.
  - destruct (next_trip schedule) as [t rest]. apply IH. simpl.
    now apply exec_statements_consistent.
  - destruct (next_trip schedule) as [t rest]. apply IH. simpl.
    now apply exec_statements_consistent.
  - destruct (next_trip schedule) as [t rest].
    pose proof (exec_statements_consistent _ (others (tick_of t)) Hc) as Hc'.
    pose proof (exec_statement_consistent _ (other_delete_poll id u) Hc') as Hc''.
    destruct (fault (tick_of t)); apply IH; [now apply after_fault_consistent|exact Hc''].
  - destruct (next_trip schedule) as [t rest].
    pose proof (exec_statements_consistent _ (others (tick_of t)) Hc) as Hc'.
    pose proof (exec_statement_consistent _ (other_update_poll id u q os) Hc') as Hc''.
    destruct (fault (tick_of t)); apply IH; [now apply after_fault_consistent|exact Hc''].
  - now apply IH.
Qed.

Lemma select_poll_row_found d uid p :
  consistent d -> In p (polls d) -> polls_select d uid p = true ->
  select_poll_row text d uid (Polls.id p) = data p.
Proof.
  intros Hc Hin Hr. unfold select_poll_row. now rewrite (readable_poll_rows d uid p Hc Hin Hr).
Qed.

Lemma no_readable_row d uid id :
  existsb (fun p => String.eqb (Polls.id p) id) (polls d) = false \/ hidden d uid ->
  List.filter (fun p => String.eqb (Polls.id p) id) (readable_polls d uid) = [].
Proof.
  intros H. apply filter_none. apply not_true_iff_false. intros E.
  destruct H as [H|H].
  - apply existsb_filter in E. congruence.
  - apply existsb_exists in E. destruct E as (p & Hp & _). apply filter_In in Hp.
    destruct Hp as [Hp Hr]. now rewrite (H p Hp) in Hr.
Qed.

Lemma select_poll_row_missing d uid id :
  existsb (fun p => String.eqb (Polls.id p) id) (polls d) = false \/ hidden d uid ->
  select_poll_row text d uid id = failure {| message := text no_rows |}.
Proof. intros H. unfold select_poll_row. now rewrite (no_readable_row d uid id H). Qed.

Lemma select_poll_missing d uid id :
  existsb (fun p => String.eqb (Polls.id p) id) (polls d) = false \/ hidden d uid ->
  select_poll text d uid id = failure {| message := text no_rows |}.
Proof. intros H. unfold select_poll. now rewrite (no_readable_row d uid id H). Qed.

End Client.

(** ** What the statements do to the tables *)

Lemma own_poll_of_owner d p q :
  consistent d -> In p (polls d) -> In q (polls d) -> readable d (Polls.user_id p) p ->
  own_poll d (Polls.id p) (Polls.user_id p) q = String.eqb (Polls.id q) (Polls.id p).
Proof.
  intros Hc Hp Hq Hr. unfold own_poll.
  destruct (String.eqb (Polls.id q) (Polls.id p)) eqn:E.
  - apply String.eqb_eq in E.
    rewrite (key_identifies Polls.id (polls d) q p (polls_pkey d Hc) Hq Hp E).
    unfold readable in Hr. now rewrite Hr, String.eqb_refl.
  - now rewrite andb_false_r.
Qed.

Lemma not_owner_no_match d id u p :
  not_owner d id u \/ hidden d (Some u) -> In p (polls d) -> own_poll d id u p = false.
Proof.
  intros [Hn|Hh] Hp; unfold own_poll.
  - destruct (String.eqb (Polls.id p) id) eqn:E; [|now rewrite andb_false_r].
    apply String.eqb_eq in E. rewrite andb_true_r. apply andb_false_iff. right.
    apply String.eqb_neq. now apply (Hn p).
  - now rewrite (Hh p Hp).
Qed.

Lemma delete_own_poll d p :
  consistent d -> In p (polls d) -> readable d (Polls.user_id p) p ->
  exec_statement d (other_delete_poll (Polls.id p) (Polls.user_id p))
  = without_poll d (Polls.id p).
Proof.
  intros Hc Hp Hr. cbn [exec_statement].
  replace (existsb _ (polls d)) with true.
  - unfold without_poll. f_equal. apply filter_ext_In. intros q Hq.
    now rewrite (own_poll_of_owner d p q Hc Hp Hq Hr).
  - symmetry. apply existsb_exists. exists p. split; [exact Hp|].
    rewrite (own_poll_of_owner d p p Hc Hp Hp Hr). apply String.eqb_refl.
Qed.

Lemma delete_foreign_poll d id u :
  not_owner d id u \/ hidden d (Some u) -> exec_statement d (other_delete_poll id u) = d.
Proof.
  intros Hn. cbn [exec_statement].
  replace (existsb _ (polls d)) with false; [reflexivity|].
  symmetry. apply not_true_iff_false. intros H. apply existsb_exists in H.
  destruct H as (p & Hp & H). now rewrite (not_owner_no_match d id u p Hn Hp) in H.
Qed.

Lemma update_own_poll d p question options :
  consistent d -> In p (polls d) -> readable d (Polls.user_id p) p ->
  exec_statement d (other_update_poll (Polls.id p) (Polls.user_id p) question options)
  = with_revised d p question options.
Proof.
  intros Hc Hp Hr. cbn [exec_statement]. unfold with_revised. f_equal. apply map_ext_in.
  intros q Hq. now rewrite (own_poll_of_owner d p q Hc Hp Hq Hr).
Qed.

Lemma update_foreign_poll d id u question options :
  not_owner d id u \/ hidden d (Some u) ->
  exec_statement d (other_update_poll id u question options) = d.
Proof.
  intros Hn. destruct d as [ps vs n sel]. cbn [exec_statement polls votes next_vote_id
                                                 polls_select]. f_equal.
  rewrite <- (map_id ps) at 2. apply map_ext_in. intros q Hq.
  now rewrite (not_owner_no_match _ id u q Hn Hq).
Qed.

Lemma without_poll_missing d id :
  existsb (fun p => String.eqb (Polls.id p) id) (polls (without_poll d id)) = false.
Proof.
  apply not_true_iff_false. intros H. apply existsb_exists in H.
  destruct H as (p & Hp & E). simpl in Hp. apply filter_In in Hp.
  destruct Hp as [_ Hp]. now rewrite E in Hp.
Qed.

Lemma with_revised_In d p question options :
  In p (polls d) -> In (revised p question options) (polls (with_revised d p question options)).
Proof.
  intros Hp. simpl. apply in_map_iff. exists p. split; [|exact Hp].
  now rewrite String.eqb_refl.
Qed.

(** ** The order of getUserPolls *)

Lemma newest_first_sort l : newest_first l = sort_by newer l.
Proof.
  induction l as [|x l IH]; simpl; [reflexivity|]. rewrite IH.
  generalize (sort_by newer l). intros s. induction s as [|y s IHs]; simpl; [reflexivity|].
  unfold newer at 1. now rewrite IHs.
Qed.

Lemma newest_first_perm l : Permutation (newest_first l) l.
Proof. rewrite newest_first_sort. apply sort_by_perm. Qed.

Lemma newest_first_sorted l :
  StronglySorted (fun a b => Polls.created_at b <= Polls.created_at a) (newest_first l).
Proof.
  rewrite newest_first_sort.
  assert (H : StronglySorted (fun a b => newer a b = true) (sort_by newer l)).
  { apply sort_by_sorted; unfold newer.
    - intros x y. rewrite !Z.leb_le. lia.
    - intros x y z. rewrite !Z.leb_le. lia. }
  induction H as [|a s Hs IH Ha]; constructor; [exact IH|].
  eapply List.Forall_impl; [|exact Ha]. intros b Hb. now apply Z.leb_le.
Qed.

Lemma newest_first_latest l x :
  Forall (fun y => Polls.created_at y < Polls.created_at x) l ->
  newest_first (l ++ [x]) = x :: newest_first l.
Proof.
  induction 1 as [|y l Hy _ IH]; [reflexivity|].
  simpl. rewrite IH. simpl.
  replace (Polls.created_at x <=? Polls.created_at y) with false
    by (symmetry; apply Z.leb_gt; exact Hy).
  reflexivity.
Qed.

(** ** Polls and the votes on them *)

Lemma unknown_poll_has_no_votes d id u :
  consistent d -> existsb (fun p => String.eqb (Polls.id p) id) (polls d) = false ->
  votes_of d id u = [].
Proof.
  intros Hc Hfresh. unfold votes_of. apply filter_none. apply not_true_iff_false.
  intros H. apply existsb_exists in H. destruct H as (v & Hv & E).
  apply andb_true_iff in E. destruct E as [E _]. apply String.eqb_eq in E.
  pose proof (votes_poll_id_fkey d Hc) as Hfk. rewrite List.Forall_forall in Hfk.
  specialize (Hfk v Hv). rewrite E in Hfk. congruence.
Qed.

Section Effects.

Variable text : pg_error -> string.

Lemma createPoll_appends new u w formData question :
  formData_get formData "question" = Some question -> question <> "" ->
  (2 <= length (filter_Boolean (formData_getAll formData "options")))%nat ->
  existsb (fun p => String.eqb (Polls.id p) (gen_random_uuid new)) (polls (db w)) = false ->
  run_crud text new (session u) [] w (createPoll formData)
  = ({| PollActions.error := None |}, with_poll w (new_poll new u question formData)).
Proof.
  intros Hq Hne Hos Hfresh.
  assert (Hv : validated formData
               = Some (question, filter_Boolean (formData_getAll formData "options")))
    by (apply validated_some; auto).
  unfold createPoll. rewrite Hv. destruct w as [d paths]. simpl in *.
  unfold insert_poll. simpl. rewrite Hfresh. reflexivity.
Qed.

Lemma deletePoll_removes new w p :
  consistent (db w) -> In p (polls (db w)) -> readable (db w) (Polls.user_id p) p ->
  run_crud text new (session (Polls.user_id p)) [] w (deletePoll (Polls.id p))
  = ({| PollActions.error := None |},
     {| db := without_poll (db w) (Polls.id p); revalidated := revalidated w ++ ["/polls"] |}).
Proof.
  intros Hc Hp Hr. unfold deletePoll. destruct w as [d paths]. cbn -[exec_statement].
  rewrite (delete_own_poll d p Hc Hp Hr). reflexivity.
Qed.

(** A request that passes both checks and whose insert goes through, with
    other requests committing in between. *)
Lemma vote_is_stored u pollId raw i t1 t2 t3 rest w poll options d' :
  let d1 := exec_statements (db w) (others t1) in
  let d2 := exec_statements d1 (others t2) in
  let d3 := exec_statements d2 (others t3) in
  coerce_option_index raw = integer i ->
  fault t1 = None -> fault t2 = None -> fault t3 = None ->
  select_poll text d1 (Some u) pollId = data poll -> poll_options poll = array options ->
  0 <= i < Z.of_nat (length options) ->
  select_vote text d2 pollId u = data None ->
  insert_vote d3 pollId u i = inl d' ->
  run text (session u) (t1 :: t2 :: t3 :: rest) w (submitVote pollId raw)
  = ({| PollActions.error := None |},
     {| db := d'; revalidated := revalidated w ++ [String.append "/polls/" pollId] |}).
Proof.
  destruct w as [d paths]. cbn -[select_poll select_vote insert_vote].
  intros Hraw F1 F2 F3 Hp Ho Hb Hv Hi. unfold submitVote.
  cbn -[select_poll select_vote insert_vote coerce_option_index]. rewrite Hraw.
  cbn -[select_poll select_vote insert_vote].
  rewrite F1, Hp, Ho, (in_bounds _ _ Hb).
  cbn -[select_poll select_vote insert_vote].
  rewrite F2, Hv.
  cbn -[select_poll select_vote insert_vote].
  rewrite F3, Hi. reflexivity.
Qed.

End Effects.

(** ** Stored polls are well formed *)

Lemma validated_well_formed formData question options :
  validated formData = Some (question, options) ->
  question <> "" /\ (2 <= length options)%nat /\ Forall (fun o => o <> "") options.
Proof.
  intros H. apply validated_some in H. destruct H as (_ & Hq & -> & Hos).
  repeat split; [exact Hq|exact Hos|apply filter_Boolean_nonempty].
Qed.

Lemma exec_statement_well_formed d s :
  Forall well_formed (polls d) -> tidy_statement s ->
  Forall well_formed (polls (exec_statement d s)).
Proof.
  intros Hd Hs. destruct s as [pollId u i|p|id u|id u question options]; cbn [exec_statement].
  - destruct (insert_vote d pollId u i) as [d'|e] eqn:E; [|exact Hd].
    destruct (insert_vote_stored _ _ _ _ _ E) as (_ & _ & _ & ->). exact Hd.
  - destruct (existsb _ (polls d)); [exact Hd|]. simpl.
    apply Forall_app. split; [exact Hd|]. constructor; [exact Hs|constructor].
  - destruct (existsb _ (polls d)); [|exact Hd]. simpl. now apply Forall_filter_keep.
  - cbn [polls]. rewrite List.Forall_forall in *. intros q Hq. apply in_map_iff in Hq.
    destruct Hq as (q' & <- & Hq'). destruct (own_poll _ _ _ _); [exact Hs|now apply Hd].
Qed.

Lemma exec_statements_well_formed d ss :
  Forall well_formed (polls d) -> Forall tidy_statement ss ->
  Forall well_formed (polls (exec_statements d ss)).
Proof.
  revert d. induction ss as [|s ss IH]; intros d Hd Hss; [exact Hd|].
  inversion Hss; subst. simpl. apply IH; [|assumption]. now apply exec_statement_well_formed.
Qed.

Lemma next_trip_tidy schedule t rest :
  tidy schedule -> next_trip schedule = (t, rest) ->
  Forall tidy_statement (others (tick_of t)).
Proof.
  unfold tidy. destruct schedule as [|t' rest']; simpl; intros H [= <- <-].
  - constructor.
  - now inversion H.
Qed.

Lemma committed_next_trip schedule t rest d k :
  next_trip schedule = (t, rest) ->
  exec_statements (exec_statements d (others (tick_of t))) (committed (ticks rest) k)
  = exec_statements d (committed (ticks schedule) (S k)).
Proof.
  intros E. apply committed_next. destruct schedule as [|t' rest']; simpl in *.
  - now injection E as <- <-.
  - now injection E as <- <-.
Qed.

(** ** The policies stay what they are *)

Lemma exec_statement_policy d s : polls_select (exec_statement d s) = polls_select d.
Proof.
  destruct s as [pollId u i|p|id u|id u question options]; cbn [exec_statement].
  - destruct (insert_vote d pollId u i) as [d'|e] eqn:E; [|reflexivity].
    now destruct (insert_vote_stored _ _ _ _ _ E) as (_ & _ & _ & ->).
  - now destruct (existsb _ (polls d)).
  - now destruct (existsb _ (polls d)).
  - reflexivity.
Qed.

Lemma exec_statements_policy d ss : polls_select (exec_statements d ss) = polls_select d.
Proof.
  revert d. induction ss as [|s ss IH]; intros d; [reflexivity|].
  simpl. now rewrite IH, exec_statement_policy.
Qed.

Lemma nothing_readable_polls d uid : nothing_readable d -> readable_polls d uid = [].
Proof.
  intros H. unfold readable_polls. apply filter_none. apply not_true_iff_false. intros E.
  apply existsb_exists in E. destruct E as (p & _ & E). now rewrite H in E.
Qed.

Lemma nothing_readable_later d ss : nothing_readable d -> nothing_readable (exec_statements d ss).
Proof. intros H uid p. now rewrite exec_statements_policy. Qed.

End PollManagementFacts.

(** * Properties of the other poll actions *)

Module PollManagementProperties.
Import ListFacts PollActions PollActionsFacts PollManagement PollManagementFacts.

(** X1. createPoll and updatePoll refuse a form without a question, with an
    empty question, or with fewer than two options that are not empty,
    before they look at the session or the database: whoever asks, the
    answer is the same error and nothing changes. *)
Theorem incomplete_form_is_refused text new auth schedule w pollId formData :
  formData_get formData "question" = None
  \/ formData_get formData "question" = Some ""
  \/ (length (filter_Boolean (formData_getAll formData "options")) < 2)%nat ->
  run_crud text new auth schedule w (createPoll formData) = (incomplete_form, w)
  /\ run_crud text new auth schedule w (updatePoll pollId formData) = (incomplete_form, w).
Proof.
  intros H. apply validated_none in H. unfold createPoll, updatePoll. rewrite H.
  split; reflexivity.
Qed.

Lemma incomplete_form_is_refused_witness :
  let form := [("question", "Lunch?"); ("options", "soup"); ("options", "")] in
  run_crud pg_text sample_defaults no_session [] sample_world (createPoll form)
  = (incomplete_form, sample_world)
  /\ run_crud pg_text sample_defaults no_session [] sample_world (updatePoll "p1" form)
     = (incomplete_form, sample_world).
Proof.
  apply (incomplete_form_is_refused pg_text sample_defaults no_session [] sample_world "p1").
  right. right. simpl. lia.
Defined.

(** X2. A complete form from a signed-in user, with no other request in
    between: createPoll answers without error, appends one poll that
    carries the first question of the form, its options that are not empty
    in the order of the form and the user as owner, touches no other poll
    and no vote, and revalidates /polls. getPollById for the new id then
    returns that poll to a session for which a SELECT policy passes the
    row, and the error of a query that found no row to a session for which
    none does, as is every session under the policies of the README. *)
Theorem created_poll_is_stored_and_found text new u w formData question :
  consistent (db w) ->
  formData_get formData "question" = Some question -> question <> "" ->
  (2 <= length (filter_Boolean (formData_getAll formData "options")))%nat ->
  existsb (fun p => String.eqb (Polls.id p) (gen_random_uuid new)) (polls (db w)) = false ->
  let row := new_poll new u question formData in
  run_crud text new (session u) [] w (createPoll formData)
  = ({| PollActions.error := None |}, with_poll w row)
  /\ (forall new' auth',
         polls_select (db w) (uid auth') row = true ->
         run_crud text new' auth' [] (with_poll w row) (getPollById (gen_random_uuid new))
         = ({| PollById.poll := Some row; PollById.error := None |}, with_poll w row))
  /\ (forall new' auth',
         polls_select (db w) (uid auth') row = false ->
         run_crud text new' auth' [] (with_poll w row) (getPollById (gen_random_uuid new))
         = ({| PollById.poll := None; PollById.error := Some (text no_rows) |},
            with_poll w row))
  /\ well_formed row.
Proof.
  intros Hc Hq Hne Hos Hfresh row.
  assert (Hrun : run_crud text new (session u) [] w (createPoll formData)
                 = ({| PollActions.error := None |}, with_poll w row))
    by now apply createPoll_appends.
  assert (Hc' : consistent (db (with_poll w row))).
  { pose proof (run_crud_consistent text (createPoll formData) new (session u) [] w Hc) as H.
    now rewrite Hrun in H. }
  assert (Hin : In row (polls (db (with_poll w row))))
    by (simpl; apply in_or_app; right; now left).
  split; [exact Hrun|]. split; [|split].
  - intros new' auth' Hr.
    pose proof (select_poll_row_found text _ (uid auth') _ Hc' Hin Hr) as Hsel.
    unfold getPollById. cbn -[select_poll_row with_poll].
    change (with_db (with_poll w row) (db (with_poll w row))) with (with_poll w row).
    change (Polls.id row) with (gen_random_uuid new) in Hsel. rewrite Hsel. reflexivity.
  - intros new' auth' Hr.
    assert (Hnone : List.filter (fun q => String.eqb (Polls.id q) (gen_random_uuid new))
                                (readable_polls (db (with_poll w row)) (uid auth')) = []).
    { apply filter_none. apply not_true_iff_false. intros E. apply existsb_exists in E.
      destruct E as (q & Hq' & E). apply filter_In in Hq'. destruct Hq' as [Hq' Hsel].
      apply String.eqb_eq in E.
      rewrite (key_identifies Polls.id _ q row (polls_pkey _ Hc') Hq' Hin E) in Hsel.
      simpl in Hsel. congruence. }
    unfold getPollById. cbn -[readable_polls with_poll].
    change (with_db (with_poll w row) (db (with_poll w row))) with (with_poll w row).
    unfold select_poll_row. cbn -[readable_polls with_poll]. now rewrite Hnone.
  - split; [exact Hne|]. split; [exact Hos|apply filter_Boolean_nonempty].
Qed.

Lemma created_poll_is_stored_and_found_witness :
  let row := new_poll sample_defaults "bob" "Lunch?" sample_form in
  (run_crud pg_text sample_defaults (session "bob") [] readme_world (createPoll sample_form)
   = ({| PollActions.error := None |}, with_poll readme_world row)
   /\ run_crud pg_text sample_defaults (session "bob") [] (with_poll readme_world row)
               (getPollById "p2")
      = ({| PollById.poll := None; PollById.error := Some (pg_text no_rows) |},
         with_poll readme_world row))
  /\ (run_crud pg_text sample_defaults (session "bob") [] sample_world (createPoll sample_form)
      = ({| PollActions.error := None |}, with_poll sample_world row)
      /\ run_crud pg_text sample_defaults no_session [] (with_poll sample_world row)
                  (getPollById "p2")
         = ({| PollById.poll := Some row; PollById.error := None |},
            with_poll sample_world row))
  /\ well_formed row.
Proof.
  destruct (created_poll_is_stored_and_found pg_text sample_defaults "bob" readme_world
              sample_form "Lunch?") as (Hmade & _ & Hunread & Hform).
  - constructor; simpl; repeat constructor. intros [].
  - reflexivity.
  - discriminate.
  - simpl. lia.
  - reflexivity.
  - destruct (created_poll_is_stored_and_found pg_text sample_defaults "bob" sample_world
                sample_form "Lunch?") as (Hmade' & Hfound & _).
    + constructor; simpl; repeat constructor. intros [].
    + reflexivity.
    + discriminate.
    + simpl. lia.
    + reflexivity.
    + split; [split; [exact Hmade|exact (Hunread sample_defaults (session "bob") eq_refl)]|].
      split; [split; [exact Hmade'|exact (Hfound sample_defaults no_session eq_refl)]|].
      exact Hform.
Defined.

(** X3. Whatever other requests commit in between, whichever round trip
    fails and whether or not its statement ran before the reply was lost,
    createPoll, updatePoll, deletePoll, getUserPolls and getPollById leave
    the tables within their constraints: poll ids stay unique, a user has
    at most one vote per poll, every vote names a stored poll (a deleted
    poll takes its votes along) and no option index is negative. *)
Theorem poll_actions_keep_the_constraints text new auth schedule w id formData :
  consistent (db w) ->
  consistent (db (snd (run_crud text new auth schedule w (createPoll formData))))
  /\ consistent (db (snd (run_crud text new auth schedule w (updatePoll id formData))))
  /\ consistent (db (snd (run_crud text new auth schedule w (deletePoll id))))
  /\ consistent (db (snd (run_crud text new auth schedule w getUserPolls)))
  /\ consistent (db (snd (run_crud text new auth schedule w (getPollById id)))).
Proof.
  intros Hc. repeat split; now apply run_crud_consistent.
Qed.

Lemma poll_actions_keep_the_constraints_witness :
  let schedule := [{| tick_of := {| others := [other_delete_poll "p1" "alice"];
                                    fault := Some {| message := "fetch failed" |} |};
                      reply_lost := true |}] in
  consistent (db (snd (run_crud pg_text sample_defaults (session "bob") schedule bob_voted
                                (createPoll sample_form))))
  /\ consistent (db (snd (run_crud pg_text sample_defaults (session "bob") schedule bob_voted
                                   (updatePoll "p1" sample_form))))
  /\ consistent (db (snd (run_crud pg_text sample_defaults (session "bob") schedule bob_voted
                                   (deletePoll "p1"))))
  /\ consistent (db (snd (run_crud pg_text sample_defaults (session "bob") schedule bob_voted
                                   getUserPolls)))
  /\ consistent (db (snd (run_crud pg_text sample_defaults (session "bob") schedule bob_voted
                                   (getPollById "p1")))).
Proof.
  apply (poll_actions_keep_the_constraints pg_text sample_defaults (session "bob") _ bob_voted
           "p1" sample_form).
  constructor; simpl; repeat constructor; simpl; try lia; intros [].
Defined.

(** X4. deletePoll by the owner of a stored poll that the owner's session
    reads, with no other request in between: it answers without error,
    removes that poll and no other, removes the votes on that poll and no
    others, and revalidates /polls; getPollById then reports to every
    session that no row was found. *)
Theorem owner_deletes_poll_and_its_votes text new w p :
  consistent (db w) -> In p (polls (db w)) -> readable (db w) (Polls.user_id p) p ->
  let w' := {| db := without_poll (db w) (Polls.id p);
               revalidated := revalidated w ++ ["/polls"] |} in
  run_crud text new (session (Polls.user_id p)) [] w (deletePoll (Polls.id p))
  = ({| PollActions.error := None |}, w')
  /\ (forall q, In q (polls (db w')) <-> In q (polls (db w)) /\ q <> p)
  /\ (forall v, In v (votes (db w')) <-> In v (votes (db w)) /\ Votes.poll_id v <> Polls.id p)
  /\ (forall new' auth',
         run_crud text new' auth' [] w' (getPollById (Polls.id p))
         = ({| PollById.poll := None; PollById.error := Some (text no_rows) |}, w')).
Proof.
  intros Hc Hp Hr w'. split; [now apply deletePoll_removes|]. split; [|split].
  - intros q. split.
    + intros H. simpl in H. apply filter_In in H. destruct H as [H Hne].
      split; [exact H|]. intros ->. now rewrite String.eqb_refl in Hne.
    + intros [Hq Hne]. simpl. apply filter_In. split; [exact Hq|].
      apply negb_true_iff. apply String.eqb_neq. intros E. apply Hne.
      exact (key_identifies Polls.id _ q p (polls_pkey _ Hc) Hq Hp E).
  - intros v. split.
    + intros H. simpl in H. apply filter_In in H. destruct H as [H Hne].
      split; [exact H|]. apply negb_true_iff in Hne. now apply String.eqb_neq.
    + intros [Hv Hne]. simpl. apply filter_In. split; [exact Hv|].
      apply negb_true_iff. now apply String.eqb_neq.
  - intros new' auth'. unfold getPollById. cbn -[select_poll_row without_poll].
    rewrite (select_poll_row_missing text _ (uid auth') _
               (or_introl (without_poll_missing (db w) (Polls.id p)))).
    reflexivity.
Qed.

Lemma owner_deletes_poll_and_its_votes_witness :
  let w' := {| db := without_poll (db bob_voted) "p1";
               revalidated := revalidated bob_voted ++ ["/polls"] |} in
  run_crud pg_text sample_defaults (session "alice") [] bob_voted (deletePoll "p1")
  = ({| PollActions.error := None |}, w')
  /\ (forall q, In q (polls (db w')) <-> In q (polls (db bob_voted)) /\ q <> sample_poll)
  /\ (forall v, In v (votes (db w')) <-> In v (votes (db bob_voted)) /\ Votes.poll_id v <> "p1")
  /\ (forall new' auth',
         run_crud pg_text new' auth' [] w' (getPollById "p1")
         = ({| PollById.poll := None; PollById.error := Some (pg_text no_rows) |}, w')).
Proof.
  apply (owner_deletes_poll_and_its_votes pg_text sample_defaults bob_voted sample_poll).
  - constructor; simpl; repeat constructor; simpl; try lia; intros [].
  - now left.
  - reflexivity.
Defined.

(** X5. deletePoll and updatePoll change no table and still answer without
    error when no stored poll with the id belongs to the user (a poll of
    someone else, an id no poll has) and also when the user's session
    reads no poll, as under the policies of the README, where this is so
    for the owner too; deletePoll revalidates /polls all the same,
    updatePoll revalidates nothing. *)
Theorem foreign_poll_is_left_alone text new u w id formData question :
  not_owner (db w) id u \/ hidden (db w) (Some u) ->
  formData_get formData "question" = Some question -> question <> "" ->
  (2 <= length (filter_Boolean (formData_getAll formData "options")))%nat ->
  run_crud text new (session u) [] w (deletePoll id)
  = ({| PollActions.error := None |},
     {| db := db w; revalidated := revalidated w ++ ["/polls"] |})
  /\ run_crud text new (session u) [] w (updatePoll id formData)
     = ({| PollActions.error := None |}, w).
Proof.
  intros Hn Hq Hne Hos.
  assert (Hv : validated formData
               = Some (question, filter_Boolean (formData_getAll formData "options")))
    by (apply validated_some; auto).
  destruct w as [d paths]. simpl in Hn. split.
  - unfold deletePoll. cbn -[exec_statement].
    now rewrite (delete_foreign_poll d id u Hn).
  - unfold updatePoll. rewrite Hv. cbn -[exec_statement].
    now rewrite (update_foreign_poll d id u _ _ Hn).
Qed.

Lemma foreign_poll_is_left_alone_witness :
  (run_crud pg_text sample_defaults (session "bob") [] bob_voted (deletePoll "p1")
   = ({| PollActions.error := None |},
      {| db := db bob_voted; revalidated := revalidated bob_voted ++ ["/polls"] |})
   /\ run_crud pg_text sample_defaults (session "bob") [] bob_voted (updatePoll "p1" sample_form)
      = ({| PollActions.error := None |}, bob_voted))
  /\ (run_crud pg_text sample_defaults (session "alice") [] readme_world (deletePoll "p1")
      = ({| PollActions.error := None |},
         {| db := db readme_world; revalidated := revalidated readme_world ++ ["/polls"] |})
      /\ run_crud pg_text sample_defaults (session "alice") [] readme_world
                  (updatePoll "p1" sample_form)
         = ({| PollActions.error := None |}, readme_world)).
Proof.
  split.
  - apply (foreign_poll_is_left_alone pg_text sample_defaults "bob" bob_voted "p1" sample_form
             "Lunch?").
    + left. intros p [<-|[]] _. discriminate.
    + reflexivity.
    + discriminate.
    + simpl. lia.
  - apply (foreign_poll_is_left_alone pg_text sample_defaults "alice" readme_world "p1"
             sample_form "Lunch?").
    + right. intros p _. reflexivity.
    + reflexivity.
    + discriminate.
    + simpl. lia.
Defined.

(** X6. updatePoll by the owner of a stored poll that the owner's session
    reads, with a complete form and no other request in between: it
    answers without error and the poll carries the question and the
    options of the form under the id, owner and creation time it had;
    every other poll, every vote (also one whose index the new options no
    longer cover) and the revalidated paths are as before; getPollById
    then returns the poll as revised to a session that reads it. *)
Theorem owner_updates_question_and_options text new w p formData question :
  consistent (db w) -> In p (polls (db w)) -> readable (db w) (Polls.user_id p) p ->
  formData_get formData "question" = Some question -> question <> "" ->
  (2 <= length (filter_Boolean (formData_getAll formData "options")))%nat ->
  let options := filter_Boolean (formData_getAll formData "options") in
  let w' := with_db w (with_revised (db w) p question options) in
  run_crud text new (session (Polls.user_id p)) [] w (updatePoll (Polls.id p) formData)
  = ({| PollActions.error := None |}, w')
  /\ votes (db w') = votes (db w) /\ revalidated w' = revalidated w
  /\ (forall q, In q (polls (db w)) -> q <> p -> In q (polls (db w')))
  /\ (forall new' auth',
         polls_select (db w) (uid auth') (revised p question options) = true ->
         run_crud text new' auth' [] w' (getPollById (Polls.id p))
         = ({| PollById.poll := Some (revised p question options); PollById.error := None |},
            w'))
  /\ well_formed (revised p question options).
Proof.
  intros Hc Hp Hread Hq Hne Hos options w'.
  assert (Hv : validated formData = Some (question, options))
    by (apply validated_some; auto).
  assert (Hrun : run_crud text new (session (Polls.user_id p)) [] w
                          (updatePoll (Polls.id p) formData)
                 = ({| PollActions.error := None |}, w')).
  { unfold updatePoll. rewrite Hv. subst w'. destruct w as [d paths].
    cbn -[exec_statement with_revised].
    now rewrite (update_own_poll d p question options Hc Hp Hread). }
  split; [exact Hrun|]. split; [reflexivity|]. split; [reflexivity|]. split; [|split].
  - intros q Hin Hqp. simpl. apply in_map_iff. exists q. split; [|exact Hin].
    destruct (String.eqb (Polls.id q) (Polls.id p)) eqn:E; [|reflexivity].
    apply String.eqb_eq in E. elim Hqp.
    exact (key_identifies Polls.id _ q p (polls_pkey _ Hc) Hin Hp E).
  - intros new' auth' Hr.
    assert (Hc' : consistent (db w')).
    { pose proof (run_crud_consistent text (updatePoll (Polls.id p) formData) new
                    (session (Polls.user_id p)) [] w Hc) as H.
      now rewrite Hrun in H. }
    pose proof (select_poll_row_found text (db w') (uid auth') (revised p question options)
                  Hc' (with_revised_In (db w) p question options Hp) Hr) as Hsel.
    unfold getPollById. cbn -[select_poll_row with_revised w'].
    change (with_db w' (db w')) with w'.
    change (Polls.id (revised p question options)) with (Polls.id p) in Hsel.
    rewrite Hsel. reflexivity.
  - split; [exact Hne|]. split; [exact Hos|apply filter_Boolean_nonempty].
Qed.

Lemma owner_updates_question_and_options_witness :
  let options := filter_Boolean (formData_getAll sample_form "options") in
  let w' := with_db bob_voted (with_revised (db bob_voted) sample_poll "Lunch?" options) in
  run_crud pg_text sample_defaults (session "alice") [] bob_voted (updatePoll "p1" sample_form)
  = ({| PollActions.error := None |}, w')
  /\ votes (db w') = votes (db bob_voted) /\ revalidated w' = revalidated bob_voted
  /\ (forall q, In q (polls (db bob_voted)) -> q <> sample_poll -> In q (polls (db w')))
  /\ run_crud pg_text sample_defaults (session "bob") [] w' (getPollById "p1")
     = ({| PollById.poll := Some (revised sample_poll "Lunch?" options);
           PollById.error := None |}, w')
  /\ well_formed (revised sample_poll "Lunch?" options).
Proof.
  destruct (owner_updates_question_and_options pg_text sample_defaults bob_voted sample_poll
              sample_form "Lunch?") as (Hrun & Hvotes & Hpaths & Hrest & Hfound & Hform).
  - constructor; simpl; repeat constructor; simpl; try lia; intros [].
  - now left.
  - reflexivity.
  - reflexivity.
  - discriminate.
  - simpl. lia.
  - split; [exact Hrun|]. split; [exact Hvotes|]. split; [exact Hpaths|].
    split; [exact Hrest|]. split; [|exact Hform].
    exact (Hfound sample_defaults (session "bob") eq_refl).
Defined.

(** X7. getUserPolls for a signed-in user, with no other request in
    between: it answers without error with exactly the stored polls of
    that user that the user's session reads, each as often as it is
    stored, none created later than one listed before it, and changes
    nothing. Where the session reads no poll, as under the policies of
    the README, the list is empty whatever the user has created. *)
Theorem user_polls_are_own_polls_newest_first text new u w :
  exists rows,
    run_crud text new (session u) [] w getUserPolls
    = ({| UserPolls.polls := rows; UserPolls.error := None |}, w)
    /\ Permutation rows (polls_of_user (db w) (Some u) u)
    /\ (forall p, In p rows <-> In p (polls (db w)) /\ Polls.user_id p = u
                                /\ readable (db w) u p)
    /\ StronglySorted (fun a b => Polls.created_at b <= Polls.created_at a) rows
    /\ (hidden (db w) (Some u) -> rows = []).
Proof.
  exists (newest_first (polls_of_user (db w) (Some u) u)). split; [now destruct w|].
  split; [apply newest_first_perm|]. split; [|split; [apply newest_first_sorted|]].
  - intros p. split.
    + intros H. apply (Permutation_in _ (newest_first_perm _)) in H.
      apply filter_In in H. destruct H as [H E]. apply filter_In in H. destruct H as [H Hr].
      repeat split; [exact H|now apply String.eqb_eq|exact Hr].
    + intros (H & E & Hr). apply (Permutation_in _ (Permutation_sym (newest_first_perm _))).
      apply filter_In. split; [apply filter_In; now split|now apply String.eqb_eq].
  - intros Hh. unfold polls_of_user, readable_polls.
    replace (List.filter (polls_select (db w) (Some u)) (polls (db w))) with (@nil Polls.row);
      [reflexivity|].
    symmetry. apply filter_none. apply not_true_iff_false. intros E.
    apply existsb_exists in E. destruct E as (p & Hp & E). now rewrite (Hh p Hp) in E.
Qed.

(** X8. Without a user in the session no poll action touches the database,
    whatever the schedule: createPoll (given a complete form), deletePoll
    and updatePoll answer with the error of the session or, if it has
    none, with their own logged-out message, and getUserPolls answers with
    no polls and Not authenticated even when the session reports an
    error. *)
Theorem without_user_nothing_is_touched text new auth schedule w id formData :
  user auth = None -> validated formData <> None ->
  let says (own : string) : ActionResult :=
    {| PollActions.error := Some match auth_error auth with
                                 | Some userError => message userError
                                 | None => own
                                 end |} in
  run_crud text new auth schedule w (createPoll formData)
  = (says "You must be logged in to create a poll.", w)
  /\ run_crud text new auth schedule w (deletePoll id)
     = (says "You must be logged in to delete a poll.", w)
  /\ run_crud text new auth schedule w (updatePoll id formData)
     = (says "You must be logged in to update a poll.", w)
  /\ run_crud text new auth schedule w getUserPolls
     = ({| UserPolls.polls := []; UserPolls.error := Some "Not authenticated" |}, w).
Proof.
  intros Hu Hv says. subst says. unfold createPoll, deletePoll, updatePoll, getUserPolls.
  destruct (validated formData) as [[question options]|]; [|now elim Hv].
  simpl. rewrite Hu. now destruct (auth_error auth).
Qed.

Lemma without_user_nothing_is_touched_witness :
  let expired := {| user := None; auth_error := Some {| message := "JWT expired" |} |} in
  let schedule := [{| tick_of := {| others := [other_delete_poll "p1" "alice"]; fault := None |};
                      reply_lost := false |}] in
  let says (own : string) : ActionResult := {| PollActions.error := Some "JWT expired" |} in
  run_crud pg_text sample_defaults expired schedule bob_voted (createPoll sample_form)
  = (says "You must be logged in to create a poll.", bob_voted)
  /\ run_crud pg_text sample_defaults expired schedule bob_voted (deletePoll "p1")
     = (says "You must be logged in to delete a poll.", bob_voted)
  /\ run_crud pg_text sample_defaults expired schedule bob_voted (updatePoll "p1" sample_form)
     = (says "You must be logged in to update a poll.", bob_voted)
  /\ run_crud pg_text sample_defaults expired schedule bob_voted getUserPolls
     = ({| UserPolls.polls := []; UserPolls.error := Some "Not authenticated" |}, bob_voted).
Proof.
  apply (without_user_nothing_is_touched pg_text sample_defaults
           {| user := None; auth_error := Some {| message := "JWT expired" |} |}
           [{| tick_of := {| others := [other_delete_poll "p1" "alice"]; fault := None |};
               reply_lost := false |}]
           bob_voted "p1" sample_form).
  - reflexivity.
  - discriminate.
Defined.

(** X9. A createPoll, deletePoll or updatePoll that reports an error has
    written nothing of its own, under any schedule in which no reply is
    lost: the database is what the other requests made of it during the
    one round trip at most that the action went through, and no path was
    revalidated. A lost reply is the exception: when the insert of
    createPoll commits and its reply does not arrive, the action reports
    the fault although the poll is stored, and revalidates nothing. *)
Theorem failed_poll_action_writes_nothing text new w :
  (forall auth schedule id formData a r w',
      a = createPoll formData \/ a = deletePoll id \/ a = updatePoll id formData ->
      replies_arrive schedule ->
      run_crud text new auth schedule w a = (r, w') ->
      PollActions.error r <> None ->
      exists k, (k <= 1)%nat
                /\ w' = with_db w (exec_statements (db w) (committed (ticks schedule) k)))
  /\ (forall u e formData question,
         formData_get formData "question" = Some question -> question <> "" ->
         (2 <= length (filter_Boolean (formData_getAll formData "options")))%nat ->
         existsb (fun p => String.eqb (Polls.id p) (gen_random_uuid new)) (polls (db w))
         = false ->
         run_crud text new (session u)
                  [{| tick_of := {| others := []; fault := Some e |}; reply_lost := true |}]
                  w (createPoll formData)
         = ({| PollActions.error := Some (message e) |},
            with_db w (db (with_poll w (new_poll new u question formData))))).
Proof.
  split.
  - intros auth schedule id formData a r w' Ha Hs.
    assert (Hat : forall (own : string) (k : AuthUser.t -> Crud ActionResult),
               (forall user,
                   run_crud text new auth schedule w (k user) = (r, w') ->
                   PollActions.error r <> None ->
                   exists k, (k <= 1)%nat
                             /\ w' = with_db w (exec_statements (db w)
                                                  (committed (ticks schedule) k))) ->
               run_crud text new auth schedule w (with_user own k) = (r, w') ->
               PollActions.error r <> None ->
               exists k, (k <= 1)%nat
                         /\ w' = with_db w (exec_statements (db w)
                                              (committed (ticks schedule) k))).
    { intros own k Hk. unfold with_user. simpl.
      destruct (auth_error auth);
        [intros [= <- <-] _; exists 0%nat; split; [lia|now destruct w]|].
      destruct (user auth) as [user|]; [apply Hk|].
      intros [= <- <-] _. exists 0%nat. split; [lia|now destruct w]. }
    destruct (next_trip schedule) as [t rest] eqn:E.
    assert (Hone : with_db w (exec_statements (db w) (others (tick_of t)))
                   = with_db w (exec_statements (db w) (committed (ticks schedule) 1)))
      by now rewrite <- (committed_next_trip _ _ _ (db w) 0 E).
    assert (Hlost : forall d d', after_fault t d d' = d).
    { intros d d'. unfold after_fault.
      replace (reply_lost t) with false; [reflexivity|].
      unfold replies_arrive in Hs. destruct schedule as [|t' rest']; simpl in E.
      - now injection E as <- <-.
      - injection E as <- <-. now inversion Hs. }
    destruct Ha as [-> | [-> | ->]].
    + unfold createPoll. destruct (validated formData) as [[question options]|].
      * apply Hat. intros user. cbn -[next_trip exec_statements insert_poll after_fault].
        rewrite E.
        destruct (fault (tick_of t));
          [rewrite Hlost; intros [= <- <-] _; exists 1%nat; split; [lia|assumption]|].
        destruct (insert_poll _ _).
        -- simpl. intros [= <- <-] H. now elim H.
        -- intros [= <- <-] _. exists 1%nat. split; [lia|assumption].
      * intros [= <- <-] _. exists 0%nat. split; [lia|now destruct w].
    + unfold deletePoll. apply Hat. intros user.
      cbn -[next_trip exec_statements exec_statement after_fault]. rewrite E.
      destruct (fault (tick_of t));
        [rewrite Hlost; intros [= <- <-] _; exists 1%nat; split; [lia|assumption]|].
      simpl. intros [= <- <-] H. now elim H.
    + unfold updatePoll. destruct (validated formData) as [[question options]|].
      * apply Hat. intros user.
        cbn -[next_trip exec_statements exec_statement after_fault]. rewrite E.
        destruct (fault (tick_of t));
          [rewrite Hlost; intros [= <- <-] _; exists 1%nat; split; [lia|assumption]|].
        simpl. intros [= <- <-] H. now elim H.
      * intros [= <- <-] _. exists 0%nat. split; [lia|now destruct w].
  - intros u e formData question Hq Hne Hos Hfresh.
    assert (Hv : validated formData
                 = Some (question, filter_Boolean (formData_getAll formData "options")))
      by (apply validated_some; auto).
    unfold createPoll. rewrite Hv. destruct w as [d paths]. simpl in *.
    unfold insert_poll. simpl. rewrite Hfresh. reflexivity.
Qed.

Lemma failed_poll_action_writes_nothing_witness :
  let refused := [{| tick_of := {| others := [other_insert_vote "p1" "carol" 1];
                                   fault := Some {| message := "fetch failed" |} |};
                     reply_lost := false |}] in
  let lost := [{| tick_of := {| others := []; fault := Some {| message := "fetch failed" |} |};
                  reply_lost := true |}] in
  (exists k, (k <= 1)%nat
             /\ snd (run_crud pg_text sample_defaults (session "alice") refused bob_voted
                              (deletePoll "p1"))
                = with_db bob_voted
                          (exec_statements (db bob_voted) (committed (ticks refused) k)))
  /\ run_crud pg_text sample_defaults (session "bob") lost bob_voted (createPoll sample_form)
     = ({| PollActions.error := Some "fetch failed" |},
        with_db bob_voted
                (db (with_poll bob_voted (new_poll sample_defaults "bob" "Lunch?" sample_form)))).
Proof.
  pose proof (failed_poll_action_writes_nothing pg_text sample_defaults bob_voted) as [H1 H2].
  split.
  - apply (H1 (session "alice")
              [{| tick_of := {| others := [other_insert_vote "p1" "carol" 1];
                                fault := Some {| message := "fetch failed" |} |};
                  reply_lost := false |}]
              "p1" sample_form (deletePoll "p1")
              {| PollActions.error := Some "fetch failed" |}).
    + right. now left.
    + repeat constructor.
    + reflexivity.
    + discriminate.
  - apply (H2 "bob" {| message := "fetch failed" |} sample_form "Lunch?").
    + reflexivity.
    + discriminate.
    + simpl. lia.
    + reflexivity.
Defined.

(** X10. getPollById and getUserPolls never write, under any schedule: the
    database after them is what the other requests made of it during the
    one round trip at most, and the revalidated paths are as before. *)
Theorem reads_write_nothing text new auth schedule w id :
  snd (run_crud text new auth schedule w (getPollById id))
  = with_db w (exec_statements (db w) (committed (ticks schedule) 1))
  /\ exists k, (k <= 1)%nat
               /\ snd (run_crud text new auth schedule w getUserPolls)
                  = with_db w (exec_statements (db w) (committed (ticks schedule) k)).
Proof.
  destruct (next_trip schedule) as [t rest] eqn:E.
  assert (Hone : with_db w (exec_statements (db w) (others (tick_of t)))
                 = with_db w (exec_statements (db w) (committed (ticks schedule) 1)))
    by now rewrite <- (committed_next_trip _ _ _ (db w) 0 E).
  split.
  - unfold getPollById. cbn -[next_trip exec_statements select_poll_row with_db committed].
    rewrite E, <- Hone.
    destruct (fault (tick_of t)); [reflexivity|]. now destruct (select_poll_row _ _ _ _).
  - unfold getUserPolls. cbn -[next_trip exec_statements with_db committed].
    destruct (user auth) as [user|]; [|exists 0%nat; split; [lia|now destruct w]].
    cbn -[next_trip exec_statements with_db committed]. rewrite E.
    exists 1%nat. split; [lia|]. rewrite <- Hone. now destruct (fault (tick_of t)).
Qed.

(** X11. A poll made by createPoll can be voted on at once by a user whose
    session reads it: with no other request in between, submitVote by
    such a signed-in user for any index within the options of the form
    (and within the int column) answers without error, the voter then
    holds exactly that one vote on the poll, and /polls and the page of
    the poll were revalidated. *)
Theorem created_poll_takes_a_first_vote text new u voter w formData question raw i :
  consistent (db w) ->
  formData_get formData "question" = Some question -> question <> "" ->
  (2 <= length (filter_Boolean (formData_getAll formData "options")))%nat ->
  existsb (fun p => String.eqb (Polls.id p) (gen_random_uuid new)) (polls (db w)) = false ->
  polls_select (db w) (Some voter) (new_poll new u question formData) = true ->
  coerce_option_index raw = integer i ->
  0 <= i < Z.of_nat (length (filter_Boolean (formData_getAll formData "options"))) ->
  i < 2 ^ 31 ->
  let w1 := snd (run_crud text new (session u) [] w (createPoll formData)) in
  let out := run text (session voter) [] w1 (submitVote (gen_random_uuid new) raw) in
  fst out = {| PollActions.error := None |}
  /\ votes_of (db (snd out)) (gen_random_uuid new) voter
     = [{| Votes.id := next_vote_id (db w); Votes.poll_id := gen_random_uuid new;
           Votes.user_id := voter; Votes.option_index := i |}]
  /\ revalidated (snd out)
     = revalidated w ++ ["/polls"; String.append "/polls/" (gen_random_uuid new)].
Proof.
  intros Hc Hq Hne Hos Hfresh Hread Hi Hb Hint w1 out.
  set (row := new_poll new u question formData) in *.
  assert (Hw1 : w1 = with_poll w row)
    by (subst w1; now rewrite (createPoll_appends text new u w formData question)).
  assert (Hc1 : consistent (db w1))
    by (subst w1; now apply run_crud_consistent).
  assert (Hin : In row (polls (db w1)))
    by (rewrite Hw1; simpl; apply in_or_app; right; now left).
  assert (Hr1 : readable (db w1) voter row) by (rewrite Hw1; exact Hread).
  assert (Hnone : votes_of (db w1) (Polls.id row) voter = []).
  { rewrite Hw1. change (votes_of (db (with_poll w row)) (Polls.id row) voter)
      with (votes_of (db w) (gen_random_uuid new) voter).
    now apply unknown_poll_has_no_votes. }
  pose proof (first_vote_is_stored text voter raw row i w1 Hc1 Hin Hr1 (conj Hi Hb) Hint Hnone)
    as Hrun.
  change (Polls.id row) with (gen_random_uuid new) in Hrun. subst out. rewrite Hrun.
  split; [reflexivity|]. split.
  - change (Polls.id row) with (gen_random_uuid new) in Hnone. unfold votes_of in Hnone.
    cbn [snd db]. unfold votes_of. cbn [votes]. rewrite List.filter_app, Hnone.
    rewrite Hw1. simpl. unfold of_user_on_poll. simpl. now rewrite !String.eqb_refl.
  - rewrite Hw1. simpl. now rewrite <- app_assoc.
Qed.

Lemma created_poll_takes_a_first_vote_witness :
  let w1 := snd (run_crud pg_text sample_defaults (session "alice") [] bob_voted
                          (createPoll sample_form)) in
  let out := run pg_text (session "bob") [] w1 (submitVote "p2" (raw_string " 1st")) in
  fst out = {| PollActions.error := None |}
  /\ votes_of (db (snd out)) "p2" "bob"
     = [{| Votes.id := next_vote_id (db bob_voted); Votes.poll_id := "p2";
           Votes.user_id := "bob"; Votes.option_index := 1 |}]
  /\ revalidated (snd out) = revalidated bob_voted ++ ["/polls"; String.append "/polls/" "p2"].
Proof.
  apply (created_poll_takes_a_first_vote pg_text sample_defaults "alice" "bob" bob_voted
           sample_form "Lunch?" (raw_string " 1st") 1).
  - constructor; simpl; repeat constructor; simpl; try lia; intros [].
  - reflexivity.
  - discriminate.
  - simpl. lia.
  - reflexivity.
  - reflexivity.
  - reflexivity.
  - simpl. lia.
  - lia.
Defined.

(** X12. A poll deleted by its owner, whose session reads it, takes no
    more votes: with no other request in between, nobody holds a vote on
    it, and submitVote for it by any signed-in user with an integer index
    answers with the error of the query that found no row and changes
    nothing. *)
Theorem deleted_poll_takes_no_votes text new w p voter raw i :
  consistent (db w) -> In p (polls (db w)) -> readable (db w) (Polls.user_id p) p ->
  coerce_option_index raw = integer i ->
  let w1 := snd (run_crud text new (session (Polls.user_id p)) [] w (deletePoll (Polls.id p))) in
  votes_of (db w1) (Polls.id p) voter = []
  /\ run text (session voter) [] w1 (submitVote (Polls.id p) raw)
     = ({| PollActions.error := Some (text no_rows) |}, w1).
Proof.
  intros Hc Hp Hr Hi w1.
  assert (Hc1 : consistent (db w1)) by (subst w1; now apply run_crud_consistent).
  assert (Hgone : existsb (fun q => String.eqb (Polls.id q) (Polls.id p)) (polls (db w1))
                  = false).
  { subst w1. rewrite (deletePoll_removes text new w p Hc Hp Hr). cbn [snd db].
    apply without_poll_missing. }
  split; [now apply unknown_poll_has_no_votes|].
  rewrite (unreadable_poll_is_refused text voter raw i [] quiet [] w1 (Polls.id p) Hi eq_refl
             {| message := text no_rows |}).
  - now destruct w1.
  - simpl. apply select_poll_missing. now left.
Qed.

Lemma deleted_poll_takes_no_votes_witness :
  let w1 := snd (run_crud pg_text sample_defaults (session "alice") [] bob_voted
                          (deletePoll "p1")) in
  votes_of (db w1) "p1" "bob" = []
  /\ run pg_text (session "bob") [] w1 (submitVote "p1" (raw_number (integer 1)))
     = ({| PollActions.error := Some (pg_text no_rows) |}, w1).
Proof.
  apply (deleted_poll_takes_no_votes pg_text sample_defaults bob_voted sample_poll "bob"
           (raw_number (integer 1)) 1).
  - constructor; simpl; repeat constructor; simpl; try lia; intros [].
  - now left.
  - reflexivity.
  - reflexivity.
Defined.

(** X13. Under any schedule, a submitVote that reports no error has done
    exactly this: for the user of the session and the integer read from
    the index it appended one vote row on the poll to what the other
    requests had committed by its third round trip, the poll being stored
    at that moment and the user holding no vote on it; the user then holds
    that row alone on the poll, no poll was changed by the call, the index
    is not negative, and the page of the poll was revalidated. *)
Theorem successful_vote_is_one_insert text auth schedule w pollId raw r w' :
  consistent (db w) ->
  run text auth schedule w (submitVote pollId raw) = (r, w') ->
  PollActions.error r = None ->
  exists u i v,
    user auth = Some u /\ auth_error auth = None /\ coerce_option_index raw = integer i
    /\ 0 <= i < 2 ^ 31
    /\ vote_triple v = (pollId, AuthUser.id u, i)
    /\ let before := exec_statements (db w) (committed schedule 3) in
       votes_of before pollId (AuthUser.id u) = []
       /\ votes (db w') = votes before ++ [v]
       /\ polls (db w') = polls before
       /\ poll_rows before pollId <> []
       /\ votes_of (db w') pollId (AuthUser.id u) = [v]
       /\ revalidated w' = revalidated w ++ [String.append "/polls/" pollId].
Proof.
  intros Hc Hrun Hr.
  destruct (success_means_one_insert text auth schedule w pollId raw r w' Hrun Hr)
    as (u & i & Hu & He & Hi & Hins & Hpaths).
  destruct (insert_vote_stored _ _ _ _ _ Hins) as (Hb & Hpoll & Hnone & Hd').
  exists u, i, {| Votes.id := next_vote_id (exec_statements (db w) (committed schedule 3));
                  Votes.poll_id := pollId; Votes.user_id := AuthUser.id u;
                  Votes.option_index := i |}.
  do 5 (split; [assumption || reflexivity|]). intros before. subst before.
  split; [exact Hnone|]. rewrite Hd'. cbn [votes polls].
  split; [reflexivity|]. split; [reflexivity|]. split; [|split; [|exact Hpaths]].
  - intros E. apply existsb_filter in Hpoll. apply existsb_exists in Hpoll.
    destruct Hpoll as (p & Hp & Hid).
    assert (H : In p (poll_rows (exec_statements (db w) (committed schedule 3)) pollId))
      by (apply filter_In; now split).
    rewrite E in H. destruct H.
  - unfold votes_of in *. cbn [votes]. rewrite List.filter_app, Hnone. simpl.
    unfold of_user_on_poll. simpl. now rewrite !String.eqb_refl.
Qed.

Lemma successful_vote_is_one_insert_witness :
  let schedule := [{| others := [other_insert_vote "p1" "carol" 1]; fault := None |}] in
  exists u i v,
    user (session "bob") = Some u /\ auth_error (session "bob") = None
    /\ coerce_option_index (raw_string "1") = integer i
    /\ 0 <= i < 2 ^ 31
    /\ vote_triple v = ("p1", AuthUser.id u, i)
    /\ let before := exec_statements (db sample_world) (committed schedule 3) in
       votes_of before "p1" (AuthUser.id u) = []
       /\ votes (db (snd (run pg_text (session "bob") schedule sample_world
                              (submitVote "p1" (raw_string "1")))))
          = votes before ++ [v]
       /\ polls (db (snd (run pg_text (session "bob") schedule sample_world
                              (submitVote "p1" (raw_string "1")))))
          = polls before
       /\ poll_rows before "p1" <> []
       /\ votes_of (db (snd (run pg_text (session "bob") schedule sample_world
                                 (submitVote "p1" (raw_string "1"))))) "p1" (AuthUser.id u)
          = [v]
       /\ revalidated (snd (run pg_text (session "bob") schedule sample_world
                                (submitVote "p1" (raw_string "1"))))
          = revalidated sample_world ++ [String.append "/polls/" "p1"].
Proof.
  apply (successful_vote_is_one_insert pg_text (session "bob")
           [{| others := [other_insert_vote "p1" "carol" 1]; fault := None |}]
           sample_world "p1" (raw_string "1") {| PollActions.error := None |}).
  - constructor; simpl; repeat constructor; simpl; try lia; intros [].
  - reflexivity.
  - reflexivity.
Defined.

(** X14. createPoll, updatePoll and deletePoll never store a malformed
    poll: when every stored poll has a question that is not empty and at
    least two options, none of them empty, and the other requests commit
    only statements of that kind, the same holds after the action, whoever
    calls it, with whatever form, and wherever a round trip fails. *)
Theorem stored_polls_stay_well_formed text new auth schedule w id formData :
  Forall well_formed (polls (db w)) -> tidy schedule ->
  Forall well_formed (polls (db (snd (run_crud text new auth schedule w (createPoll formData)))))
  /\ Forall well_formed
            (polls (db (snd (run_crud text new auth schedule w (updatePoll id formData)))))
  /\ Forall well_formed (polls (db (snd (run_crud text new auth schedule w (deletePoll id))))).
Proof.
  intros Hw Hs.
  assert (Hat : forall (own : string) (k : AuthUser.t -> Crud ActionResult),
             (forall user, Forall well_formed
                             (polls (db (snd (run_crud text new auth schedule w (k user)))))) ->
             Forall well_formed
                    (polls (db (snd (run_crud text new auth schedule w (with_user own k)))))).
  { intros own k Hk. unfold with_user. simpl.
    destruct (auth_error auth); [exact Hw|]. destruct (user auth); [apply Hk|exact Hw]. }
  destruct (next_trip schedule) as [t rest] eqn:E.
  pose proof (exec_statements_well_formed _ _ Hw (next_trip_tidy _ _ _ Hs E)) as Ht.
  assert (Hf : forall d', Forall well_formed (polls d') ->
                          Forall well_formed
                                 (polls (after_fault t (exec_statements (db w)
                                                          (others (tick_of t))) d')))
    by (intros d' Hd'; unfold after_fault; now destruct (reply_lost t)).
  split; [|split].
  - unfold createPoll. destruct (validated formData) as [[question options]|] eqn:Hv;
      [|exact Hw].
    apply Hat. intros user. cbn -[next_trip exec_statements insert_poll after_fault].
    rewrite E.
    assert (Hins : forall d', insert_poll (exec_statements (db w) (others (tick_of t)))
                                {| Polls.id := gen_random_uuid new;
                                   Polls.user_id := AuthUser.id user;
                                   Polls.question := question; Polls.options := options;
                                   Polls.created_at := now new |} = inl d' ->
                              Forall well_formed (polls d')).
    { intros d' Hins. rewrite (insert_poll_as_statement _ _ _ Hins).
      apply exec_statement_well_formed; [exact Ht|]. exact (validated_well_formed _ _ _ Hv). }
    destruct (fault (tick_of t)) as [lost|].
    + cbn -[exec_statements insert_poll after_fault]. apply Hf.
      destruct (insert_poll _ _) as [d'|e] eqn:Hi; [now apply Hins|exact Ht].
    + destruct (insert_poll _ _) as [d'|e] eqn:Hi; [|exact Ht].
      cbn -[exec_statements]. now apply Hins.
  - unfold updatePoll. destruct (validated formData) as [[question options]|] eqn:Hv;
      [|exact Hw].
    apply Hat. intros user. cbn -[next_trip exec_statements exec_statement after_fault].
    rewrite E.
    assert (Hup : Forall well_formed
                    (polls (exec_statement (exec_statements (db w) (others (tick_of t)))
                              (other_update_poll id (AuthUser.id user) question options))))
      by (apply exec_statement_well_formed;
          [exact Ht|exact (validated_well_formed _ _ _ Hv)]).
    destruct (fault (tick_of t)); cbn -[exec_statement exec_statements after_fault];
      [now apply Hf|exact Hup].
  - unfold deletePoll. apply Hat. intros user.
    cbn -[next_trip exec_statements exec_statement after_fault]. rewrite E.
    assert (Hdel : Forall well_formed
                     (polls (exec_statement (exec_statements (db w) (others (tick_of t)))
                               (other_delete_poll id (AuthUser.id user)))))
      by now apply exec_statement_well_formed.
    destruct (fault (tick_of t)); cbn -[exec_statement exec_statements after_fault];
      [now apply Hf|exact Hdel].
Qed.

Lemma stored_polls_stay_well_formed_witness :
  let schedule :=
    [{| tick_of :=
          {| others := [other_update_poll "p1" "alice" "Vim or Emacs?" ["vim"; "emacs"]];
             fault := Some {| message := "fetch failed" |} |};
        reply_lost := true |}] in
  Forall well_formed
         (polls (db (snd (run_crud pg_text sample_defaults (session "bob") schedule bob_voted
                                   (createPoll sample_form)))))
  /\ Forall well_formed
            (polls (db (snd (run_crud pg_text sample_defaults (session "bob") schedule bob_voted
                                      (updatePoll "p1" sample_form)))))
  /\ Forall well_formed
            (polls (db (snd (run_crud pg_text sample_defaults (session "bob") schedule bob_voted
                                      (deletePoll "p1"))))).
Proof.
  apply (stored_polls_stay_well_formed pg_text sample_defaults (session "bob") _ bob_voted
           "p1" sample_form).
  - repeat constructor; simpl; try lia; discriminate.
  - repeat constructor; simpl; try lia; discriminate.
Defined.

(** X25. submitVote checks the index against the options it read, not
    against the options the poll has when the vote is stored: where the
    session of the voter reads the poll before and after the change and
    the session of the owner reads it, and the owner's updatePoll commits
    fewer options between the read of the poll and the insert, a first
    vote for an index that the old options covered and the new ones do not
    is answered without error and stored, so that the table holds a vote
    whose option_index lies beyond the options of its poll. *)
Theorem stale_options_let_a_vote_out_of_range text u w p question options raw i :
  consistent (db w) -> In p (polls (db w)) -> votes_of (db w) (Polls.id p) u = [] ->
  readable (db w) u p -> readable (db w) (Polls.user_id p) p ->
  polls_select (db w) (Some u) (revised p question options) = true ->
  coerce_option_index raw = integer i ->
  Z.of_nat (length options) <= i < Z.of_nat (length (Polls.options p)) -> i < 2 ^ 31 ->
  let update := other_update_poll (Polls.id p) (Polls.user_id p) question options in
  let schedule := [quiet; {| others := [update]; fault := None |}; quiet] in
  let out := run text (session u) schedule w (submitVote (Polls.id p) raw) in
  let vote := {| Votes.id := next_vote_id (db w); Votes.poll_id := Polls.id p;
                 Votes.user_id := u; Votes.option_index := i |} in
  fst out = {| PollActions.error := None |}
  /\ votes (db (snd out)) = votes (db w) ++ [vote]
  /\ poll_rows (db (snd out)) (Polls.id p) = [revised p question options]
  /\ Z.of_nat (length (Polls.options (revised p question options))) <= Votes.option_index vote.
Proof.
  intros Hc Hp Hnone Hru Hro Hrev Hraw Hb Hint update schedule out vote.
  set (d2 := with_revised (db w) p question options).
  assert (Hd2 : exec_statement (db w) update = d2) by now apply update_own_poll.
  assert (Hc2 : consistent d2)
    by (rewrite <- Hd2; now apply exec_statement_consistent).
  assert (Hin2 : In (revised p question options) (polls d2)) by now apply with_revised_In.
  assert (Hrun : out = ({| PollActions.error := None |},
                        {| db := {| polls := polls d2; votes := votes d2 ++ [vote];
                                    next_vote_id := N.succ (next_vote_id d2);
                                    polls_select := polls_select d2 |};
                           revalidated := revalidated w
                                          ++ [String.append "/polls/" (Polls.id p)] |})).
  { subst out schedule.
    apply (vote_is_stored text u (Polls.id p) raw i quiet _ quiet [] w
             {| poll_id := Polls.id p; poll_options := array (Polls.options p) |}
             (Polls.options p)); try reflexivity.
    - exact Hraw.
    - now apply select_poll_found.
    - lia.
    - change (exec_statements (exec_statements (db w) (others quiet))
                              (others {| others := [update]; fault := None |}))
        with (exec_statement (db w) update).
      rewrite Hd2. unfold select_vote.
      change (votes_of d2 (Polls.id p) u) with (votes_of (db w) (Polls.id p) u).
      now rewrite Hnone.
    - change (exec_statements
                (exec_statements (exec_statements (db w) (others quiet))
                                 (others {| others := [update]; fault := None |}))
                (others quiet))
        with (exec_statement (db w) update).
      rewrite Hd2. apply insert_vote_accepts; [lia| |exact Hnone].
      apply existsb_exists. exists (revised p question options).
      split; [|apply String.eqb_refl]. apply filter_In. split; [exact Hin2|exact Hrev]. }
  rewrite Hrun. cbn [fst snd db votes]. split; [reflexivity|]. split; [reflexivity|].
  split; [|cbn; lia].
  unfold poll_rows. cbn [polls].
  apply (filter_singleton Polls.id _ (polls d2) (revised p question options)
           (polls_pkey d2 Hc2) Hin2); [apply String.eqb_refl|].
  intros q Hq. now apply String.eqb_eq.
Qed.

Lemma stale_options_let_a_vote_out_of_range_witness :
  let three := {| Polls.id := "p3"; Polls.user_id := "alice"; Polls.question := "Which?";
                  Polls.options := ["a"; "b"; "c"]; Polls.created_at := 1500 |} in
  let w := {| db := {| polls := [sample_poll; three]; votes := []; next_vote_id := 0%N;
                       polls_select := select_using_true |};
              revalidated := [] |} in
  let update := other_update_poll "p3" "alice" "Which of two?" ["a"; "b"] in
  let schedule := [quiet; {| others := [update]; fault := None |}; quiet] in
  let out := run pg_text (session "bob") schedule w (submitVote "p3" (raw_string "2")) in
  let vote := {| Votes.id := 0%N; Votes.poll_id := "p3"; Votes.user_id := "bob";
                 Votes.option_index := 2 |} in
  fst out = {| PollActions.error := None |}
  /\ votes (db (snd out)) = votes (db w) ++ [vote]
  /\ poll_rows (db (snd out)) "p3" = [revised three "Which of two?" ["a"; "b"]]
  /\ Z.of_nat (length (Polls.options (revised three "Which of two?" ["a"; "b"])))
     <= Votes.option_index vote.
Proof.
  apply (stale_options_let_a_vote_out_of_range pg_text "bob"
           {| db := {| polls := [sample_poll;
                                 {| Polls.id := "p3"; Polls.user_id := "alice";
                                    Polls.question := "Which?"; Polls.options := ["a"; "b"; "c"];
                                    Polls.created_at := 1500 |}];
                       votes := []; next_vote_id := 0%N;
                       polls_select := select_using_true |};
              revalidated := [] |}
           {| Polls.id := "p3"; Polls.user_id := "alice"; Polls.question := "Which?";
              Polls.options := ["a"; "b"; "c"]; Polls.created_at := 1500 |}
           "Which of two?" ["a"; "b"] (raw_string "2") 2).
  - constructor; simpl; repeat constructor; simpl; intuition discriminate.
  - simpl. auto.
  - reflexivity.
  - reflexivity.
  - reflexivity.
  - reflexivity.
  - reflexivity.
  - simpl. lia.
  - lia.
Defined.

(** X26. A poll made by createPoll shows in the list of its creator,
    where the creator's session reads it, and in nobody else's: with no
    other request in between, getUserPolls of the creator then returns one
    poll more than before, the new poll among them, and first when its
    creation time is later than that of the creator's other polls;
    getUserPolls of any other user returns what it returned before. Where
    the creator's session does not read the new poll, the creator's list is
    what it was. *)
Theorem created_poll_is_listed text new u w formData question :
  formData_get formData "question" = Some question -> question <> "" ->
  (2 <= length (filter_Boolean (formData_getAll formData "options")))%nat ->
  existsb (fun p => String.eqb (Polls.id p) (gen_random_uuid new)) (polls (db w)) = false ->
  let row := new_poll new u question formData in
  let w1 := snd (run_crud text new (session u) [] w (createPoll formData)) in
  (polls_select (db w) (Some u) row = true ->
   exists rows,
      (forall new', run_crud text new' (session u) [] w1 getUserPolls
                    = ({| UserPolls.polls := rows; UserPolls.error := None |}, w1))
      /\ In row rows
      /\ length rows = S (length (polls_of_user (db w) (Some u) u))
      /\ (Forall (fun q => Polls.created_at q < now new) (polls_of_user (db w) (Some u) u) ->
          hd_error rows = Some row))
  /\ (polls_select (db w) (Some u) row = false ->
      forall new', fst (run_crud text new' (session u) [] w1 getUserPolls)
                   = fst (run_crud text new' (session u) [] w getUserPolls))
  /\ (forall new' u', u' <> u ->
         fst (run_crud text new' (session u') [] w1 getUserPolls)
         = fst (run_crud text new' (session u') [] w getUserPolls)).
Proof.
  intros Hq Hne Hos Hfresh row w1.
  assert (Hw1 : w1 = with_poll w row)
    by (subst w1; now rewrite (createPoll_appends text new u w formData question)).
  assert (Hall : forall uid u',
             polls_of_user (db w1) uid u'
             = polls_of_user (db w) uid u'
               ++ (if polls_select (db w) uid row && String.eqb u u' then [row] else [])).
  { intros uid u'. rewrite Hw1. unfold polls_of_user, readable_polls. simpl.
    rewrite !List.filter_app. simpl. destruct (polls_select (db w) uid row); simpl;
      [|reflexivity]. now destruct (String.eqb u u'). }
  split; [|split].
  - intros Hread.
    assert (Hmine : polls_of_user (db w1) (Some u) u = polls_of_user (db w) (Some u) u ++ [row])
      by (now rewrite Hall, Hread, String.eqb_refl).
    exists (newest_first (polls_of_user (db w1) (Some u) u)). split; [|split; [|split]].
    + intros new'. now destruct w1.
    + apply (Permutation_in _ (Permutation_sym (newest_first_perm _))).
      rewrite Hmine. apply in_or_app. right. now left.
    + rewrite (Permutation_length (newest_first_perm _)), Hmine, length_app. simpl. lia.
    + intros Hlate. rewrite Hmine, newest_first_latest; [reflexivity|exact Hlate].
  - intros Hread new'. simpl. f_equal. change (uid (session u)) with (Some u).
    rewrite Hall, Hread. simpl. now rewrite app_nil_r.
  - intros new' u' Hu'. simpl. f_equal. change (uid (session u')) with (Some u').
    rewrite Hall.
    replace (String.eqb u u') with false by (symmetry; apply String.eqb_neq; congruence).
    now rewrite andb_false_r, app_nil_r.
Qed.

Lemma created_poll_is_listed_witness :
  let row := new_poll sample_defaults "alice" "Lunch?" sample_form in
  let w1 := snd (run_crud pg_text sample_defaults (session "alice") [] bob_voted
                          (createPoll sample_form)) in
  (exists rows,
      (forall new', run_crud pg_text new' (session "alice") [] w1 getUserPolls
                    = ({| UserPolls.polls := rows; UserPolls.error := None |}, w1))
      /\ In row rows
      /\ length rows = S (length (polls_of_user (db bob_voted) (Some "alice") "alice"))
      /\ (Forall (fun q => Polls.created_at q < now sample_defaults)
                 (polls_of_user (db bob_voted) (Some "alice") "alice") ->
          hd_error rows = Some row))
  /\ (forall new' u', u' <> "alice" ->
         fst (run_crud pg_text new' (session u') [] w1 getUserPolls)
         = fst (run_crud pg_text new' (session u') [] bob_voted getUserPolls)).
Proof.
  destruct (created_poll_is_listed pg_text sample_defaults "alice" bob_voted sample_form
              "Lunch?" eq_refl) as (Hlisted & _ & Hothers).
  - discriminate.
  - simpl. lia.
  - reflexivity.
  - split; [exact (Hlisted eq_refl)|exact Hothers].
Defined.

(** X27. With the policies of the README as they are written, row level
    security enabled on polls and no policy for SELECT, no session reads
    a row of polls, and then: submitVote never answers without error,
    whoever calls it, with whatever index and under any schedule, and
    leaves only what the other requests committed; for a signed-in user
    and an index that is an integer it answers with the error of the
    query that found no row whenever its first round trip does not fail;
    getPollById returns no poll, with that same error whenever its round
    trip does not fail; and getUserPolls returns no polls. *)
Theorem unread_polls_take_no_votes text new auth schedule trips w pollId raw :
  nothing_readable (db w) ->
  (PollActions.error (fst (run text auth schedule w (submitVote pollId raw))) <> None
   /\ exists k, snd (run text auth schedule w (submitVote pollId raw))
                = with_db w (exec_statements (db w) (committed schedule k)))
  /\ (forall u i rest,
         coerce_option_index raw = integer i ->
         run text (session u) (quiet :: rest) w (submitVote pollId raw)
         = ({| PollActions.error := Some (text no_rows) |}, w))
  /\ PollById.poll (fst (run_crud text new auth trips w (getPollById pollId))) = None
  /\ (forall rest,
         run_crud text new auth (calm :: rest) w (getPollById pollId)
         = ({| PollById.poll := None; PollById.error := Some (text no_rows) |}, w))
  /\ UserPolls.polls (fst (run_crud text new auth trips w getUserPolls)) = [].
Proof.
  intros Hn. split; [|split; [|split; [|split]]].
  - destruct (run text auth schedule w (submitVote pollId raw)) as [r w'] eqn:Hrun.
    assert (Herr : PollActions.error r <> None).
    { intros Hr.
      destruct (success_means_one_insert text auth schedule w pollId raw r w' Hrun Hr)
        as (u & i & _ & _ & _ & Hins & _).
      destruct (insert_vote_stored _ _ _ _ _ Hins) as (_ & Hpoll & _).
      rewrite (nothing_readable_polls _ _ (nothing_readable_later _ _ Hn)) in Hpoll.
      discriminate. }
    split; [exact Herr|].
    exact (error_means_only_others_wrote text auth schedule w pollId raw r w' Hrun Herr).
  - intros u i rest Hi.
    rewrite (unreadable_poll_is_refused text u raw i (quiet :: rest) quiet rest w pollId Hi
               eq_refl {| message := text no_rows |}).
    + now destruct w.
    + simpl. apply select_poll_hidden. intros p _. apply Hn.
  - unfold getPollById. cbn -[next_trip exec_statements]. destruct (next_trip trips) as [tr later].
    destruct (fault (tick_of tr)); [reflexivity|].
    unfold select_poll_row.
    now rewrite (nothing_readable_polls _ _ (nothing_readable_later _ _ Hn)).
  - intros rest. unfold getPollById. simpl. unfold select_poll_row.
    rewrite (nothing_readable_polls _ _ Hn). now destruct w.
  - unfold getUserPolls. cbn -[next_trip exec_statements]. destruct (user auth); [|reflexivity].
    cbn -[next_trip exec_statements]. destruct (next_trip trips) as [tr later].
    destruct (fault (tick_of tr)); [reflexivity|].
    unfold polls_of_user.
    now rewrite (nothing_readable_polls _ _ (nothing_readable_later _ _ Hn)).
Qed.

Lemma unread_polls_take_no_votes_witness :
  run pg_text (session "bob") [] readme_world (submitVote "p1" (raw_number (integer 0)))
  = ({| PollActions.error := Some (pg_text no_rows) |}, readme_world)
  /\ PollById.poll (fst (run_crud pg_text sample_defaults (session "alice") [] readme_world
                                  (getPollById "p1"))) = None
  /\ UserPolls.polls (fst (run_crud pg_text sample_defaults (session "alice") [] readme_world
                                    getUserPolls)) = [].
Proof.
  destruct (unread_polls_take_no_votes pg_text sample_defaults (session "alice") [] []
              readme_world "p1" (raw_number (integer 0)))
    as (_ & Hvote & Hpoll & _ & Hlist).
  - intros uid p. reflexivity.
  - split; [|split; [exact Hpoll|exact Hlist]].
    pose proof (Hvote "bob" 0 [] eq_refl) as H.
    exact H.
Defined.

End PollManagementProperties.

(** * Properties of the functions of schema.sql beyond the vote ledger *)

Module SchemaSqlProperties.
Import ListFacts SchemaSql SchemaSqlFacts.

Lemma order_by_created_at_desc_sort l :
  order_by_created_at_desc l
  = sort_by (fun x y => desc_nulls_first (Polls.created_at x) (Polls.created_at y)) l.
Proof.
  induction l as [|x l IH]; simpl; [reflexivity|]. rewrite IH.
  generalize (sort_by (fun x y => desc_nulls_first (Polls.created_at x) (Polls.created_at y)) l).
  intros s. induction s as [|y s IHs]; simpl; [reflexivity|]. now rewrite IHs.
Qed.

Lemma desc_nulls_first_total a b : desc_nulls_first a b = true \/ desc_nulls_first b a = true.
Proof. destruct a as [x|], b as [y|]; simpl; auto. rewrite !Z.leb_le. lia. Qed.

Lemma desc_nulls_first_trans a b c :
  desc_nulls_first a b = true -> desc_nulls_first b c = true -> desc_nulls_first a c = true.
Proof.
  destruct a as [x|], b as [y|], c as [z|]; simpl; try congruence. rewrite !Z.leb_le. lia.
Qed.

Lemma StronglySorted_map {A B : Type} (f : A -> B) (R : B -> B -> Prop) l :
  StronglySorted (fun a b => R (f a) (f b)) l -> StronglySorted R (map f l).
Proof.
  induction 1 as [|a l Hl IH Ha]; simpl; constructor; [exact IH|].
  apply List.Forall_forall. intros b Hb. apply in_map_iff in Hb. destruct Hb as (x & <- & Hx).
  rewrite List.Forall_forall in Ha. now apply Ha.
Qed.

Lemma options_agg_as_option_json db p rows :
  options_agg db p = Some rows ->
  rows = map (option_json db p) (order_by_display_order (poll_option_rows db p)).
Proof.
  unfold options_agg, poll_option_rows.
  destruct (order_by_display_order _) as [|po l]; [discriminate|].
  intros [= <-]. simpl. f_equal.
  - unfold option_json. now rewrite joined_vote_count_spec.
  - apply map_ext. intros x. unfold option_json. now rewrite joined_vote_count_spec.
Qed.

(** X15. The SELECT of get_poll_with_options cannot be run as it is
    written, also where its names resolve: the constant that line 202
    casts to json holds the text [] between two apostrophes, which is not
    json, so the statement is refused for every database and poll, whether
    the poll has options or not, and no row is returned; written between
    single apostrophes the same constant is the empty array. The function
    returns no rows either way. *)
Theorem tally_query_is_refused db poll_uuid :
  string_constant empty_options_constant = Some "'[]'"
  /\ json_in "'[]'" = inr (invalid_text_representation "json")
  /\ poll_with_options_query db poll_uuid = inr (invalid_text_representation "json")
  /\ (forall rows, get_poll_with_options db poll_uuid <> inl rows)
  /\ option_map json_in (string_constant "'[]'") = Some (inl (json_array [])).
Proof. repeat split; try reflexivity. discriminate. Qed.

(** X16. Counted option by option, the votes on a poll add up: over the
    options of the poll, the numbers of votes on the poll that name each
    option sum to the number of votes on the poll that name one of its
    options; they sum to all the votes on the poll in every database in
    which each vote names an option of its own poll, and calls of
    record_vote keep a database that way. *)
Theorem option_counts_add_up_to_votes_on_own_options db cs p :
  List.NoDup (map PollOptions.id (poll_options db)) ->
  sum_vote_counts (map (option_json db p) (poll_option_rows db p))
  = count_where (fun v => String.eqb (Votes.poll_id v) p
                          && existsb (option_of_poll p (Votes.option_id v)) (poll_options db))
                (votes db)
  /\ (references_own_poll db ->
      references_own_poll (run_calls db cs)
      /\ sum_vote_counts (map (option_json (run_calls db cs) p)
                              (poll_option_rows (run_calls db cs) p))
         = count_where (fun v => String.eqb (Votes.poll_id v) p) (votes (run_calls db cs))).
Proof.
  intros Hpk. split.
  - set (own := fun v => existsb (option_of_poll p (Votes.option_id v)) (poll_options db)).
    rewrite sum_vote_counts_option_json. unfold poll_option_rows.
    set (opts := List.filter (fun po => String.eqb (PollOptions.poll_id po) p)
                             (poll_options db)).
    rewrite (sum_of_ext _ (fun po =>
               count_where (fun v => String.eqb (Votes.poll_id v) p
                                     && String.eqb (Votes.option_id v) (PollOptions.id po))
                           (List.filter own (votes db)))).
    + rewrite per_option_counts_add_up.
      * unfold count_where. rewrite filter_filter_and. f_equal. f_equal.
        apply filter_ext. intros v. apply andb_comm.
      * now apply NoDup_map_filter.
      * apply List.Forall_forall. intros v Hv Hp. apply filter_In in Hv.
        destruct Hv as [_ Hv]. unfold own in Hv. apply existsb_exists in Hv.
        destruct Hv as (po & Hpo & Hm). apply andb_true_iff in Hm. destruct Hm as [Hid Hpoll].
        apply String.eqb_eq in Hid. rewrite <- Hid. apply in_map. apply filter_In.
        now split.
    + intros po Hpo. unfold count_where. rewrite filter_filter_and. f_equal. f_equal.
      apply filter_ext. intros v.
      destruct (String.eqb (Votes.poll_id v) p
                && String.eqb (Votes.option_id v) (PollOptions.id po)) eqn:E;
        [|now rewrite andb_false_r].
      rewrite andb_true_r. symmetry. apply andb_true_iff in E. destruct E as [_ E].
      apply String.eqb_eq in E. apply filter_In in Hpo. destruct Hpo as [Hin Hpoll].
      unfold own. apply existsb_exists. exists po. split; [exact Hin|].
      unfold option_of_poll. rewrite E, String.eqb_refl. exact Hpoll.
  - intros Href. split; [now apply run_calls_keep_references|]. apply tally_adds_up.
    + now destruct (run_calls_other_tables db cs) as (_ & _ & ->).
    + now apply run_calls_keep_references.
Qed.

Lemma option_counts_add_up_to_votes_on_own_options_witness :
  let cs := [by_voter "multi" "mC" "bob"; by_voter "multi" "mA" "alice";
             by_voter "single" "sA" "bob"] in
  sum_vote_counts (map (option_json sample_db "multi") (poll_option_rows sample_db "multi"))
  = count_where (fun v => String.eqb (Votes.poll_id v) "multi"
                          && existsb (option_of_poll "multi" (Votes.option_id v))
                                     (poll_options sample_db))
                (votes sample_db)
  /\ references_own_poll (run_calls sample_db cs)
  /\ sum_vote_counts (map (option_json (run_calls sample_db cs) "multi")
                          (poll_option_rows (run_calls sample_db cs) "multi"))
     = count_where (fun v => String.eqb (Votes.poll_id v) "multi")
                   (votes (run_calls sample_db cs)).
Proof.
  destruct (option_counts_add_up_to_votes_on_own_options sample_db
              [by_voter "multi" "mC" "bob"; by_voter "multi" "mA" "alice";
               by_voter "single" "sA" "bob"] "multi") as [Hown Hall].
  - simpl. repeat constructor; simpl; intuition discriminate.
  - split; [exact Hown|]. apply Hall. constructor.
Defined.

(** X17. get_user_polls returns no row, whatever the tables and the user:
    poll_id is an output column of its RETURNS TABLE and the sub-select of
    total_votes names the column poll_id of votes without a table, so
    every call is refused as ambiguous when the query is first run. *)
Theorem get_user_polls_is_refused db user_uuid :
  get_user_polls db user_uuid = inr (ambiguous_column "poll_id").
Proof. reflexivity. Qed.

(** X18. What the SELECT of get_user_polls computes, its poll_id read as
    the column of votes: one row for each stored poll whose creator is the
    user and for no other poll, in an order in which created_at never
    increases and rows without created_at come first, each with the number
    of votes on that poll as total_votes. *)
Theorem user_polls_query_lists_own_polls db user_uuid :
  exists own,
    Permutation own
      (List.filter (fun p => String.eqb (Polls.creator_id p) user_uuid) (polls db))
    /\ (forall p, In p own <-> In p (polls db) /\ Polls.creator_id p = user_uuid)
    /\ map (fun r => (UserPoll.poll_id r, UserPoll.question r, UserPoll.created_at r))
           (user_polls_query db user_uuid)
       = map (fun p => (Polls.id p, Polls.question p, Polls.created_at p)) own
    /\ map UserPoll.total_votes (user_polls_query db user_uuid)
       = map (fun p => count_where (fun v => String.eqb (Votes.poll_id v) (Polls.id p))
                                   (votes db)) own
    /\ StronglySorted
         (fun a b => desc_nulls_first (UserPoll.created_at a) (UserPoll.created_at b) = true)
         (user_polls_query db user_uuid).
Proof.
  set (mine := List.filter (fun p => String.eqb (Polls.creator_id p) user_uuid) (polls db)).
  assert (Hperm : Permutation (order_by_created_at_desc mine) mine)
    by (rewrite order_by_created_at_desc_sort; apply sort_by_perm).
  exists (order_by_created_at_desc mine). split; [exact Hperm|]. split; [|split; [|split]].
  - intros p. split.
    + intros H. apply (Permutation_in _ Hperm) in H. apply filter_In in H.
      destruct H as [H E]. split; [exact H|now apply String.eqb_eq].
    + intros [H E]. apply (Permutation_in _ (Permutation_sym Hperm)).
      apply filter_In. split; [exact H|now apply String.eqb_eq].
  - unfold user_polls_query. fold mine. now rewrite map_map.
  - unfold user_polls_query. fold mine. now rewrite map_map.
  - unfold user_polls_query. fold mine. apply StronglySorted_map. cbn [UserPoll.created_at].
    rewrite order_by_created_at_desc_sort.
    apply (sort_by_sorted
             (fun x y => desc_nulls_first (Polls.created_at x) (Polls.created_at y))).
    + intros x y. apply desc_nulls_first_total.
    + intros x y z. apply desc_nulls_first_trans.
Qed.

(** [record_vote] with the checks that cannot fail taken out: the foreign
    keys to the poll and the option hold once the two tests have passed,
    and the UNIQUE constraint is never hit. *)
Lemma record_vote_answer db p o v :
  record_vote db p o v =
  match List.find (fun r => String.eqb (Polls.id r) p) (polls db) with
  | None => (raised (raise_exception "Poll not found"), db)
  | Some poll_record =>
    if sql_is_true (sql_ne_status (Polls.status poll_record) active)
    then (raised (raise_exception "Poll is not active"), db)
    else if negb (existsb (option_of_poll p o) (poll_options db))
    then (raised (raise_exception "Invalid option for this poll"), db)
    else if sql_is_true (Polls.allow_multiple_votes poll_record)
            && existsb (same_key p o v) (votes db)
    then (returned true, db)
    else if existsb (fun u => String.eqb (Profiles.id u) v) (profiles db)
    then (returned true,
          if sql_is_true (Polls.allow_multiple_votes poll_record)
          then append_vote db p o v
          else append_vote (delete_votes db p v) p o v)
    else (raised (foreign_key_violation "voter_id"), db)
  end.
Proof.
  unfold record_vote.
  destruct (List.find _ (polls db)) as [poll_record|] eqn:Hfind; [|reflexivity].
  destruct (sql_is_true (sql_ne_status _ _)); [reflexivity|].
  destruct (existsb (option_of_poll p o) (poll_options db)) eqn:Ho; [|reflexivity].
  cbn [negb].
  pose proof (find_existsb _ _ _ Hfind) as Hp.
  pose proof (option_of_poll_exists db p o Ho) as Ho'.
  destruct (sql_is_true (Polls.allow_multiple_votes poll_record)); cbn [andb].
  - unfold insert_vote_on_conflict_do_nothing.
    destruct (existsb (same_key p o v) (votes db)); [reflexivity|].
    unfold check_foreign_keys. rewrite Hp, Ho'. cbn [negb].
    now destruct (existsb _ (profiles db)).
  - unfold insert_vote. rewrite deleted_no_same_key.
    unfold check_foreign_keys. cbn [delete_votes with_votes polls poll_options profiles].
    rewrite Hp, Ho'. cbn [negb].
    now destruct (existsb _ (profiles db)).
Qed.

(** X19. The answers of record_vote to a call whose three arguments are
    ids, none of them NULL. It returns TRUE exactly when the poll is
    stored and its status does not stop votes, the option is one of the
    poll's options, and the voter has a profile or, on a poll with
    allow_multiple_votes, holds the option already; it never returns
    FALSE; and when it raises, every table is as before and the error is
    'Poll not found', 'Poll is not active', 'Invalid option for this poll'
    or the foreign key of voter_id for a voter without a profile, never a
    violation of UNIQUE(poll_id, voter_id, option_id). *)
Theorem record_vote_answers db p o v :
  (fst (record_vote db p o v) = returned true <-> accepted db p o v)
  /\ fst (record_vote db p o v) <> returned false
  /\ (forall e, fst (record_vote db p o v) = raised e ->
        snd (record_vote db p o v) = db
        /\ (e = raise_exception "Poll not found"
            \/ e = raise_exception "Poll is not active"
            \/ e = raise_exception "Invalid option for this poll"
            \/ (e = foreign_key_violation "voter_id" /\ ~ has_profile db v))).
Proof.
  rewrite record_vote_answer. unfold accepted, open_poll, has_profile.
  destruct (List.find _ (polls db)) as [poll_record|] eqn:Hfind.
  2: { split; [|split; [discriminate|]].
       - split; [discriminate|]. intros (r & [H _] & _). discriminate.
       - intros e [= <-]. auto. }
  destruct (sql_is_true (sql_ne_status _ _)) eqn:Hs.
  { split; [|split; [discriminate|]].
    - split; [discriminate|]. intros (r & [[= <-] H] & _). congruence.
    - intros e [= <-]. auto. }
  destruct (existsb (option_of_poll p o) (poll_options db)) eqn:Ho; cbn [negb].
  2: { split; [|split; [discriminate|]].
       - split; [discriminate|]. intros (r & _ & H & _). discriminate.
       - intros e [= <-]. auto. }
  destruct (sql_is_true (Polls.allow_multiple_votes poll_record)
            && existsb (same_key p o v) (votes db)) eqn:Hm.
  { apply andb_true_iff in Hm. split; [|split; [discriminate|discriminate]].
    split; [|reflexivity]. intros _. exists poll_record. auto. }
  destruct (existsb _ (profiles db)) eqn:Hprof.
  { split; [|split; [discriminate|discriminate]].
    split; [|reflexivity]. intros _. exists poll_record. auto. }
  split; [|split; [discriminate|]].
  - split; [discriminate|]. intros (r & [Hr _] & _ & [Hv|[Hv1 Hv2]]); [discriminate|].
    injection Hr as <-. rewrite Hv1, Hv2 in Hm. discriminate.
  - intros e [= <-]. split; [reflexivity|]. right. right. right.
    split; [reflexivity|]. intros H. discriminate.
Qed.

(** X20. Calls of record_vote touch nothing but the caller's votes on the
    poll of the call: after any sequence of calls none of which is by
    voter v on poll p, v holds on p the rows held before, and profiles,
    polls and poll_options are as before after any sequence. *)
Theorem calls_touch_only_the_callers_votes db cs p v :
  Forall (fun c => addressed p v c = false) cs ->
  votes_of (run_calls db cs) p v = votes_of db p v
  /\ profiles (run_calls db cs) = profiles db
  /\ polls (run_calls db cs) = polls db
  /\ poll_options (run_calls db cs) = poll_options db.
Proof.
  intros H. split; [|apply run_calls_other_tables].
  revert db. induction H as [|c cs Hc _ IH]; intros db; [reflexivity|].
  simpl. rewrite IH. now apply step_not_addressed.
Qed.

Lemma calls_touch_only_the_callers_votes_witness :
  let db := run_calls sample_db [by_voter "single" "sA" "bob"] in
  let cs := [by_voter "single" "sB" "alice"; by_voter "multi" "mA" "bob";
             by_voter "single" "zz" "carol"] in
  votes_of (run_calls db cs) "single" "bob" = votes_of db "single" "bob"
  /\ profiles (run_calls db cs) = profiles db
  /\ polls (run_calls db cs) = polls db
  /\ poll_options (run_calls db cs) = poll_options db.
Proof.
  apply (calls_touch_only_the_callers_votes
           (run_calls sample_db [by_voter "single" "sA" "bob"])
           [by_voter "single" "sB" "alice"; by_voter "multi" "mA" "bob";
            by_voter "single" "zz" "carol"] "single" "bob").
  repeat constructor.
Defined.

Lemma step_keeps_votes_referenced db c :
  votes_reference_rows db -> votes_reference_rows (step db c).
Proof.
  intros H. unfold step. rewrite record_vote_answer.
  destruct (List.find _ (polls db)) as [poll_record|] eqn:Hfind; [|exact H].
  destruct (sql_is_true (sql_ne_status _ _)); [exact H|].
  destruct (existsb (option_of_poll _ _) (poll_options db)) eqn:Ho; cbn [negb]; [|exact H].
  destruct (sql_is_true (Polls.allow_multiple_votes poll_record)) eqn:Hm; cbn [andb].
  - destruct (existsb (same_key _ _ _) (votes db)); [exact H|].
    destruct (existsb _ (profiles db)) eqn:Hprof; [|exact H].
    unfold votes_reference_rows, has_profile in *. simpl.
    apply Forall_app. split; [exact H|]. constructor; [|constructor]. simpl.
    repeat split; [exact (find_existsb _ _ _ Hfind)|exact Ho|exact Hprof].
  - destruct (existsb _ (profiles db)) eqn:Hprof; [|exact H].
    unfold votes_reference_rows, has_profile in *. simpl.
    apply Forall_app. split.
    + rewrite List.Forall_forall in *. intros r Hr. apply filter_In in Hr. now apply H.
    + constructor; [|constructor]. simpl.
      repeat split; [exact (find_existsb _ _ _ Hfind)|exact Ho|exact Hprof].
Qed.

(** X21. Calls of record_vote keep the references of votes: in a database
    where every vote names a stored poll, an option of that poll and a
    voter with a profile, the same holds after any sequence of calls, by
    anyone and with any arguments. *)
Theorem calls_keep_votes_referenced db cs :
  votes_reference_rows db -> votes_reference_rows (run_calls db cs).
Proof.
  revert db. induction cs as [|c cs IH]; intros db H; [exact H|].
  simpl. apply IH. now apply step_keeps_votes_referenced.
Qed.

Lemma calls_keep_votes_referenced_witness :
  votes_reference_rows
    (run_calls (run_calls sample_db [by_voter "multi" "mB" "alice"])
               [by_voter "single" "sA" "bob"; by_voter "single" "mA" "bob";
                by_voter "multi" "mA" "carol"; by_voter "single" "sB" "bob"]).
Proof.
  apply (calls_keep_votes_referenced (run_calls sample_db [by_voter "multi" "mB" "alice"])).
  repeat constructor.
Defined.

(** X22. A vote for the option the voter already holds, on a poll that
    takes votes: with allow_multiple_votes the call returns TRUE and the
    database is exactly as before; without it the call returns TRUE too,
    but the held row is deleted and a new row for the same option is
    inserted, the voter holding that row alone; where the ids of the
    stored votes are ids given out before, the id of the new row is none
    of them, and the ids stay that way. *)
Theorem vote_for_the_held_option db p poll_record o v :
  open_poll db p poll_record ->
  existsb (option_of_poll p o) (poll_options db) = true ->
  has_profile db v ->
  In o (held_options db p v) ->
  (sql_is_true (Polls.allow_multiple_votes poll_record) = true ->
   record_vote db p o v = (returned true, db))
  /\ (sql_is_true (Polls.allow_multiple_votes poll_record) = false ->
      let db' := snd (record_vote db p o v) in
      fst (record_vote db p o v) = returned true
      /\ votes_of db' p v = [{| Votes.id := next_vote_id db; Votes.poll_id := p;
                                Votes.option_id := o; Votes.voter_id := v |}]
      /\ next_vote_id db' = N.succ (next_vote_id db)
      /\ length (votes db') = S (length (votes db) - length (votes_of db p v))
      /\ (ids_given_out db ->
          ~ In (next_vote_id db) (map Votes.id (votes db)) /\ ids_given_out db')).
Proof.
  intros Hopen Ho Hprof Hheld. split; intros Hm.
  - rewrite (record_vote_multiple db p poll_record o v Hopen Hm Ho Hprof).
    apply held_option_iff in Hheld. now rewrite Hheld.
  - rewrite (record_vote_single db p poll_record o v Hopen Hm Ho Hprof). cbn [fst snd].
    split; [reflexivity|]. split; [|split; [reflexivity|split]].
    + rewrite votes_of_append, votes_of_delete_same, !String.eqb_refl. reflexivity.
    + simpl. rewrite length_app. simpl. rewrite Nat.add_1_r. f_equal.
      unfold votes_of. generalize (votes db). intros vs.
      induction vs as [|r vs IH]; simpl; [reflexivity|].
      destruct (of_voter_on_poll p v r); simpl; [rewrite IH|].
      * pose proof (filter_length_le (of_voter_on_poll p v) vs). lia.
      * rewrite IH. pose proof (filter_length_le (of_voter_on_poll p v) vs). lia.
    + intros Hids. unfold ids_given_out in *. rewrite List.Forall_forall in Hids. split.
      * intros Hin. apply in_map_iff in Hin. destruct Hin as (r & Hr & Hin).
        specialize (Hids r Hin). lia.
      * simpl. apply Forall_app. split.
        -- apply List.Forall_forall. intros r Hr. apply filter_In in Hr.
           destruct Hr as [Hr _]. specialize (Hids r Hr). lia.
        -- constructor; [simpl; lia|constructor].
Qed.

Lemma vote_for_the_held_option_witness :
  let multi := run_calls sample_db [by_voter "multi" "mA" "bob"] in
  let db := run_calls sample_db [by_voter "single" "sB" "alice"; by_voter "single" "sA" "bob"] in
  let db' := snd (record_vote db "single" "sA" "bob") in
  record_vote multi "multi" "mA" "bob" = (returned true, multi)
  /\ fst (record_vote db "single" "sA" "bob") = returned true
  /\ votes_of db' "single" "bob"
     = [{| Votes.id := next_vote_id db; Votes.poll_id := "single";
           Votes.option_id := "sA"; Votes.voter_id := "bob" |}]
  /\ next_vote_id db' = N.succ (next_vote_id db)
  /\ length (votes db') = S (length (votes db) - length (votes_of db "single" "bob"))
  /\ ~ In (next_vote_id db) (map Votes.id (votes db))
  /\ ids_given_out db'.
Proof.
  split.
  - apply (vote_for_the_held_option (run_calls sample_db [by_voter "multi" "mA" "bob"])
             "multi" (mk_poll "multi" (Some active) (Some true) None) "mA" "bob").
    + split; reflexivity.
    + reflexivity.
    + reflexivity.
    + simpl. now left.
    + reflexivity.
  - destruct (vote_for_the_held_option
                (run_calls sample_db [by_voter "single" "sB" "alice";
                                      by_voter "single" "sA" "bob"])
                "single" (mk_poll "single" (Some active) (Some false) None) "sA" "bob")
      as [_ Hsingle].
    + split; reflexivity.
    + reflexivity.
    + reflexivity.
    + simpl. now left.
    + destruct (Hsingle eq_refl) as (Hret & Hrow & Hnext & Hlen & Hids).
      destruct Hids as [Hnew Hlater]; [repeat constructor|].
      repeat split; assumption.
Defined.

(** X23. NULL in the columns record_vote reads: a poll whose status is
    NULL takes votes like an active one (NULL != 'active' is not true),
    and a poll whose allow_multiple_votes is NULL is treated as single
    choice: the voter's rows on the poll are deleted and the new row is
    inserted. *)
Theorem null_columns_read_as_defaults db p poll_record o v :
  List.find (fun r => String.eqb (Polls.id r) p) (polls db) = Some poll_record ->
  existsb (option_of_poll p o) (poll_options db) = true ->
  has_profile db v ->
  (Polls.status poll_record = None -> fst (record_vote db p o v) = returned true)
  /\ (Polls.status poll_record = None \/ Polls.status poll_record = Some active ->
      Polls.allow_multiple_votes poll_record = None ->
      record_vote db p o v = (returned true, append_vote (delete_votes db p v) p o v)).
Proof.
  intros Hfind Ho Hprof. split.
  - intros Hs.
    assert (Hopen : open_poll db p poll_record) by (split; [exact Hfind|now rewrite Hs]).
    destruct (sql_is_true (Polls.allow_multiple_votes poll_record)) eqn:Hm.
    + now rewrite (record_vote_multiple db p poll_record o v Hopen Hm Ho Hprof).
    + now rewrite (record_vote_single db p poll_record o v Hopen Hm Ho Hprof).
  - intros Hs Hm. apply (record_vote_single db p poll_record); try assumption.
    + split; [exact Hfind|]. now destruct Hs as [-> | ->].
    + now rewrite Hm.
Qed.

Lemma null_columns_read_as_defaults_witness :
  let poll_record := mk_poll "blank" None None None in
  let db := {| profiles := profiles sample_db; polls := [poll_record];
               poll_options := [mk_option "bA" "blank" "yes" 0; mk_option "bB" "blank" "no" 1];
               votes := [{| Votes.id := 0%N; Votes.poll_id := "blank"; Votes.option_id := "bB";
                            Votes.voter_id := "bob" |}];
               next_vote_id := 1%N |} in
  (Polls.status poll_record = None -> fst (record_vote db "blank" "bA" "bob") = returned true)
  /\ (Polls.status poll_record = None \/ Polls.status poll_record = Some active ->
      Polls.allow_multiple_votes poll_record = None ->
      record_vote db "blank" "bA" "bob"
      = (returned true, append_vote (delete_votes db "blank" "bob") "blank" "bA" "bob")).
Proof.
  apply (null_columns_read_as_defaults
           {| profiles := profiles sample_db; polls := [mk_poll "blank" None None None];
              poll_options := [mk_option "bA" "blank" "yes" 0; mk_option "bB" "blank" "no" 1];
              votes := [{| Votes.id := 0%N; Votes.poll_id := "blank"; Votes.option_id := "bB";
                           Votes.voter_id := "bob" |}];
              next_vote_id := 1%N |}
           "blank" (mk_poll "blank" None None None) "bA" "bob"); reflexivity.
Defined.





End SchemaSqlProperties.
